(** * Agent orchestration layer: a shallow embedding and its properties

    The development follows four source files of the repository:
    - [agent-orchestrator.ts]  (class [AgentOrchestrator]),
    - [model-manager.ts]       (class [ModelManager] and its providers),
    - [tools/tool-system.ts]   (class [ToolSystem]),
    - [memory/memory-system.ts] (class [MemorySystem]).

    JavaScript values are modelled as follows.  Strings are [string]
    (the text is taken to be ASCII: every byte above 127 is a non-word
    character and is left alone by [toLowerCase]).  A [Map] whose iteration
    order is observable (providers, tools, memory entries) is an association
    list in insertion order; a [Map] that is only looked up by key (in-flight
    requests, conversations, code patterns) is a [gmap].  Values of type
    [any] are [json]: finite trees with integer numbers, on which
    [JSON.stringify] does not throw.  The quotients
    [matches / queryWords.length] and the literals [0.3], [0.4], [0.7] ...
    are rationals: for token counts below 2^50 the comparison of the IEEE
    doubles agrees with the comparison of the exact quotients, since a
    quotient [m/n] other than [3/10] is at least [1/(10n)] away from it, and
    two distinct quotients of one query at least [1/n] from each other.

    An [async] method is a computation on the state of the program; what
    is awaited runs to its end before the method goes on, except for the
    model call, during which other callers may act (see
    [ModelManager.awaitProvider]). *)

From Stdlib Require Import Ascii QArith DecimalString.
From stdpp Require Import gmap strings list.

Open Scope string_scope.
Set Warnings "-register-all".

(** ** JavaScript primitives *)

Module JS.

(** The character class [\w] of a regular expression without the
    unicode flag: [A-Za-z0-9_]. *)
Definition isWordChar (c : ascii) : bool :=
  let n := nat_of_ascii c in
  ((48 <=? n)%nat && (n <=? 57)%nat)
  || ((65 <=? n)%nat && (n <=? 90)%nat)
  || ((97 <=? n)%nat && (n <=? 122)%nat)
  || (n =? 95)%nat.

Definition lowerChar (c : ascii) : ascii :=
  let n := nat_of_ascii c in
  if ((65 <=? n)%nat && (n <=? 90)%nat) then ascii_of_nat (n + 32) else c.

(** [String.prototype.toLowerCase] *)
Fixpoint toLowerCase (s : string) : string :=
  match s with
  | EmptyString => EmptyString
  | String c s' => String (lowerChar c) (toLowerCase s')
  end.

(** [s.split(/\W+/)]: the pieces of [s] between maximal runs of non-word
    characters.  [cur] is the piece being read, [inSep] tells that the
    previous character belonged to a separator run.  A leading or a
    trailing run yields an empty piece, and the empty string yields one
    empty piece, as in JavaScript. *)
Fixpoint splitW_from (s cur : string) (inSep : bool) : list string :=
  match s with
  | EmptyString => [cur]
  | String c s' =>
      if isWordChar c then splitW_from s' (cur +:+ String c EmptyString) false
      else if inSep then splitW_from s' cur true
      else cur :: splitW_from s' EmptyString true
  end.

Definition splitW (s : string) : list string := splitW_from s EmptyString false.

(** [Array.prototype.includes] on an array of strings *)
Definition includes (l : list string) (x : string) : bool :=
  bool_decide (x ∈ l).

(** [String.prototype.includes] *)
Fixpoint str_includes (s sub : string) : bool :=
  String.prefix sub s
  || match s with
     | EmptyString => false
     | String _ s' => str_includes s' sub
     end.

(** Rendering of an integer by a template literal or [JSON.stringify] *)
Definition ofZ (z : Z) : string := NilZero.string_of_int (Z.to_int z).

(** A value of type [any], as far as [JSON.stringify] can tell values
    apart.  A property whose value is [undefined] is not listed in
    [JObj]: [JSON.stringify] leaves it out. *)
Inductive json : Type :=
| JNull
| JBool (b : bool)
| JNum (n : Z)
| JStr (s : string)
| JArr (items : list json)
| JObj (fields : list (string * json)).

Definition chr (n : nat) : string := String (ascii_of_nat n) EmptyString.
Definition dquote : string := chr 34.
Definition newline : string := chr 10.

Definition hexDigit (n : nat) : string :=
  if (n <? 10)%nat then chr (48 + n) else chr (87 + n).

(** The escapes of [JSON.stringify] inside a string literal *)
Definition escapeChar (c : ascii) : string :=
  let n := nat_of_ascii c in
  if (n =? 34)%nat then "\" +:+ dquote
  else if (n =? 92)%nat then "\\"
  else if (n =? 8)%nat then "\b"
  else if (n =? 9)%nat then "\t"
  else if (n =? 10)%nat then "\n"
  else if (n =? 12)%nat then "\f"
  else if (n =? 13)%nat then "\r"
  else if (n <? 32)%nat then "\u00" +:+ hexDigit (n / 16) +:+ hexDigit (n mod 16)
  else String c EmptyString.

Fixpoint escape (s : string) : string :=
  match s with
  | EmptyString => EmptyString
  | String c s' => escapeChar c +:+ escape s'
  end.

Definition quote (s : string) : string := dquote +:+ escape s +:+ dquote.

(** [JSON.stringify(v)] without indentation *)
Fixpoint stringify (v : json) : string :=
  match v with
  | JNull => "null"
  | JBool true => "true"
  | JBool false => "false"
  | JNum n => ofZ n
  | JStr s => quote s
  | JArr items => "[" +:+ String.concat "," (List.map stringify items) +:+ "]"
  | JObj fields =>
      "{" +:+ String.concat ","
                (List.map (fun kv => quote (fst kv) +:+ ":" +:+ stringify (snd kv)) fields)
          +:+ "}"
  end.

(** [x || d] on strings: the empty string is falsy. *)
Definition orElse (x : option string) (d : string) : string :=
  match x with
  | Some (String c s) => String c s
  | _ => d
  end.

(** Truthiness of an optional string *)
Definition truthy (x : option string) : bool :=
  match x with
  | Some (String _ _) => true
  | _ => false
  end.

(** [[...new Set(l)]]: the first occurrence of every element, in order *)
Fixpoint unique_from (seen l : list string) : list string :=
  match l with
  | [] => []
  | x :: l' =>
      if includes seen x then unique_from seen l' else x :: unique_from (x :: seen) l'
  end.

Definition unique (l : list string) : list string := unique_from [] l.

(** [a > b] on numbers *)
Definition gt (a b : Q) : bool := negb (Qle_bool a b).

(** White space in the sense of [String.prototype.trim] *)
Definition isSpace (c : ascii) : bool :=
  let n := nat_of_ascii c in
  ((9 <=? n)%nat && (n <=? 13)%nat) || (n =? 32)%nat.

Fixpoint trimStart (s : string) : string :=
  match s with
  | EmptyString => EmptyString
  | String c s' => if isSpace c then trimStart s' else s
  end.

(** [trimEnd] keeps a character when it is no space or when something
    is kept after it. *)
Fixpoint trimEnd (s : string) : string :=
  match s with
  | EmptyString => EmptyString
  | String c s' =>
      match trimEnd s' with
      | EmptyString => if isSpace c then EmptyString else String c EmptyString
      | rest => String c rest
      end
  end.

Definition trim (s : string) : string := trimEnd (trimStart s).

(** The text after the first occurrence of [sep] in [s], with the text
    before it *)
Fixpoint cut (sep s : string) : option (string * string) :=
  if String.prefix sep s
  then Some (EmptyString, String.substring (String.length sep) (String.length s) s)
  else match s with
       | EmptyString => None
       | String c s' =>
           match cut sep s' with
           | Some (before, after) => Some (String c before, after)
           | None => None
           end
       end.

(** The longest prefix of word characters, and what follows it *)
Fixpoint spanW (s : string) : string * string :=
  match s with
  | EmptyString => (EmptyString, EmptyString)
  | String c s' =>
      if isWordChar c
      then let '(w, rest) := spanW s' in (String c w, rest)
      else (EmptyString, s)
  end.

(** A [Map] in insertion order.  [set] keeps the position of a key that
    is already present and appends a new key at the end. *)
Section OrderedMap.
Context {V : Type}.

Fixpoint set (k : string) (v : V) (m : list (string * V)) : list (string * V) :=
  match m with
  | [] => [(k, v)]
  | (k', v') :: m' =>
      if String.eqb k k' then (k, v) :: m' else (k', v') :: set k v m'
  end.

Fixpoint get (k : string) (m : list (string * V)) : option V :=
  match m with
  | [] => None
  | (k', v') :: m' => if String.eqb k k' then Some v' else get k m'
  end.

Definition delete (k : string) (m : list (string * V)) : list (string * V) :=
  List.filter (fun kv => negb (String.eqb k (fst kv))) m.

Definition values (m : list (string * V)) : list V := List.map snd m.
Definition keys (m : list (string * V)) : list string := List.map fst m.
End OrderedMap.

End JS.

Import JS (json, JNull, JBool, JNum, JStr, JArr, JObj).
Open Scope Z_scope.

(** ** Data model *)

(** [IAgentRequest] and [IAgentResponse] of agent-orchestrator.ts *)

Inductive RequestType : Type :=
  chat | command | analysis | refactor | debug | test.

Definition RequestType_name (t : RequestType) : string :=
  match t with
  | chat => "chat" | command => "command" | analysis => "analysis"
  | refactor => "refactor" | debug => "debug" | test => "test"
  end.

Record RequestContext : Type := {
  ctx_filePath : option string;
  ctx_selection : option string;
  ctx_workspace : option string;
  ctx_language : option string
}.

Record RequestOptions : Type := {
  opt_model : option string;
  opt_provider : option string;
  opt_streaming : option bool;
  opt_timeout : option Z
}.

Record IAgentRequest : Type := {
  req_id : string;
  req_type : RequestType;
  req_content : string;
  req_context : option RequestContext;
  req_options : option RequestOptions
}.

Record IAgentToolResult : Type := {
  tr_name : string;
  tr_result : json;
  tr_error : option string;
  tr_duration : Z
}.

Record ResponseMetadata : Type := {
  md_model : string;
  md_provider : string;
  md_tokens : Z;
  md_duration : Z
}.

Record IAgentResponse : Type := {
  resp_id : string;
  resp_requestId : string;
  resp_content : string;
  resp_tools : option (list IAgentToolResult);
  resp_error : option string;
  resp_metadata : option ResponseMetadata
}.

(** What a [throw] or a rejected promise carries: an [Error] object with
    its message, or any other value. *)
Inductive Exn : Type :=
| Error (message : string)
| NonError (v : json).

(** How a call completes. *)
Inductive Completion (A : Type) : Type :=
| Normal (a : A)
| Throw (e : Exn).
Arguments Normal {A} a.
Arguments Throw {A} e.

(** Interfaces of model-manager.ts *)

Inductive ModelType : Type := local | api.

Record IModelInfo : Type := {
  mi_name : string;
  mi_provider : string;
  mi_type : ModelType;
  mi_capabilities : list string;
  mi_contextLength : Z;
  mi_costPerToken : option Q
}.

Inductive Role : Type := system | user | assistant | tool.

Definition Role_name (r : Role) : string :=
  match r with
  | system => "system" | user => "user" | assistant => "assistant" | tool => "tool"
  end.

Record IModelMessage : Type := {
  mm_role : Role;
  mm_content : string
}.

Record IModelRequest : Type := {
  mr_messages : list IModelMessage;
  mr_model : string;
  mr_provider : string;
  mr_temperature : Q;
  mr_maxTokens : Z
}.

Inductive FinishReason : Type := stop | length_reached | tool_calls.

Record IModelResponse : Type := {
  mo_content : string;
  mo_tokens : option Z;
  mo_finishReason : FinishReason
}.

(** The [options] argument of [IModelProvider.execute], as the provider
    observes it: [eo_aborted] tells whether the abort signal has been raised
    by the time the provider's request settles. *)
Record ExecuteOptions : Type := {
  eo_aborted : bool;
  eo_timeout : Z
}.

(** [IModelProvider]: one implementation is one record.  A provider
    answers the same way throughout one request. *)
Record IModelProvider : Type := {
  prov_name : string;
  prov_type : ModelType;
  prov_isAvailable : Completion bool;
  prov_listModels : Completion (list IModelInfo);
  prov_execute : IModelRequest -> ExecuteOptions -> Completion IModelResponse
}.

Record ModelManager : Type := {
  providers : list (string * IModelProvider);
  currentModel : option IModelInfo
}.

(** Interfaces of tools/tool-system.ts *)

Record IToolContext : Type := {
  tc_request : IAgentRequest;
  tc_workspaceRoot : option string;
  tc_workingDirectory : string;
  tc_timeout : Z
}.

Record ITool : Type := {
  tool_name : string;
  tool_description : string;
  tool_capabilities : list string;
  tool_execute : IToolContext -> Completion json
}.

Record ToolSystem : Type := {
  tools : list (string * ITool)
}.

(** Interfaces of memory/memory-system.ts *)

Inductive MemoryEntryType : Type :=
  me_conversation | me_knowledge | me_pattern | me_context.

Definition MemoryEntryType_name (t : MemoryEntryType) : string :=
  match t with
  | me_conversation => "conversation" | me_knowledge => "knowledge"
  | me_pattern => "pattern" | me_context => "context"
  end.

Record MemoryMetadata : Type := {
  meta_timestamp : Z;
  meta_source : string;
  meta_relevance : Q;
  meta_tags : list string
}.

Record IMemoryEntry : Type := {
  entry_id : string;
  entry_type : MemoryEntryType;
  entry_content : json;
  entry_metadata : MemoryMetadata
}.

Record IChatMessage : Type := {
  msg_role : Role;
  msg_content : string;
  msg_timestamp : Z
}.

Record IConversationContext : Type := {
  conv_messages : list IChatMessage;
  conv_summary : string;
  conv_keyTopics : list string;
  conv_lastActivity : Z
}.

Inductive NodeType : Type :=
  nt_concept | nt_function | nt_class | nt_file | nt_pattern.

Definition NodeType_name (t : NodeType) : string :=
  match t with
  | nt_concept => "concept" | nt_function => "function" | nt_class => "class"
  | nt_file => "file" | nt_pattern => "pattern"
  end.

Record IKnowledgeNode : Type := {
  node_id : string;
  node_type : NodeType;
  node_label : string;
  node_properties : list (string * json)
}.

Record IKnowledgeEdge : Type := {
  edge_source : string;
  edge_target : string;
  edge_weight : Q
}.

Record IKnowledgeGraph : Type := {
  nodes : list IKnowledgeNode;
  edges : list IKnowledgeEdge
}.

Record ICodePattern : Type := {
  pat_id : string;
  pat_pattern : string;
  pat_description : string;
  pat_examples : list string;
  pat_confidence : Q;
  pat_lastUsed : Z
}.

Record IKnowledgeEntry : Type := {
  ke_content : string;
  ke_relevance : Q;
  ke_source : string;
  ke_type : string
}.

Record MemorySystem : Type := {
  memory : list (string * IMemoryEntry);
  conversations : gmap string IConversationContext;
  knowledgeGraph : IKnowledgeGraph;
  codePatterns : gmap string (list ICodePattern)
}.

(** ** The world and the mutable state *)

(** What the program reads from outside: the successive readings of
    [Date.now()] and [Math.random()] (the latter as the template literal
    prints it), [process.cwd()], the configuration and the outcome of
    writing a file. *)
Record World : Type := {
  clock : nat -> Z;
  random : nat -> string;
  cwd : string;
  cfg_toolsEnabled : option (list string);
  cfg_memoryPath : option string;
  fs_writeFile : Completion unit
}.

Inductive Event : Type :=
| DidStartRequest (request : IAgentRequest)
| DidReceiveResponse (response : IAgentResponse)
| DidEndRequest (requestId : string).

Inductive LogLevel : Type := LDebug | LInfo | LWarn | LError.

Record LogEntry : Type := {
  log_level : LogLevel;
  log_message : string;
  log_data : list (string * json)
}.

(** The orchestrator with its three components ([undefined] when
    [initializeComponents] failed), the [AbortController] objects allocated
    so far (their [aborted] flags, addressed by position), the events fired,
    the log, the number of clock readings and random draws taken, and the
    memory files written. *)
Record State : Type := {
  world : World;
  activeRequests : gmap string nat;
  modelManager : option ModelManager;
  toolSystem : option ToolSystem;
  memorySystem : option MemorySystem;
  controllers : list bool;
  events : list Event;
  logs : list LogEntry;
  ticks : nat;
  draws : nat;
  files : gmap string MemorySystem
}.

Definition set_activeRequests (f : gmap string nat -> gmap string nat) (s : State) : State :=
  {| world := world s; activeRequests := f (activeRequests s); modelManager := modelManager s;
     toolSystem := toolSystem s; memorySystem := memorySystem s; controllers := controllers s;
     events := events s; logs := logs s; ticks := ticks s; draws := draws s; files := files s |}.

Definition set_modelManager (f : option ModelManager -> option ModelManager) (s : State) : State :=
  {| world := world s; activeRequests := activeRequests s; modelManager := f (modelManager s);
     toolSystem := toolSystem s; memorySystem := memorySystem s; controllers := controllers s;
     events := events s; logs := logs s; ticks := ticks s; draws := draws s; files := files s |}.

Definition set_memorySystem (f : option MemorySystem -> option MemorySystem) (s : State) : State :=
  {| world := world s; activeRequests := activeRequests s; modelManager := modelManager s;
     toolSystem := toolSystem s; memorySystem := f (memorySystem s); controllers := controllers s;
     events := events s; logs := logs s; ticks := ticks s; draws := draws s; files := files s |}.

Definition set_controllers (f : list bool -> list bool) (s : State) : State :=
  {| world := world s; activeRequests := activeRequests s; modelManager := modelManager s;
     toolSystem := toolSystem s; memorySystem := memorySystem s; controllers := f (controllers s);
     events := events s; logs := logs s; ticks := ticks s; draws := draws s; files := files s |}.

Definition set_events (f : list Event -> list Event) (s : State) : State :=
  {| world := world s; activeRequests := activeRequests s; modelManager := modelManager s;
     toolSystem := toolSystem s; memorySystem := memorySystem s; controllers := controllers s;
     events := f (events s); logs := logs s; ticks := ticks s; draws := draws s; files := files s |}.

Definition set_logs (f : list LogEntry -> list LogEntry) (s : State) : State :=
  {| world := world s; activeRequests := activeRequests s; modelManager := modelManager s;
     toolSystem := toolSystem s; memorySystem := memorySystem s; controllers := controllers s;
     events := events s; logs := f (logs s); ticks := ticks s; draws := draws s; files := files s |}.

Definition set_ticks (f : nat -> nat) (s : State) : State :=
  {| world := world s; activeRequests := activeRequests s; modelManager := modelManager s;
     toolSystem := toolSystem s; memorySystem := memorySystem s; controllers := controllers s;
     events := events s; logs := logs s; ticks := f (ticks s); draws := draws s; files := files s |}.

Definition set_draws (f : nat -> nat) (s : State) : State :=
  {| world := world s; activeRequests := activeRequests s; modelManager := modelManager s;
     toolSystem := toolSystem s; memorySystem := memorySystem s; controllers := controllers s;
     events := events s; logs := logs s; ticks := ticks s; draws := f (draws s); files := files s |}.

Definition set_files (f : gmap string MemorySystem -> gmap string MemorySystem) (s : State) : State :=
  {| world := world s; activeRequests := activeRequests s; modelManager := modelManager s;
     toolSystem := toolSystem s; memorySystem := memorySystem s; controllers := controllers s;
     events := events s; logs := logs s; ticks := ticks s; draws := draws s; files := f (files s) |}.

(** ** Computations: state and exceptions

    A method of the program is a function from the state to a completion
    and a new state.  The state survives a [throw].  An [await] is
    sequential composition, except where the model call is awaited (see
    [ModelManager.execute]). *)

Definition M (A : Type) : Type := State -> Completion A * State.

Definition ret {A} (a : A) : M A := fun s => (Normal a, s).

Definition bind {A B} (m : M A) (k : A -> M B) : M B :=
  fun s =>
    match m s with
    | (Normal a, s') => k a s'
    | (Throw e, s') => (Throw e, s')
    end.

Definition throw {A} (e : Exn) : M A := fun s => (Throw e, s).

(** [try { body } catch (error) { handler }] *)
Definition try_catch {A} (body : M A) (handler : Exn -> M A) : M A :=
  fun s =>
    match body s with
    | (Normal a, s') => (Normal a, s')
    | (Throw e, s') => handler e s'
    end.

(** [try { body } finally { finalizer }]: the finalizer runs however the
    body completes; the completion is the body's unless the finalizer
    throws. *)
Definition try_finally {A} (body : M A) (finalizer : M unit) : M A :=
  fun s =>
    match body s with
    | (c, s') =>
        match finalizer s' with
        | (Normal _, s'') => (c, s'')
        | (Throw e, s'') => (Throw e, s'')
        end
    end.

Definition gets {A} (f : State -> A) : M A := fun s => (Normal (f s), s).
Definition modify (f : State -> State) : M unit := fun s => (Normal tt, f s).

(** The completion of a call that does not touch the state. *)
Definition settle {A} (c : Completion A) : M A := fun s => (c, s).

Declare Scope js_scope.
Delimit Scope js_scope with js.
Notation "x <- m ;; k" := (bind m (fun x => k))
  (at level 100, m at next level, right associativity) : js_scope.
Notation "m ;; k" := (bind m (fun _ => k))
  (at level 100, right associativity) : js_scope.
Open Scope js_scope.

(** [Date.now()] *)
Definition Date_now : M Z :=
  fun s => (Normal (clock (world s) (ticks s)), set_ticks S s).

(** [Math.random()], printed *)
Definition Math_random : M string :=
  fun s => (Normal (random (world s) (draws s)), set_draws S s).

Definition Exn_json (e : Exn) : json :=
  match e with
  | Error message => JObj [("message", JStr message)]
  | NonError v => v
  end.

(** [logService.debug/info/warn/error(message, data)] *)
Definition log (level : LogLevel) (message : string) (data : list (string * json)) : M unit :=
  modify (set_logs (fun l => (l ++ [{| log_level := level; log_message := message; log_data := data |}])%list)).

(** [emitter.fire(event)]; a listener does not throw into the emitter. *)
Definition fire (e : Event) : M unit :=
  modify (set_events (fun l => (l ++ [e])%list)).

(** Reading a property of [undefined] *)
Definition TypeError (property : string) : Exn :=
  Error ("Cannot read properties of undefined (reading '" +:+ property +:+ "')").

(** [error instanceof Error ? error.message : fallback] *)
Definition messageOr (e : Exn) (fallback : string) : string :=
  match e with
  | Error message => message
  | NonError _ => fallback
  end.

(** ** model-manager.ts *)

Module ModelManager.

(** The receiver of a method: the call [this.modelManager.method(...)]
    throws a [TypeError] when the component is [undefined]. *)
Definition this (method : string) : M ModelManager :=
  fun s =>
    match modelManager s with
    | Some mm => (Normal mm, s)
    | None => (Throw (TypeError method), s)
    end.

(** [this.currentModel = model] *)
Definition set_currentModel (model : IModelInfo) : M unit :=
  modify (set_modelManager
            (fmap (fun mm => {| providers := providers mm; currentModel := Some model |}))).

(** The predicate of [models.find] in [findModel]:
    [m.name === modelName || m.name.includes(modelName)] *)
Definition nameMatches (modelName : string) (m : IModelInfo) : bool :=
  String.eqb (mi_name m) modelName || JS.str_includes (mi_name m) modelName.

Fixpoint findModel_loop (ps : list IModelProvider) (modelName : string)
  : M (option IModelInfo) :=
  match ps with
  | [] => ret None
  | provider :: rest =>
      match prov_listModels provider with
      | Normal models =>
          match List.find (nameMatches modelName) models with
          | Some model => ret (Some model)
          | None => findModel_loop rest modelName
          end
      | Throw error =>
          log LWarn ("Model Manager: Failed to get models from " +:+ prov_name provider)
              [("error", Exn_json error)] ;;
          findModel_loop rest modelName
      end
  end.

Definition findModel (modelName : string) : M (option IModelInfo) :=
  mm <- this "findModel" ;;
  findModel_loop (JS.values (providers mm)) modelName.

Fixpoint getAvailableModels_loop (ps : list IModelProvider) (allModels : list IModelInfo)
  : M (list IModelInfo) :=
  match ps with
  | [] => ret allModels
  | provider :: rest =>
      match prov_isAvailable provider with
      | Normal true =>
          match prov_listModels provider with
          | Normal models => getAvailableModels_loop rest (allModels ++ models)%list
          | Throw error =>
              log LWarn ("Model Manager: Failed to get models from " +:+ prov_name provider)
                  [("error", Exn_json error)] ;;
              getAvailableModels_loop rest allModels
          end
      | Normal false => getAvailableModels_loop rest allModels
      | Throw error =>
          log LWarn ("Model Manager: Failed to get models from " +:+ prov_name provider)
              [("error", Exn_json error)] ;;
          getAvailableModels_loop rest allModels
      end
  end.

Definition getAvailableModels : M (list IModelInfo) :=
  mm <- this "getAvailableModels" ;;
  getAvailableModels_loop (JS.values (providers mm)) [].

Definition taskModelMap : list (string * list string) :=
  [ ("conversational", ["gpt-4o"; "claude-3-5-sonnet"; "gemini-pro"; "codellama"]);
    ("instruction", ["codellama"; "starcoder"; "deepseek-coder"; "gpt-4o"]);
    ("analytical", ["claude-3-5-sonnet"; "gpt-4o"; "gemini-pro"; "codellama:13b"]);
    ("code", ["codellama"; "starcoder"; "deepseek-coder"; "gpt-4o"]);
    ("debugging", ["codellama"; "starcoder"; "gpt-4o"; "claude-3-5-sonnet"]);
    ("testing", ["codellama"; "gpt-4o"; "claude-3-5-sonnet"; "starcoder"]);
    ("general", ["codellama"; "gpt-4o"; "claude-3-5-sonnet"; "gemini-pro"]) ].

(** [taskModelMap[taskType] || taskModelMap.general], for a task type
    that is a key of the table or no property of it at all *)
Definition preferredModels (taskType : string) : list string :=
  match JS.get taskType taskModelMap with
  | Some names => names
  | None => ["codellama"; "gpt-4o"; "claude-3-5-sonnet"; "gemini-pro"]
  end.

(** The [for] loop of [selectModelByTaskType] *)
Fixpoint firstFound (names : list string) : M (option IModelInfo) :=
  match names with
  | [] => ret None
  | modelName :: rest =>
      model <- findModel modelName ;;
      match model with
      | Some m => ret (Some m)
      | None => firstFound rest
      end
  end.

(** The names that the object literal [taskModelMap] inherits from
    [Object.prototype].  Under such a name the table holds a function or an
    object, which is truthy and cannot be iterated: the [for] loop throws a
    [TypeError]. *)
Definition inheritedNames : list string :=
  [ "constructor"; "hasOwnProperty"; "isPrototypeOf"; "propertyIsEnumerable";
    "toLocaleString"; "toString"; "valueOf"; "__proto__"; "__defineGetter__";
    "__defineSetter__"; "__lookupGetter__"; "__lookupSetter__" ].

Definition selectModelByTaskType (taskType : string) : M IModelInfo :=
  if JS.includes inheritedNames taskType
  then throw (Error "preferredModels is not iterable")
  else
    found <- firstFound (preferredModels taskType) ;;
    match found with
    | Some model => ret model
    | None =>
        availableModels <- getAvailableModels ;;
        match availableModels with
        | model :: _ => ret model
        | [] => throw (Error "No models available")
        end
    end.

Definition selectModel (taskType : string) (preferredModel : option string) : M IModelInfo :=
  this "selectModel" ;;
  preferred <- match preferredModel with
               | Some (String c p) => findModel (String c p)
               | _ => ret None
               end ;;
  match preferred with
  | Some model => set_currentModel model ;; ret model
  | None =>
      model <- selectModelByTaskType taskType ;;
      set_currentModel model ;;
      ret model
  end.

(** What the other callers of the orchestrator do while a promise of
    this request is pending: their effect on the state is kept, their
    completion is their own. *)
Definition meanwhile (pending : M unit) : M unit :=
  fun s => (Normal tt, snd (pending s)).

(** [await provider.execute(request, options)].  The promise is pending
    while [pending] runs; the provider then observes whether its abort
    signal, the controller at address [signal], has been raised. *)
Definition awaitProvider (pending : M unit) (provider : IModelProvider)
    (request : IModelRequest) (signal : nat) (timeout : Z) : M IModelResponse :=
  meanwhile pending ;;
  aborted <- gets (fun s => default false (controllers s !! signal)) ;;
  settle (prov_execute provider request {| eo_aborted := aborted; eo_timeout := timeout |}).

(** The property [tokens: response.tokens] of a logged object; a response
    without a token count leaves the property undefined. *)
Definition tokensField (tokens : option Z) : list (string * json) :=
  match tokens with
  | Some n => [("tokens", JNum n)]
  | None => []
  end.

Definition execute (pending : M unit) (request : IModelRequest) (signal : nat) (timeout : Z)
  : M IModelResponse :=
  mm <- this "execute" ;;
  match JS.get (mr_provider request) (providers mm) with
  | None => throw (Error ("Provider " +:+ mr_provider request +:+ " not found"))
  | Some provider =>
      try_catch
        (log LInfo ("Model Manager: Executing request with " +:+ mr_model request
                      +:+ " on " +:+ mr_provider request) [] ;;
         response <- awaitProvider pending provider request signal timeout ;;
         log LInfo "Model Manager: Request completed"
             ([("model", JStr (mr_model request)); ("provider", JStr (mr_provider request))]
                ++ tokensField (mo_tokens response))%list ;;
         ret response)
        (fun error =>
           log LError "Model Manager: Request failed"
               [("model", JStr (mr_model request)); ("provider", JStr (mr_provider request));
                ("error", Exn_json error)] ;;
           throw error)
  end.

(** [this.currentModel?.name || 'none'] *)
Definition getCurrentModel (mm : ModelManager) : string :=
  JS.orElse (mi_name <$> currentModel mm) "none".

(** *** The providers of the source

    What a provider obtains from the network or the environment is a
    parameter: whether an API key is configured, the model names that the
    Ollama endpoint reports ([None] when the request fails; the warning that
    the provider logs then is left out) and the outcome of a chat
    request. *)

Definition HuggingFaceProvider (hasKey : bool) : IModelProvider :=
  {| prov_name := "huggingface";
     prov_type := api;
     prov_isAvailable := Normal hasKey;
     prov_listModels :=
       Normal
         [ {| mi_name := "codellama"; mi_provider := "huggingface"; mi_type := api;
              mi_capabilities := ["code"; "chat"; "instruction"];
              mi_contextLength := 16384; mi_costPerToken := Some (1 # 10000) |};
           {| mi_name := "starcoder"; mi_provider := "huggingface"; mi_type := api;
              mi_capabilities := ["code"; "completion"];
              mi_contextLength := 8192; mi_costPerToken := Some (1 # 10000) |};
           {| mi_name := "deepseek-coder"; mi_provider := "huggingface"; mi_type := api;
              mi_capabilities := ["code"; "chat"; "instruction"];
              mi_contextLength := 32768; mi_costPerToken := Some (1 # 10000) |} ];
     prov_execute := fun request _ =>
       Normal {| mo_content := "Hugging Face " +:+ mr_model request +:+ " response";
                 mo_tokens := Some 150; mo_finishReason := stop |} |}.

Definition OllamaProvider (up : bool) (tags : option (list string))
    (chat : IModelRequest -> ExecuteOptions -> Completion IModelResponse) : IModelProvider :=
  {| prov_name := "ollama";
     prov_type := local;
     prov_isAvailable := Normal up;
     prov_listModels :=
       Normal
         (List.map
            (fun name =>
               {| mi_name := name; mi_provider := "ollama"; mi_type := local;
                  mi_capabilities := ["code"; "chat"; "instruction"];
                  mi_contextLength := 4096; mi_costPerToken := Some (0 # 1) |})
            (default [] tags));
     prov_execute := chat |}.

Definition OpenAIProvider (hasKey : bool)
    (chat : IModelRequest -> ExecuteOptions -> Completion IModelResponse) : IModelProvider :=
  {| prov_name := "openai";
     prov_type := api;
     prov_isAvailable := Normal hasKey;
     prov_listModels :=
       Normal
         [ {| mi_name := "gpt-4o"; mi_provider := "openai"; mi_type := api;
              mi_capabilities := ["chat"; "code"; "instruction"; "analysis"];
              mi_contextLength := 128000; mi_costPerToken := Some (3 # 100000) |};
           {| mi_name := "gpt-4-turbo"; mi_provider := "openai"; mi_type := api;
              mi_capabilities := ["chat"; "code"; "instruction"; "analysis"];
              mi_contextLength := 128000; mi_costPerToken := Some (1 # 100000) |};
           {| mi_name := "gpt-3.5-turbo"; mi_provider := "openai"; mi_type := api;
              mi_capabilities := ["chat"; "code"; "instruction"];
              mi_contextLength := 16384; mi_costPerToken := Some (2 # 1000000) |} ];
     prov_execute := chat |}.

(** Anthropic, Google, Azure and OpenRouter are placeholders. *)
Definition PlaceholderProvider (name label : string) : IModelProvider :=
  {| prov_name := name;
     prov_type := api;
     prov_isAvailable := Normal false;
     prov_listModels := Normal [];
     prov_execute := fun _ _ => Throw (Error (label +:+ " provider not implemented")) |}.

(** The provider map that [initializeProviders] builds *)
Definition initializeProviders (hfKey ollamaUp : bool) (ollamaTags : option (list string))
    (ollamaChat : IModelRequest -> ExecuteOptions -> Completion IModelResponse)
    (openaiKey : bool)
    (openaiChat : IModelRequest -> ExecuteOptions -> Completion IModelResponse)
  : list (string * IModelProvider) :=
  JS.set "openrouter" (PlaceholderProvider "openrouter" "OpenRouter")
    (JS.set "azure" (PlaceholderProvider "azure" "Azure")
       (JS.set "google" (PlaceholderProvider "google" "Google")
          (JS.set "anthropic" (PlaceholderProvider "anthropic" "Anthropic")
             (JS.set "openai" (OpenAIProvider openaiKey openaiChat)
                (JS.set "ollama" (OllamaProvider ollamaUp ollamaTags ollamaChat)
                   (JS.set "huggingface" (HuggingFaceProvider hfKey) [])))))).

(** [setDefaultModel]: the first model that the default provider lists
    becomes the current model.  [configDefault] is the value of
    [agent.models.default] in the configuration, if it is set. *)
Definition setDefaultModel (configDefault : option string) : M unit :=
  mm <- this "setDefaultModel" ;;
  let defaultProvider := JS.orElse configDefault "huggingface" in
  try_catch
    (match JS.get defaultProvider (providers mm) with
     | Some provider =>
         models <- settle (prov_listModels provider) ;;
         match models with
         | model :: _ => set_currentModel model
         | [] => ret tt
         end
     | None => ret tt
     end)
    (fun error =>
       log LWarn "Model Manager: Failed to set default model" [("error", Exn_json error)]).

End ModelManager.

(** ** tools/tool-system.ts *)

Module ToolSystem.

Definition this (method : string) : M ToolSystem :=
  fun s =>
    match toolSystem s with
    | Some ts => (Normal ts, s)
    | None => (Throw (TypeError method), s)
    end.

(** [this.tools.set(tool.name, tool)] *)
Definition registerTool (t : ITool) (ts : ToolSystem) : ToolSystem :=
  {| tools := JS.set (tool_name t) t (tools ts) |}.

Definition capabilityMap (t : RequestType) : list string :=
  match t with
  | chat => ["chat"; "general"]
  | command => ["fileops"; "terminal"; "code"; "general"]
  | analysis => ["analysis"; "code"; "search"; "general"]
  | refactor => ["fileops"; "code"; "analysis"; "general"]
  | debug => ["debug"; "code"; "terminal"; "analysis"; "general"]
  | test => ["testing"; "code"; "terminal"; "general"]
  end.

Definition toolCapabilitiesMatchRequest (t : ITool) (request : IAgentRequest) : bool :=
  let requiredCapabilities := capabilityMap (req_type request) in
  existsb (fun cap => JS.includes requiredCapabilities cap) (tool_capabilities t).

(** The predicate of the [filter] in [getToolsForRequest] *)
Definition selected (enabledTools : list string) (request : IAgentRequest) (t : ITool) : bool :=
  if negb (JS.includes enabledTools (tool_name t)) && (0 <? length enabledTools)%nat
  then false
  else toolCapabilitiesMatchRequest t request.

Definition getToolsForRequest (request : IAgentRequest) : M (list ITool) :=
  ts <- this "getToolsForRequest" ;;
  enabledTools <- gets (fun s => default [] (cfg_toolsEnabled (world s))) ;;
  ret (List.filter (selected enabledTools request) (JS.values (tools ts))).

Definition executeTool (t : ITool) (request : IAgentRequest) : M json :=
  this "executeTool" ;;
  startTime <- Date_now ;;
  try_catch
    (log LInfo ("Tool System: Executing tool " +:+ tool_name t)
         [("requestId", JStr (req_id request))] ;;
     workingDirectory <- gets (fun s => JS.orElse (req_context request ≫= ctx_workspace)
                                                  (cwd (world s))) ;;
     let context :=
       {| tc_request := request;
          tc_workspaceRoot := req_context request ≫= ctx_workspace;
          tc_workingDirectory := workingDirectory;
          tc_timeout := 30000 |} in
     result <- settle (tool_execute t context) ;;
     now <- Date_now ;;
     let duration := now - startTime in
     log LInfo ("Tool System: Tool " +:+ tool_name t +:+ " completed")
         [("requestId", JStr (req_id request)); ("duration", JNum duration)] ;;
     ret result)
    (fun error =>
       now <- Date_now ;;
       let duration := now - startTime in
       log LError ("Tool System: Tool " +:+ tool_name t +:+ " failed")
           [("requestId", JStr (req_id request)); ("error", Exn_json error);
            ("duration", JNum duration)] ;;
       throw error).

(** *** The tools of the source

    What a tool does is outside the orchestrator: [run name context] is
    the completion of the tool called [name]. *)
Section Tools.
Variable run : string -> IToolContext -> Completion json.

Definition mkTool (name description : string) (capabilities : list string) : ITool :=
  {| tool_name := name; tool_description := description;
     tool_capabilities := capabilities; tool_execute := run name |}.

Definition sourceTools : list ITool :=
  [ mkTool "read_file" "Read the contents of a file" ["fileops"; "analysis"; "general"];
    mkTool "write_file" "Write content to a file" ["fileops"; "general"];
    mkTool "search_files" "Search for files matching a pattern" ["fileops"; "search"; "general"];
    mkTool "list_directory" "List contents of a directory" ["fileops"; "general"];
    mkTool "run_terminal_command" "Execute a terminal command" ["terminal"; "general"];
    mkTool "run_terminal_interactive" "Execute an interactive terminal command"
           ["terminal"; "general"];
    mkTool "search_code" "Search for code patterns using ripgrep" ["code"; "search"; "analysis"];
    mkTool "analyze_code" "Analyze code for issues, complexity, and improvements"
           ["code"; "analysis"];
    mkTool "analyze_project" "Analyze entire project structure and provide insights"
           ["analysis"; "code"];
    mkTool "run_tests" "Run project tests" ["testing"; "terminal"];
    mkTool "generate_tests" "Generate unit tests for code" ["testing"; "code"];
    mkTool "web_search" "Search the web for information" ["web"; "search"];
    mkTool "api_call" "Make HTTP API calls" ["web"; "api"];
    mkTool "database_query" "Execute database queries" ["database"];
    mkTool "grep_search" "Search for text patterns in files using grep" ["search"; "general"];
    mkTool "run_command" "Run arbitrary shell commands" ["terminal"; "general"] ].

(** [initializeTools] registers the tools in this order. *)
Definition initializeTools : ToolSystem :=
  fold_left (fun ts t => registerTool t ts) sourceTools {| tools := [] |}.
End Tools.

(** [Array.from(this.tools.values())] *)
Definition getAvailableTools : M (list ITool) :=
  ts <- this "getAvailableTools" ;;
  ret (JS.values (tools ts)).

End ToolSystem.

(** ** memory/memory-system.ts *)

Module MemorySystem.

Definition this (method : string) : M MemorySystem :=
  fun s =>
    match memorySystem s with
    | Some ms => (Normal ms, s)
    | None => (Throw (TypeError method), s)
    end.

Definition update (f : MemorySystem -> MemorySystem) : M unit :=
  modify (set_memorySystem (fmap f)).

Definition with_memory (f : list (string * IMemoryEntry) -> list (string * IMemoryEntry))
    (ms : MemorySystem) : MemorySystem :=
  {| memory := f (memory ms); conversations := conversations ms;
     knowledgeGraph := knowledgeGraph ms; codePatterns := codePatterns ms |}.

Definition with_conversations
    (f : gmap string IConversationContext -> gmap string IConversationContext)
    (ms : MemorySystem) : MemorySystem :=
  {| memory := memory ms; conversations := f (conversations ms);
     knowledgeGraph := knowledgeGraph ms; codePatterns := codePatterns ms |}.

Definition with_codePatterns
    (f : gmap string (list ICodePattern) -> gmap string (list ICodePattern))
    (ms : MemorySystem) : MemorySystem :=
  {| memory := memory ms; conversations := conversations ms;
     knowledgeGraph := knowledgeGraph ms; codePatterns := f (codePatterns ms) |}.

(** [conversation?.messages || []] *)
Definition getConversationHistory (requestId : string) : M (list IChatMessage) :=
  ms <- this "getConversationHistory" ;;
  ret (default [] (conv_messages <$> conversations ms !! requestId)).

(** The number of query words that occur among the content words: the
    loop of [calculateRelevance] *)
Definition countMatches (queryWords contentWords : list string) : nat :=
  fold_left
    (fun matches queryWord =>
       if JS.includes contentWords queryWord then S matches else matches)
    queryWords 0%nat.

Definition calculateRelevance (query : string) (content : json) : Q :=
  let queryWords := JS.splitW (JS.toLowerCase query) in
  let contentText := match content with
                     | JStr text => text
                     | _ => JS.stringify content
                     end in
  let contentWords := JS.splitW (JS.toLowerCase contentText) in
  let matches := countMatches queryWords contentWords in
  Z.of_nat matches # Pos.of_nat (length queryWords).

Definition searchKnowledgeGraph (graph : IKnowledgeGraph) (query : string)
  : list IKnowledgeEntry :=
  omap
    (fun node =>
       let relevance :=
         calculateRelevance query
           (JStr (node_label node +:+ " " +:+ JS.stringify (JObj (node_properties node)))) in
       if JS.gt relevance (4 # 10)
       then Some {| ke_content := "Knowledge: " +:+ node_label node +:+ " ("
                                    +:+ NodeType_name (node_type node) +:+ ")";
                    ke_relevance := relevance;
                    ke_source := "knowledge_graph";
                    ke_type := "graph_node" |}
       else None)
    (nodes graph).

(** The first loop of [searchRelevantKnowledge]: what one memory entry
    contributes to [results] *)
Definition candidate (query : string) (entry : IMemoryEntry) : option IKnowledgeEntry :=
  match entry_type entry with
  | me_knowledge | me_pattern =>
      let relevance := calculateRelevance query (entry_content entry) in
      if JS.gt relevance (3 # 10)
      then Some {| ke_content := match entry_content entry with
                                 | JStr text => text
                                 | other => JS.stringify other
                                 end;
                   ke_relevance := relevance;
                   ke_source := meta_source (entry_metadata entry);
                   ke_type := MemoryEntryType_name (entry_type entry) |}
      else None
  | _ => None
  end.

(** [results] before it is sorted: the admitted memory entries in the
    order of the map, then the admitted nodes of the graph *)
Definition candidates (ms : MemorySystem) (query : string) : list IKnowledgeEntry :=
  (omap (candidate query) (JS.values (memory ms))
     ++ searchKnowledgeGraph (knowledgeGraph ms) query)%list.

(** [results.sort((a, b) => b.relevance - a.relevance)]: the sort is
    stable, so an element goes behind the elements of greater relevance
    only. *)
Fixpoint insertByRelevance (a : IKnowledgeEntry) (sorted : list IKnowledgeEntry)
  : list IKnowledgeEntry :=
  match sorted with
  | [] => [a]
  | b :: rest =>
      if JS.gt (ke_relevance b) (ke_relevance a)
      then b :: insertByRelevance a rest
      else a :: b :: rest
  end.

Definition sortByRelevance (results : list IKnowledgeEntry) : list IKnowledgeEntry :=
  foldr insertByRelevance [] results.

Definition relevantKnowledge (ms : MemorySystem) (query : string) : list IKnowledgeEntry :=
  take 10 (sortByRelevance (candidates ms query)).

Definition searchRelevantKnowledge (query : string) : M (list IKnowledgeEntry) :=
  ms <- this "searchRelevantKnowledge" ;;
  ret (relevantKnowledge ms query).

Definition extractTags (text : string) : list string :=
  let words := JS.splitW (JS.toLowerCase text) in
  let keywords := ["function"; "class"; "import"; "export"; "async"; "await"; "try";
                   "catch"; "if"; "for"; "while"] in
  JS.unique (List.filter (JS.includes keywords) words).

Definition fence : string := "```".

(** The matches of [/```(\w+)?\n?([\s\S]*?)```/g], left to right: after an
    opening fence the longest word is the language, one line break is
    skipped and the code runs up to the next fence.  Without a closing
    fence there is no further match.  A match takes at least its two fences
    from the text, so the length of the text is fuel enough. *)
Fixpoint extractCodeBlocks_from (fuel : nat) (content : string)
  : list (string * option string) :=
  match fuel with
  | O => []
  | S fuel' =>
      match JS.cut fence content with
      | None => []
      | Some (_, opened) =>
          let '(word, afterWord) := JS.spanW opened in
          let body := match afterWord with
                      | String c rest => if Ascii.eqb c (ascii_of_nat 10) then rest else afterWord
                      | EmptyString => afterWord
                      end in
          match JS.cut fence body with
          | None => []
          | Some (code, rest) =>
              (JS.trim code, match word with EmptyString => None | _ => Some word end)
                :: extractCodeBlocks_from fuel' rest
          end
      end
  end.

Definition extractCodeBlocks (content : string) : list (string * option string) :=
  extractCodeBlocks_from (String.length content) content.

Definition generatePatternDescription (code language : string) : string :=
  if JS.str_includes code "function" || JS.str_includes code "def "
  then "Function definition pattern"
  else if JS.str_includes code "class "
  then "Class definition pattern"
  else if JS.str_includes code "import " || JS.str_includes code "from "
  then "Import statement pattern"
  else "Code snippet pattern".

(** The loop of [extractCodePatterns] *)
Fixpoint pushPatterns (language : string) (codeBlocks : list (string * option string))
    (patterns : list ICodePattern) : M (list ICodePattern) :=
  match codeBlocks with
  | [] => ret patterns
  | (code, _) :: rest =>
      now <- Date_now ;;
      r <- Math_random ;;
      lastUsed <- Date_now ;;
      let pattern :=
        {| pat_id := "pattern_" +:+ JS.ofZ now +:+ "_" +:+ r;
           pat_pattern := code;
           pat_description := generatePatternDescription code language;
           pat_examples := [code];
           pat_confidence := 7 # 10;
           pat_lastUsed := lastUsed |} in
      pushPatterns language rest (patterns ++ [pattern])%list
  end.

Definition extractCodePatterns (request : IAgentRequest) (responseContent : string) : M unit :=
  match req_context request ≫= ctx_language with
  | Some (String c l) =>
      let language := String c l in
      let codeBlocks := extractCodeBlocks responseContent in
      ms <- this "extractCodePatterns" ;;
      patterns <- pushPatterns language codeBlocks
                    (default [] (codePatterns ms !! language)) ;;
      update (with_codePatterns <[language := patterns]>)
  | _ => ret tt
  end.

(** [request.context] as [JSON.stringify] sees it *)
Definition contextJson (c : RequestContext) : json :=
  JObj (omap (fun kv => match snd kv with
                        | Some v => Some (fst kv, JStr v)
                        | None => None
                        end)
             [("filePath", ctx_filePath c); ("selection", ctx_selection c);
              ("workspace", ctx_workspace c); ("language", ctx_language c)]).

Definition extractKnowledge (request : IAgentRequest) (responseContent : string) : M unit :=
  (if JS.truthy (req_context request ≫= ctx_language)
      && JS.str_includes responseContent fence
   then extractCodePatterns request responseContent
   else ret tt) ;;
  now <- Date_now ;;
  r <- Math_random ;;
  timestamp <- Date_now ;;
  let knowledgeEntry :=
    {| entry_id := "knowledge_" +:+ JS.ofZ now +:+ "_" +:+ r;
       entry_type := me_knowledge;
       entry_content :=
         JObj ([("request", JStr (req_content request)); ("response", JStr responseContent)]
                 ++ match req_context request with
                    | Some c => [("context", contextJson c)]
                    | None => []
                    end)%list;
       entry_metadata :=
         {| meta_timestamp := timestamp;
            meta_source := "conversation";
            meta_relevance := 8 # 10;
            meta_tags := extractTags (req_content request +:+ " " +:+ responseContent) |} |} in
  update (with_memory (JS.set (entry_id knowledgeEntry) knowledgeEntry)).

Definition updateConversationSummary (conversationId : string) : M unit :=
  ms <- this "updateConversationSummary" ;;
  match conversations ms !! conversationId with
  | None => ret tt
  | Some conversation =>
      let messages := conv_messages conversation in
      let keywords := ["function"; "class"; "error"; "bug"; "fix"; "test"; "api"; "database"] in
      let topics :=
        JS.unique
          (List.concat
             (List.map
                (fun message =>
                   List.filter (JS.includes keywords)
                               (JS.splitW (JS.toLowerCase (msg_content message))))
                messages)) in
      update (with_conversations
                <[conversationId :=
                    {| conv_messages := messages;
                       conv_summary := "Conversation with "
                                         +:+ JS.ofZ (Z.of_nat (length messages))
                                         +:+ " messages covering: "
                                         +:+ String.concat ", " topics;
                       conv_keyTopics := topics;
                       conv_lastActivity := conv_lastActivity conversation |}]>)
  end.

(** [config?.path || '.vscode/agent-memory.json'] *)
Definition getMemoryFilePath : M string :=
  gets (fun s => JS.orElse (cfg_memoryPath (world s)) ".vscode/agent-memory.json").

(** The file that [persistMemory] writes holds the four stores; it is
    kept as the stores themselves rather than as their JSON text. *)
Definition persistMemory : M unit :=
  try_catch
    (ms <- this "persistMemory" ;;
     path <- getMemoryFilePath ;;
     written <- gets (fun s => fs_writeFile (world s)) ;;
     settle written ;;
     modify (set_files <[path := ms]>))
    (fun error => log LError "Memory System: Failed to persist memory" [("error", Exn_json error)]).

(** Of [response] only [response.content] is read. *)
Definition storeInteraction (request : IAgentRequest) (responseContent : string) : M unit :=
  this "storeInteraction" ;;
  try_catch
    (let conversationId := req_id request in
     ms <- this "storeInteraction" ;;
     conversation <- match conversations ms !! conversationId with
                     | Some c => ret c
                     | None =>
                         now <- Date_now ;;
                         ret {| conv_messages := []; conv_summary := "";
                                conv_keyTopics := []; conv_lastActivity := now |}
                     end ;;
     userTime <- Date_now ;;
     assistantTime <- Date_now ;;
     lastActivity <- Date_now ;;
     update (with_conversations
               <[conversationId :=
                   {| conv_messages :=
                        (conv_messages conversation
                           ++ [ {| msg_role := user; msg_content := req_content request;
                                   msg_timestamp := userTime |};
                                {| msg_role := assistant; msg_content := responseContent;
                                   msg_timestamp := assistantTime |} ])%list;
                      conv_summary := conv_summary conversation;
                      conv_keyTopics := conv_keyTopics conversation;
                      conv_lastActivity := lastActivity |}]>) ;;
     extractKnowledge request responseContent ;;
     updateConversationSummary conversationId ;;
     persistMemory ;;
     log LDebug "Memory System: Interaction stored" [("requestId", JStr (req_id request))])
    (fun error =>
       log LError "Memory System: Failed to store interaction" [("error", Exn_json error)]).

Definition with_knowledgeGraph (f : IKnowledgeGraph -> IKnowledgeGraph)
    (ms : MemorySystem) : MemorySystem :=
  {| memory := memory ms; conversations := conversations ms;
     knowledgeGraph := f (knowledgeGraph ms); codePatterns := codePatterns ms |}.

Definition emptyGraph : IKnowledgeGraph := {| nodes := []; edges := [] |}.

(** [getCodePatterns(language)].  Without a language (none, or the empty
    string) the lists of all languages are put together; they come in the
    order of the keys of the [gmap], where the source goes through the [Map]
    in insertion order, so only what does not depend on that order is stated
    of this case. *)
Definition getCodePatterns (language : option string) : M (list ICodePattern) :=
  ms <- this "getCodePatterns" ;;
  match language with
  | Some (String c l) => ret (default [] (codePatterns ms !! String c l))
  | _ => ret (List.concat (snd <$> map_to_list (codePatterns ms)))
  end.

(** [type === name] for the optional argument of [clearMemory] *)
Definition typeIs (type : option string) (name : string) : bool :=
  match type with
  | Some t => String.eqb t name
  | None => false
  end.

Definition isKnowledge (entry : IMemoryEntry) : bool :=
  match entry_type entry with
  | me_knowledge => true
  | _ => false
  end.

Definition clearMemory (type : option string) : M unit :=
  this "clearMemory" ;;
  (if typeIs type "conversations"
   then update (with_conversations (fun _ => ∅))
   else if typeIs type "knowledge"
   then update (with_memory (List.filter (fun kv => negb (isKnowledge (snd kv)))))
   else if typeIs type "patterns"
   then update (with_codePatterns (fun _ => ∅))
   else if typeIs type "graph"
   then update (with_knowledgeGraph (fun _ => emptyGraph))
   else update (fun _ => {| memory := []; conversations := ∅;
                            knowledgeGraph := emptyGraph; codePatterns := ∅ |})) ;;
  persistMemory ;;
  log LInfo "Memory System: Memory cleared" [("type", JStr (JS.orElse type "all"))].

(** *** The knowledge graph of a project *)

(** An element of [IProjectAnalysis.files] *)
Record IProjectFile : Type := {
  pf_path : string;
  pf_type : string
}.

Record IProjectAnalysis : Type := {
  pa_path : string;
  pa_files : list IProjectFile;
  pa_dependencies : list (string * string);
  pa_languages : list string
}.

Definition analyzeProjectStructure (projectPath : string) : M IProjectAnalysis :=
  ret {| pa_path := projectPath; pa_files := []; pa_dependencies := []; pa_languages := [] |}.

(** [a === b] on the values of a property of two nodes ([None] is
    [undefined]).  An array or an object held by one node is not the object
    held by another one. *)
Definition strictEquals (a b : option json) : bool :=
  match a, b with
  | None, None => true
  | Some JNull, Some JNull => true
  | Some (JBool x), Some (JBool y) => Bool.eqb x y
  | Some (JNum x), Some (JNum y) => Z.eqb x y
  | Some (JStr x), Some (JStr y) => String.eqb x y
  | _, _ => false
  end.

(** [entity1.properties.file === entity2.properties.file] *)
Definition sameFile (entity1 entity2 : IKnowledgeNode) : bool :=
  strictEquals (JS.get "file" (node_properties entity1))
               (JS.get "file" (node_properties entity2)).

(** The edge that [buildRelationships] pushes; its type is ['related'],
    which [IKnowledgeEdge] does not record. *)
Definition relatedEdge (entity1 entity2 : IKnowledgeNode) : IKnowledgeEdge :=
  {| edge_source := node_id entity1; edge_target := node_id entity2; edge_weight := 5 # 10 |}.

(** The inner loop of [buildRelationships], over the entities after
    [entity1] *)
Fixpoint relateTo (entity1 : IKnowledgeNode) (later : list IKnowledgeNode)
  : list IKnowledgeEdge :=
  match later with
  | [] => []
  | entity2 :: rest =>
      if sameFile entity1 entity2
      then relatedEdge entity1 entity2 :: relateTo entity1 rest
      else relateTo entity1 rest
  end.

(** The outer loop *)
Fixpoint relateAll (entities : list IKnowledgeNode) : list IKnowledgeEdge :=
  match entities with
  | [] => []
  | entity1 :: later => (relateTo entity1 later ++ relateAll later)%list
  end.

Definition buildRelationships (entities : list IKnowledgeNode) : M (list IKnowledgeEdge) :=
  ret (relateAll entities).

(** [extractEntitiesFromFile] reads a file of the project; what it finds
    there is a parameter. *)
Section Entities.
Variable extractEntitiesFromFile : string -> M (list IKnowledgeNode).

(** The loop of [extractCodeEntities] *)
Fixpoint extractCodeEntities_loop (files : list IProjectFile) (entities : list IKnowledgeNode)
  : M (list IKnowledgeNode) :=
  match files with
  | [] => ret entities
  | file :: rest =>
      if String.eqb (pf_type file) "code"
      then fileEntities <- extractEntitiesFromFile (pf_path file) ;;
           extractCodeEntities_loop rest (entities ++ fileEntities)%list
      else extractCodeEntities_loop rest entities
  end.

Definition extractCodeEntities (analysis : IProjectAnalysis) : M (list IKnowledgeNode) :=
  extractCodeEntities_loop (pa_files analysis) [].

Definition buildKnowledgeGraph (projectPath : string) : M IKnowledgeGraph :=
  this "buildKnowledgeGraph" ;;
  try_catch
    (log LInfo "Memory System: Building knowledge graph" [("projectPath", JStr projectPath)] ;;
     projectAnalysis <- analyzeProjectStructure projectPath ;;
     entities <- extractCodeEntities projectAnalysis ;;
     relationships <- buildRelationships entities ;;
     update (with_knowledgeGraph (fun _ => {| nodes := entities; edges := relationships |})) ;;
     log LInfo "Memory System: Knowledge graph built"
         [("nodes", JNum (Z.of_nat (length entities)));
          ("edges", JNum (Z.of_nat (length relationships)))] ;;
     ms <- this "buildKnowledgeGraph" ;;
     ret (knowledgeGraph ms))
    (fun error =>
       log LError "Memory System: Failed to build knowledge graph" [("error", Exn_json error)] ;;
       ret emptyGraph).
End Entities.

End MemorySystem.

(** ** agent-orchestrator.ts *)

Record IAgentContext : Type := {
  ac_conversation : list IChatMessage;
  ac_workspace : option string;
  ac_file : option string;
  ac_selection : option string;
  ac_language : option string;
  ac_relevantKnowledge : list IKnowledgeEntry
}.

Record IEnhancedResponse : Type := {
  er_content : string;
  er_tokens : option Z;
  er_confidence : Q
}.

(** [IAgentStatus] without [availableModels] and [memoryUsage], which no
    property below reads.  The order of [st_activeRequests] is that of the
    keys of a [gmap], not the insertion order of the [Map]. *)
Record IAgentStatus : Type := {
  st_isActive : bool;
  st_activeRequests : list string;
  st_currentModel : string
}.

Module AgentOrchestrator.

(** [new AbortController()]: a fresh object, not aborted *)
Definition new_AbortController : M nat :=
  fun s => (Normal (length (controllers s)), set_controllers (fun l => l ++ [false])%list s).

(** [controller.abort()] *)
Definition abort (controller : nat) : M unit :=
  modify (set_controllers <[controller := true]>).

Definition selectModel (request : IAgentRequest) : M IModelInfo :=
  let preferred := req_options request ≫= opt_model in
  match req_type request with
  | chat => ModelManager.selectModel "conversational" preferred
  | command => ModelManager.selectModel "instruction" preferred
  | analysis => ModelManager.selectModel "analytical" preferred
  | refactor => ModelManager.selectModel "code" preferred
  | debug => ModelManager.selectModel "debugging" preferred
  | test => ModelManager.selectModel "testing" preferred
  end.

Definition gatherContext (request : IAgentRequest) : M IAgentContext :=
  conversation <- MemorySystem.getConversationHistory (req_id request) ;;
  relevantKnowledge <- MemorySystem.searchRelevantKnowledge (req_content request) ;;
  ret {| ac_conversation := conversation;
         ac_workspace := req_context request ≫= ctx_workspace;
         ac_file := req_context request ≫= ctx_filePath;
         ac_selection := req_context request ≫= ctx_selection;
         ac_language := req_context request ≫= ctx_language;
         ac_relevantKnowledge := relevantKnowledge |}.

Definition generateSystemPrompt (type : RequestType) (context : IAgentContext) : string :=
  let basePrompt :=
    "You are an expert AI coding assistant integrated into VSCode." +:+ JS.newline
      +:+ "You have access to powerful tools and can help with various coding tasks." in
  let typeSpecificPrompt :=
    match type with
    | chat => "You are having a conversation about coding. Be helpful and engaging."
    | command => "Execute the requested coding task using available tools."
    | analysis => "Analyze the provided code and provide insights."
    | refactor => "Refactor the code to improve quality, maintainability, and performance."
    | debug => "Debug the issue and provide solutions."
    | test => "Generate or improve tests for the codebase."
    end in
  basePrompt +:+ JS.newline +:+ JS.newline +:+ typeSpecificPrompt.

Definition getTemperatureForRequestType (type : RequestType) : Q :=
  match type with
  | chat => 7 # 10
  | command => 3 # 10
  | analysis => 2 # 10
  | refactor => 3 # 10
  | debug => 2 # 10
  | test => 3 # 10
  end.

Definition getMaxTokensForRequestType (type : RequestType) : Z :=
  match type with
  | chat => 2048
  | command => 4096
  | analysis => 8192
  | refactor => 8192
  | debug => 4096
  | test => 4096
  end.

Definition prepareModelRequest (request : IAgentRequest) (context : IAgentContext)
    (model : IModelInfo) : M IModelRequest :=
  let systemPrompt := generateSystemPrompt (req_type request) context in
  ret {| mr_messages :=
           ({| mm_role := system; mm_content := systemPrompt |}
              :: List.map (fun c => {| mm_role := msg_role c; mm_content := msg_content c |})
                          (ac_conversation context)
              ++ [ {| mm_role := user; mm_content := req_content request |} ])%list;
         mr_model := mi_name model;
         mr_provider := mi_provider model;
         mr_temperature := getTemperatureForRequestType (req_type request);
         mr_maxTokens := getMaxTokensForRequestType (req_type request) |}.

(** The [for] loop of [executeTools] *)
Fixpoint executeTools_loop (tools : list ITool) (request : IAgentRequest)
    (results : list IAgentToolResult) : M (list IAgentToolResult) :=
  match tools with
  | [] => ret results
  | t :: rest =>
      entry <- try_catch
                 (startTime <- Date_now ;;
                  result <- ToolSystem.executeTool t request ;;
                  now <- Date_now ;;
                  let duration := now - startTime in
                  ret {| tr_name := tool_name t; tr_result := result;
                         tr_error := None; tr_duration := duration |})
                 (fun error =>
                    ret {| tr_name := tool_name t; tr_result := JNull;
                           tr_error := Some (messageOr error "Tool execution failed");
                           tr_duration := 0 |}) ;;
      executeTools_loop rest request (results ++ [entry])%list
  end.

Definition executeTools (request : IAgentRequest) : M (list IAgentToolResult) :=
  tools <- ToolSystem.getToolsForRequest request ;;
  match tools with
  | [] => ret []
  | _ => executeTools_loop tools request []
  end.

Definition enhanceResponse (modelResponse : IModelResponse)
    (toolResults : list IAgentToolResult) (context : IAgentContext) : M IEnhancedResponse :=
  let enhancedContent :=
    match toolResults with
    | [] => mo_content modelResponse
    | _ =>
        fold_left
          (fun enhancedContent t =>
             enhancedContent +:+ "**" +:+ tr_name t +:+ "**: "
               +:+ JS.orElse (tr_error t) (JS.stringify (tr_result t)) +:+ JS.newline)
          toolResults
          (mo_content modelResponse +:+ JS.newline +:+ JS.newline +:+ "Tool Results:"
             +:+ JS.newline)
    end in
  ret {| er_content := enhancedContent;
         er_tokens := mo_tokens modelResponse;
         er_confidence := 8 # 10 |}.

(** [request.options?.timeout || 30000] *)
Definition effectiveTimeout (request : IAgentRequest) : Z :=
  match req_options request ≫= opt_timeout with
  | Some t => if t =? 0 then 30000 else t
  | None => 30000
  end.

(** [enhancedResponse.tokens || 0] *)
Definition tokensOrZero (tokens : option Z) : Z := default 0 tokens.

(** The three blocks of [execute].  [pending] is what the other callers
    of the orchestrator do while the model call of this request is
    awaited. *)

(** [try { ... }] *)
Definition execute_try (pending : M unit) (request : IAgentRequest)
    (startTime : Z) (abortController : nat) : M IAgentResponse :=
  fire (DidStartRequest request) ;;
  log LInfo ("Agent Orchestrator: Starting request " +:+ req_id request)
      [("type", JStr (RequestType_name (req_type request)))] ;;
  model <- selectModel request ;;
  context <- gatherContext request ;;
  modelRequest <- prepareModelRequest request context model ;;
  toolResults <- executeTools request ;;
  modelResponse <- ModelManager.execute pending modelRequest abortController
                     (effectiveTimeout request) ;;
  enhancedResponse <- enhanceResponse modelResponse toolResults context ;;
  MemorySystem.storeInteraction request (er_content enhancedResponse) ;;
  now <- Date_now ;;
  let response :=
    {| resp_id := req_id request +:+ "_response";
       resp_requestId := req_id request;
       resp_content := er_content enhancedResponse;
       resp_tools := Some toolResults;
       resp_error := None;
       resp_metadata :=
         Some {| md_model := mi_name model;
                 md_provider := mi_provider model;
                 md_tokens := tokensOrZero (er_tokens enhancedResponse);
                 md_duration := now - startTime |} |} in
  fire (DidReceiveResponse response) ;;
  log LInfo ("Agent Orchestrator: Completed request " +:+ req_id request)
      [("duration", JNum (now - startTime));
       ("tokens", JNum (tokensOrZero (er_tokens enhancedResponse)))] ;;
  ret response.

(** [catch (error) { ... }] *)
Definition execute_catch (request : IAgentRequest) (error : Exn) : M IAgentResponse :=
  let errorResponse :=
    {| resp_id := req_id request +:+ "_error";
       resp_requestId := req_id request;
       resp_content := "";
       resp_tools := None;
       resp_error := Some (messageOr error "Unknown error occurred");
       resp_metadata := None |} in
  log LError ("Agent Orchestrator: Request " +:+ req_id request +:+ " failed")
      [("error", Exn_json error)] ;;
  ret errorResponse.

(** [finally { ... }] *)
Definition execute_finally (request : IAgentRequest) : M unit :=
  modify (set_activeRequests (delete (req_id request))) ;;
  fire (DidEndRequest (req_id request)).

Definition execute (pending : M unit) (request : IAgentRequest) : M IAgentResponse :=
  startTime <- Date_now ;;
  abortController <- new_AbortController ;;
  modify (set_activeRequests <[req_id request := abortController]>) ;;
  try_finally
    (try_catch (execute_try pending request startTime abortController)
               (execute_catch request))
    (execute_finally request).

Definition cancel (requestId : string) : M unit :=
  controller <- gets (fun s => activeRequests s !! requestId) ;;
  match controller with
  | Some c =>
      abort c ;;
      modify (set_activeRequests (delete requestId)) ;;
      log LInfo ("Agent Orchestrator: Cancelled request " +:+ requestId) []
  | None => ret tt
  end.

Definition getStatus (s : State) : IAgentStatus :=
  {| st_isActive := bool_decide (0 < size (activeRequests s))%nat;
     st_activeRequests := elements (dom (activeRequests s));
     st_currentModel := match modelManager s with
                        | Some mm => ModelManager.getCurrentModel mm
                        | None => "none"
                        end |}.

(** Calls of [cancel] made one after the other *)
Fixpoint cancels (requestIds : list string) : M unit :=
  match requestIds with
  | [] => ret tt
  | requestId :: rest => cancel requestId ;; cancels rest
  end.

End AgentOrchestrator.

(** ** Sample worlds

    Concrete providers, tools, stores and requests on which the
    definitions above are run. *)

Definition sampleWorld : World :=
  {| clock := fun n => 1000 + 5 * Z.of_nat n;
     random := fun n => "0." +:+ JS.ofZ (Z.of_nat n);
     cwd := "/home/dev/project";
     cfg_toolsEnabled := None;
     cfg_memoryPath := None;
     fs_writeFile := Normal tt |}.

(** A chat endpoint that answers unless its abort signal is raised, as
    [fetch] does. *)
Definition chatAnswers : IModelRequest -> ExecuteOptions -> Completion IModelResponse :=
  fun _ options =>
    if eo_aborted options
    then Throw (Error "This operation was aborted")
    else Normal {| mo_content := "Here is the answer."; mo_tokens := Some 42;
                   mo_finishReason := stop |}.

(** A chat endpoint that is down. *)
Definition chatFails : IModelRequest -> ExecuteOptions -> Completion IModelResponse :=
  fun _ _ => Throw (Error "OpenAI API error: Service Unavailable").

Definition sampleModels (openaiChat : IModelRequest -> ExecuteOptions -> Completion IModelResponse)
  : ModelManager :=
  {| providers := ModelManager.initializeProviders true false None chatAnswers true openaiChat;
     currentModel := None |}.

(** Tools called with the empty argument object: reading a file fails for
    want of a path, the others answer. *)
Definition sampleRun (name : string) (_ : IToolContext) : Completion json :=
  if String.eqb name "read_file"
  then Throw (Error "The path argument must be of type string")
  else Normal (JObj [("success", JBool true)]).

Definition databaseNote : string := "I got a database connection error today".

Definition sampleEntry : IMemoryEntry :=
  {| entry_id := "note_1";
     entry_type := me_knowledge;
     entry_content := JStr databaseNote;
     entry_metadata := {| meta_timestamp := 900; meta_source := "notes";
                          meta_relevance := 8 # 10; meta_tags := [] |} |}.

Definition sampleMemory : MemorySystem :=
  {| memory := [("note_1", sampleEntry)];
     conversations := ∅;
     knowledgeGraph := {| nodes := []; edges := [] |};
     codePatterns := ∅ |}.

Definition sampleState (openaiChat : IModelRequest -> ExecuteOptions -> Completion IModelResponse)
  : State :=
  {| world := sampleWorld;
     activeRequests := ∅;
     modelManager := Some (sampleModels openaiChat);
     toolSystem := Some (ToolSystem.initializeTools sampleRun);
     memorySystem := Some sampleMemory;
     controllers := [];
     events := [];
     logs := [];
     ticks := 0;
     draws := 0;
     files := ∅ |}.

Definition sampleOptions : RequestOptions :=
  {| opt_model := Some "gpt-4o"; opt_provider := None; opt_streaming := None;
     opt_timeout := None |}.

Definition sampleRequest : IAgentRequest :=
  {| req_id := "r1"; req_type := command; req_content := "fix the database error";
     req_context := None; req_options := Some sampleOptions |}.

(** A provider of a local runtime that lists the given model names *)
Definition localProvider (available : bool) (names : list string) : IModelProvider :=
  {| prov_name := "local";
     prov_type := local;
     prov_isAvailable := Normal available;
     prov_listModels :=
       Normal (List.map (fun name =>
                           {| mi_name := name; mi_provider := "local"; mi_type := local;
                              mi_capabilities := ["debug"; "code"];
                              mi_contextLength := 4096; mi_costPerToken := None |}) names);
     prov_execute := chatAnswers |}.

(** The state in which a request with id [r1] is in flight: its handle,
    the controller at address 0, is registered and the request is waiting
    for its model. *)
Definition inFlightState : State :=
  {| world := sampleWorld;
     activeRequests := {[ "r1" := 0%nat ]};
     modelManager := Some (sampleModels chatAnswers);
     toolSystem := Some (ToolSystem.initializeTools sampleRun);
     memorySystem := Some sampleMemory;
     controllers := [false];
     events := [DidStartRequest sampleRequest];
     logs := [];
     ticks := 1;
     draws := 0;
     files := ∅ |}.

(** The state in which the [try] block of [execute] starts: a clock
    reading is taken, a fresh controller is allocated and registered under
    the id of the request. *)
Definition entered (request : IAgentRequest) (s : State) : State :=
  set_activeRequests <[req_id request := length (controllers s)]>
    (set_controllers (fun l => l ++ [false])%list (set_ticks S s)).

(** ** Frames

    A computation [respects] a relation between states when every run of
    it moves the state along the relation.  [stable s s'] tells that going
    from [s] to [s'] left alone the world, the events fired, the memory
    system, the files, the tool system and the providers of the model
    manager; a computation is [quiet] when it only makes such moves: it may
    log, read the clock, abort controllers, change the in-flight map and
    choose the current model.  [same_events s s'] tells that no event was
    fired on the way; a computation that respects it is [silent]. *)
Definition respects {A : Type} (R : State -> State -> Prop) (m : M A) : Prop :=
  forall s, R s (snd (m s)).

Definition stable (s s' : State) : Prop :=
  world s' = world s
  /\ events s' = events s
  /\ memorySystem s' = memorySystem s
  /\ files s' = files s
  /\ toolSystem s' = toolSystem s
  /\ providers <$> modelManager s' = providers <$> modelManager s.

Definition same_events (s s' : State) : Prop := events s' = events s.

Abbreviation quiet := (respects stable).
Abbreviation silent := (respects same_events).

(** ** The selection policy in the words of the specification *)

(** The first model, in the order of the providers and of their listings,
    whose name is [modelName] or contains it; a provider whose listing
    fails is skipped. *)
Fixpoint listed (ps : list IModelProvider) (modelName : string) : option IModelInfo :=
  match ps with
  | [] => None
  | provider :: rest =>
      match prov_listModels provider with
      | Normal models =>
          match List.find (ModelManager.nameMatches modelName) models with
          | Some model => Some model
          | None => listed rest modelName
          end
      | Throw _ => listed rest modelName
      end
  end.

(** The first name of the table, in order, that is found in a listing *)
Fixpoint tableChoice (ps : list IModelProvider) (names : list string) : option IModelInfo :=
  match names with
  | [] => None
  | modelName :: rest =>
      match listed ps modelName with
      | Some model => Some model
      | None => tableChoice ps rest
      end
  end.

(** The union of the listings of the providers that are available *)
Fixpoint availableUnion (ps : list IModelProvider) : list IModelInfo :=
  match ps with
  | [] => []
  | provider :: rest =>
      match prov_isAvailable provider, prov_listModels provider with
      | Normal true, Normal models => (models ++ availableUnion rest)%list
      | _, _ => availableUnion rest
      end
  end.

(** The policy for a request without a usable preference *)
Definition defaultPolicy (ps : list IModelProvider) (taskType : string) : Completion IModelInfo :=
  match tableChoice ps (ModelManager.preferredModels taskType) with
  | Some model => Normal model
  | None =>
      match availableUnion ps with
      | model :: _ => Normal model
      | [] => Throw (Error "No models available")
      end
  end.

(** The whole policy: a preferred name that is not empty and is listed
    wins, otherwise the default policy decides (a task type that names an
    inherited property of the table makes selection throw). *)
Definition selectionPolicy (ps : list IModelProvider) (taskType : string)
    (preferredModel : option string) : Completion IModelInfo :=
  match (match preferredModel with
         | Some (String c p) => listed ps (String c p)
         | _ => None
         end) with
  | Some model => Normal model
  | None =>
      if JS.includes ModelManager.inheritedNames taskType
      then Throw (Error "preferredModels is not iterable")
      else defaultPolicy ps taskType
  end.

(** The task type that [AgentOrchestrator.selectModel] passes for each
    kind of request *)
Definition taskTypeOf (type : RequestType) : string :=
  match type with
  | chat => "conversational"
  | command => "instruction"
  | analysis => "analytical"
  | refactor => "code"
  | debug => "debugging"
  | test => "testing"
  end.

(** The descriptor of [gpt-4o] in the listing of the OpenAI provider *)
Definition gpt4o : IModelInfo :=
  {| mi_name := "gpt-4o"; mi_provider := "openai"; mi_type := api;
     mi_capabilities := ["chat"; "code"; "instruction"; "analysis"];
     mi_contextLength := 128000; mi_costPerToken := Some (3 # 100000) |}.

(** ** The course of [execute]

    The [try] block of [execute] in two parts, and the states and the
    responses that it goes through. *)

Definition ModelAnswer : Type :=
  (IModelInfo * IAgentContext * list IAgentToolResult * IModelResponse)%type.

(** Steps 3 to 7: from model selection to the answer of the model *)
Definition obtainModelAnswer (pending : M unit) (request : IAgentRequest)
    (abortController : nat) : M ModelAnswer :=
  model <- AgentOrchestrator.selectModel request ;;
  context <- AgentOrchestrator.gatherContext request ;;
  modelRequest <- AgentOrchestrator.prepareModelRequest request context model ;;
  toolResults <- AgentOrchestrator.executeTools request ;;
  modelResponse <- ModelManager.execute pending modelRequest abortController
                     (AgentOrchestrator.effectiveTimeout request) ;;
  ret (model, context, toolResults, modelResponse).

(** Step 8: from the answer of the model to the response *)
Definition deliver (request : IAgentRequest) (startTime : Z) (answer : ModelAnswer)
  : M IAgentResponse :=
  let '(model, context, toolResults, modelResponse) := answer in
  enhancedResponse <- AgentOrchestrator.enhanceResponse modelResponse toolResults context ;;
  MemorySystem.storeInteraction request (er_content enhancedResponse) ;;
  now <- Date_now ;;
  let response :=
    {| resp_id := req_id request +:+ "_response";
       resp_requestId := req_id request;
       resp_content := er_content enhancedResponse;
       resp_tools := Some toolResults;
       resp_error := None;
       resp_metadata :=
         Some {| md_model := mi_name model;
                 md_provider := mi_provider model;
                 md_tokens := AgentOrchestrator.tokensOrZero (er_tokens enhancedResponse);
                 md_duration := now - startTime |} |} in
  fire (DidReceiveResponse response) ;;
  log LInfo ("Agent Orchestrator: Completed request " +:+ req_id request)
      [("duration", JNum (now - startTime));
       ("tokens", JNum (AgentOrchestrator.tokensOrZero (er_tokens enhancedResponse)))] ;;
  ret response.

(** The state in which step 3 starts: the request is registered, the
    event [DidStartRequest] is fired and the start is logged. *)
Definition started (request : IAgentRequest) (s : State) : State :=
  set_logs (fun l => l ++ [{| log_level := LInfo;
                              log_message := "Agent Orchestrator: Starting request "
                                               +:+ req_id request;
                              log_data := [("type", JStr (RequestType_name (req_type request)))]
                           |}])%list
    (set_events (fun l => l ++ [DidStartRequest request])%list (entered request s)).

(** The response that the [catch] block builds *)
Definition errorResponse (request : IAgentRequest) (error : Exn) : IAgentResponse :=
  {| resp_id := req_id request +:+ "_error";
     resp_requestId := req_id request;
     resp_content := "";
     resp_tools := None;
     resp_error := Some (messageOr error "Unknown error occurred");
     resp_metadata := None |}.

(** The state after the [catch] block *)
Definition caught (request : IAgentRequest) (error : Exn) (s : State) : State :=
  set_logs (fun l => l ++ [{| log_level := LError;
                              log_message := "Agent Orchestrator: Request "
                                               +:+ req_id request +:+ " failed";
                              log_data := [("error", Exn_json error)] |}])%list s.

(** The state after the [finally] block *)
Definition finished (request : IAgentRequest) (s : State) : State :=
  set_events (fun l => l ++ [DidEndRequest (req_id request)])%list
    (set_activeRequests (delete (req_id request)) s).

(** The context that [executeTool] hands to a tool *)
Definition toolContext (request : IAgentRequest) (w : World) : IToolContext :=
  {| tc_request := request;
     tc_workspaceRoot := req_context request ≫= ctx_workspace;
     tc_workingDirectory := JS.orElse (req_context request ≫= ctx_workspace) (cwd w);
     tc_timeout := 30000 |}.

(** A tool result records the run of a tool: the value returned, or the
    failure with no result. *)
Definition recorded (request : IAgentRequest) (w : World) (t : ITool) (r : IAgentToolResult)
  : Prop :=
  tr_name r = tool_name t
  /\ match tool_execute t (toolContext request w) with
     | Normal v => tr_result r = v /\ tr_error r = None
     | Throw error =>
         tr_result r = JNull
         /\ tr_error r = Some (messageOr error "Tool execution failed")
         /\ tr_duration r = 0
     end.

(** The log entry that [executeTool] writes when a tool fails *)
Definition failureLog (request : IAgentRequest) (t : ITool) (error : Exn) (duration : Z)
  : LogEntry :=
  {| log_level := LError;
     log_message := "Tool System: Tool " +:+ tool_name t +:+ " failed";
     log_data := [("requestId", JStr (req_id request)); ("error", Exn_json error);
                  ("duration", JNum duration)] |}.

(** The clock readings that the dispatch of one tool takes.
    [executeTools] reads the clock before the call and, when the tool
    returns, after it; [executeTool] reads it before the call and after it,
    whether the tool returns or fails. *)
Definition readings (request : IAgentRequest) (w : World) (t : ITool) : nat :=
  match tool_execute t (toolContext request w) with
  | Normal _ => 4
  | Throw _ => 3
  end.

Fixpoint readingsOf (request : IAgentRequest) (w : World) (ts : list ITool) : nat :=
  match ts with
  | [] => 0
  | t :: rest => readings request w t + readingsOf request w rest
  end.

(** The time that [executeTool] measures for a call whose dispatch starts
    at the reading [start] of the clock: the reading after the call less the
    reading before it, which are the two readings after the one of
    [executeTools]. *)
Definition measured (w : World) (start : nat) : Z :=
  clock w (S (S start)) - clock w (S start).

(** The value that a completion returns, if it returns *)
Definition returned {A : Type} (c : Completion A) : option A :=
  match c with
  | Normal a => Some a
  | Throw _ => None
  end.

(** The number of tools that the log reports as completed *)
Definition completedTools (l : list LogEntry) : nat :=
  length (List.filter
            (fun entry =>
               String.prefix "Tool System: Tool " (log_message entry)
               && JS.str_includes (log_message entry) " completed")
            l).

(** The name under which a listener receives an event, with the id of
    the request *)
Definition Event_name (e : Event) : string :=
  match e with
  | DidStartRequest request => "onDidStartRequest(" +:+ req_id request +:+ ")"
  | DidReceiveResponse response => "onDidReceiveResponse(" +:+ resp_requestId response +:+ ")"
  | DidEndRequest requestId => "onDidEndRequest(" +:+ requestId +:+ ")"
  end.

(** The responses received that carry no error *)
Definition successes (l : list Event) : list IAgentResponse :=
  omap (fun e => match e with
                 | DidReceiveResponse response =>
                     match resp_error response with
                     | None => Some response
                     | Some _ => None
                     end
                 | _ => None
                 end) l.

(** A second submission of the sample request, made and completed while
    the model call of a first one is pending *)
Definition secondSubmission : M unit :=
  AgentOrchestrator.execute (ret tt) sampleRequest ;; ret tt.

(** ** Further notions

    What the further properties below are stated with. *)

(** [typeof content === 'string' ? content : JSON.stringify(content)] *)
Definition contentText (content : json) : string :=
  match content with
  | JStr text => text
  | other => JS.stringify other
  end.

(** The last character of a text *)
Fixpoint lastChar (s : string) : option ascii :=
  match s with
  | EmptyString => None
  | String c rest =>
      match rest with
      | EmptyString => Some c
      | String _ _ => lastChar rest
      end
  end.

(** The keywords that [extractTags] looks for *)
Definition tagKeywords : list string :=
  ["function"; "class"; "import"; "export"; "async"; "await"; "try"; "catch"; "if"; "for";
   "while"].

(** The content of the knowledge entry that [extractKnowledge] stores *)
Definition exchange (request : IAgentRequest) (responseContent : string) : json :=
  JObj ([("request", JStr (req_content request)); ("response", JStr responseContent)]
          ++ match req_context request with
             | Some c => [("context", MemorySystem.contextJson c)]
             | None => []
             end)%list.

(** A knowledge entry as [extractKnowledge] stores it, for a question
    about sorting *)
Definition sortingEntry : IMemoryEntry :=
  {| entry_id := "knowledge_1000_0.5";
     entry_type := me_knowledge;
     entry_content := JObj [("request", JStr "sort a list");
                            ("response", JStr "use the sort method")];
     entry_metadata := {| meta_timestamp := 1005; meta_source := "conversation";
                          meta_relevance := 8 # 10; meta_tags := [] |} |}.

(** The tool system that [initializeTools] would build from the given
    tools, registered in order *)
Definition registerAll (registered : list ITool) : ToolSystem :=
  fold_left (fun ts t => ToolSystem.registerTool t ts) registered {| tools := [] |}.

(** The tools of the source that declare the capability [general] *)
Definition generalTools : list string :=
  ["read_file"; "write_file"; "search_files"; "list_directory"; "run_terminal_command";
   "run_terminal_interactive"; "grep_search"; "run_command"].

(** The sample state with the list of enabled tools configured *)
Definition withEnabledTools (enabledTools : list string) (s : State) : State :=
  {| world := {| clock := clock (world s); random := random (world s); cwd := cwd (world s);
                 cfg_toolsEnabled := Some enabledTools;
                 cfg_memoryPath := cfg_memoryPath (world s);
                 fs_writeFile := fs_writeFile (world s) |};
     activeRequests := activeRequests s; modelManager := modelManager s;
     toolSystem := toolSystem s; memorySystem := memorySystem s; controllers := controllers s;
     events := events s; logs := logs s; ticks := ticks s; draws := draws s; files := files s |}.

(** A chat request without context or options *)
Definition chatRequest : IAgentRequest :=
  {| req_id := "c1"; req_type := chat; req_content := "hello";
     req_context := None; req_options := None |}.

(** A second version of a tool: same name, another description *)
Definition readFileV2 : ITool :=
  {| tool_name := "read_file"; tool_description := "Read a file (v2)";
     tool_capabilities := ["fileops"]; tool_execute := fun _ => Normal JNull |}.

(** A list of results in which no entry comes before a more relevant
    one *)
Definition descending (l : list IKnowledgeEntry) : Prop :=
  forall (i j : nat) (a b : IKnowledgeEntry),
    (i < j)%nat -> l !! i = Some a -> l !! j = Some b -> (ke_relevance b <= ke_relevance a)%Q.

(** The results of the given relevance, in the order of the list *)
Definition withRelevance (r : Q) (l : list IKnowledgeEntry) : list IKnowledgeEntry :=
  List.filter (fun e => Qeq_bool (ke_relevance e) r) l.

(** The same, entry by entry: each entry is at least as relevant as all
    the entries behind it. *)
Fixpoint ordered (l : list IKnowledgeEntry) : Prop :=
  match l with
  | [] => True
  | a :: rest => Forall (fun b => (ke_relevance b <= ke_relevance a)%Q) rest /\ ordered rest
  end.

(** *** What a computation leaves alone

    [keeps f] relates two states that agree on the reading [f]; a
    computation that respects it does not change that reading, however it
    completes. *)
Definition keeps {A : Type} (f : State -> A) (s s' : State) : Prop := f s' = f s.

(** The messages of a conversation: [None] without a memory system,
    [Some None] without the conversation *)
Definition messagesAt (conversationId : string) (s : State)
  : option (option (list IChatMessage)) :=
  (fun ms => conv_messages <$> conversations ms !! conversationId) <$> memorySystem s.

(** The memory entries, the graph and the code patterns of a language *)
Definition entriesOf (s : State) : option (list (string * IMemoryEntry)) :=
  memory <$> memorySystem s.

Definition graphOf (s : State) : option IKnowledgeGraph :=
  knowledgeGraph <$> memorySystem s.

Definition patternsAt (language : string) (s : State) : option (option (list ICodePattern)) :=
  (fun ms => codePatterns ms !! language) <$> memorySystem s.

Definition conversationsOf (s : State) : option (gmap string IConversationContext) :=
  conversations <$> memorySystem s.

(** The keywords that [updateConversationSummary] looks for *)
Definition topicKeywords : list string :=
  ["function"; "class"; "error"; "bug"; "fix"; "test"; "api"; "database"].

(** A request about Python code, and an answer with two fenced blocks,
    the first of them marked as JavaScript *)
Definition pythonRequest : IAgentRequest :=
  {| req_id := "p1"; req_type := refactor; req_content := "Fix the bug in this function";
     req_context := Some {| ctx_filePath := Some "/home/dev/project/main.py";
                            ctx_selection := None; ctx_workspace := None;
                            ctx_language := Some "python" |};
     req_options := None |}.

Definition fencedAnswer : string :=
  "Try ```js" +:+ JS.newline +:+ "let x = 1;" +:+ JS.newline +:+ "``` or ```print(x)``` instead".

(** The sample state with a file system that refuses to write *)
Definition readOnly (s : State) : State :=
  {| world := {| clock := clock (world s); random := random (world s); cwd := cwd (world s);
                 cfg_toolsEnabled := cfg_toolsEnabled (world s);
                 cfg_memoryPath := cfg_memoryPath (world s);
                 fs_writeFile := Throw (Error "EROFS: read-only file system") |};
     activeRequests := activeRequests s; modelManager := modelManager s;
     toolSystem := toolSystem s; memorySystem := memorySystem s; controllers := controllers s;
     events := events s; logs := logs s; ticks := ticks s; draws := draws s; files := files s |}.

(** A memory system that holds the conversation of the request [r1] *)
Definition talk : IConversationContext :=
  {| conv_messages :=
       [ {| msg_role := user; msg_content := "Fix the database error"; msg_timestamp := 900 |};
         {| msg_role := assistant; msg_content := "The function fails; fix the API test.";
            msg_timestamp := 905 |} ];
     conv_summary := "";
     conv_keyTopics := [];
     conv_lastActivity := 905 |}.

Definition talkMemory : MemorySystem :=
  {| memory := [("note_1", sampleEntry)];
     conversations := {[ "r1" := talk ]};
     knowledgeGraph := {| nodes := []; edges := [] |};
     codePatterns := ∅ |}.

Definition withMemory (ms : MemorySystem) (s : State) : State :=
  set_memorySystem (fun _ => Some ms) s.

(** The entry that [persistMemory] logs when the file cannot be
    written *)
Definition persistFailure (error : Exn) : LogEntry :=
  {| log_level := LError; log_message := "Memory System: Failed to persist memory";
     log_data := [("error", Exn_json error)] |}.

(** The line of [enhanceResponse] for one tool result *)
Definition toolLine (t : IAgentToolResult) : string :=
  "**" +:+ tr_name t +:+ "**: " +:+ JS.orElse (tr_error t) (JS.stringify (tr_result t))
    +:+ JS.newline.

(** What [enhanceResponse] puts behind the content of the model: nothing
    without tool results, otherwise a heading and the lines of the tools *)
Definition toolReport (toolResults : list IAgentToolResult) : string :=
  match toolResults with
  | [] => ""
  | _ => JS.newline +:+ JS.newline +:+ "Tool Results:" +:+ JS.newline
           +:+ foldr (fun t rest => toolLine t +:+ rest) "" toolResults
  end.

(** The entries that [ModelManager.execute] logs *)
Definition executingLog (request : IModelRequest) : LogEntry :=
  {| log_level := LInfo;
     log_message := "Model Manager: Executing request with " +:+ mr_model request
                      +:+ " on " +:+ mr_provider request;
     log_data := [] |}.

Definition completedLog (request : IModelRequest) (response : IModelResponse) : LogEntry :=
  {| log_level := LInfo; log_message := "Model Manager: Request completed";
     log_data := [("model", JStr (mr_model request)); ("provider", JStr (mr_provider request))]
                   ++ ModelManager.tokensField (mo_tokens response) |}.

Definition failedLog (request : IModelRequest) (error : Exn) : LogEntry :=
  {| log_level := LError; log_message := "Model Manager: Request failed";
     log_data := [("model", JStr (mr_model request)); ("provider", JStr (mr_provider request));
                  ("error", Exn_json error)] |}.

(** A request for the model [gpt-4o] of the provider [openai], and one
    for a provider that is not registered *)
Definition openaiRequest : IModelRequest :=
  {| mr_messages := [{| mm_role := user; mm_content := "hello" |}];
     mr_model := "gpt-4o"; mr_provider := "openai"; mr_temperature := 7 # 10;
     mr_maxTokens := 2048 |}.

(** The descriptor of [codellama] in the listing of the Hugging Face
    provider *)
Definition codellama : IModelInfo :=
  {| mi_name := "codellama"; mi_provider := "huggingface"; mi_type := api;
     mi_capabilities := ["code"; "chat"; "instruction"];
     mi_contextLength := 16384; mi_costPerToken := Some (1 # 10000) |}.

(** The kinds of request whose table starts with [codellama] *)
Definition codellamaFirst (type : RequestType) : bool :=
  match type with
  | command | refactor | debug | test => true
  | chat | analysis => false
  end.

(** The names under which [initializeProviders] registers a provider that
    lists models *)
Definition listingProviders : list string := ["huggingface"; "ollama"; "openai"].

(** Three entities, two of them found in the same file *)
Definition entityIn (file name : string) : IKnowledgeNode :=
  {| node_id := "entity_" +:+ file +:+ "_" +:+ name; node_type := nt_function;
     node_label := name;
     node_properties := [("file", JStr file); ("line", JNum 1)] |}.

Definition sampleEntities : list IKnowledgeNode :=
  [entityIn "a.ts" "parse"; entityIn "b.ts" "render"; entityIn "a.ts" "print"].

(** A memory system whose graph has a node *)
Definition graphMemory : MemorySystem :=
  {| memory := [("note_1", sampleEntry)];
     conversations := {[ "r1" := talk ]};
     knowledgeGraph := {| nodes := [entityIn "db.ts" "database"]; edges := [] |};
     codePatterns := ∅ |}.

(** A memory system that holds code patterns of two languages *)
Definition patternOf (language code : string) : ICodePattern :=
  {| pat_id := "pattern_" +:+ language; pat_pattern := code;
     pat_description := language +:+ " code with 1 lines";
     pat_examples := [code]; pat_confidence := 7 # 10; pat_lastUsed := 900 |}.

Definition patternMemory : MemorySystem :=
  {| memory := [("note_1", sampleEntry)];
     conversations := {[ "r1" := talk ]};
     knowledgeGraph := {| nodes := [entityIn "db.ts" "database"]; edges := [] |};
     codePatterns := {[ "python" := [patternOf "python" "print(1)"];
                        "rust" := [patternOf "rust" "let x = 1;"] ]} |}.

(** The orchestrator when a component could not be created *)
Definition withoutModels (s : State) : State := set_modelManager (fun _ => None) s.

Definition withoutMemory (s : State) : State := set_memorySystem (fun _ => None) s.

(** A text without a backtick *)
Fixpoint noBacktick (s : string) : bool :=
  match s with
  | EmptyString => true
  | String c s' => negb (Ascii.eqb c "`") && noBacktick s'
  end.

(** A text of word characters *)
Fixpoint isWord (s : string) : bool :=
  match s with
  | EmptyString => true
  | String c s' => JS.isWordChar c && isWord s'
  end.

(** A fenced code block: the language on the line of the opening fence *)
Definition codeBlock (language code : string) : string :=
  MemorySystem.fence +:+ language +:+ JS.newline +:+ code +:+ MemorySystem.fence.

(** * Properties *)

(** ** Computations: general facts *)

Section Computations.
Context {A : Type}.

Lemma bind_normal {B} (m : M A) (k : A -> M B) s a s' :
  m s = (Normal a, s') -> bind m k s = k a s'.
Proof. intros H. unfold bind. now rewrite H. Qed.

Lemma bind_throw {B} (m : M A) (k : A -> M B) s e s' :
  m s = (Throw e, s') -> bind m k s = (Throw e, s').
Proof. intros H. unfold bind. now rewrite H. Qed.

(** A handler that returns makes the whole [try ... catch] return. *)
Lemma try_catch_returns (body : M A) (handler : Exn -> M A) s :
  (forall e s0, exists a s1, handler e s0 = (Normal a, s1)) ->
  exists a s', try_catch body handler s = (Normal a, s').
Proof.
  intros Hh. unfold try_catch.
  destruct (body s) as [[a | e] s0]; [by eexists _, _ | apply Hh].
Qed.

(** What a finalizer that cannot throw establishes holds when the
    [try ... finally] is left, and the completion is that of the body. *)
Lemma try_finally_cleanup (body : M A) (finalizer : M unit) (Q : State -> Prop) s :
  (forall s0, exists s1, finalizer s0 = (Normal tt, s1) /\ Q s1) ->
  exists s', try_finally body finalizer s = (fst (body s), s') /\ Q s'.
Proof.
  intros Hf. unfold try_finally.
  destruct (body s) as [c s0]. destruct (Hf s0) as (s1 & -> & HQ).
  by exists s1.
Qed.
End Computations.

Example splitW_sentence :
  JS.splitW (JS.toLowerCase "I got a database connection error today")
  = ["i"; "got"; "a"; "database"; "connection"; "error"; "today"].
Proof. reflexivity. Qed.

Example splitW_edges :
  JS.splitW "" = [""] /\ JS.splitW ", a--b!" = [""; "a"; "b"; ""].
Proof. split; reflexivity. Qed.

Example stringify_object :
  JS.stringify (JObj [("request", JStr "fix it"); ("n", JArr [JNum 3; JNum (-12); JNull])])
  = "{" +:+ JS.dquote +:+ "request" +:+ JS.dquote +:+ ":" +:+ JS.dquote +:+ "fix it" +:+ JS.dquote
    +:+ "," +:+ JS.dquote +:+ "n" +:+ JS.dquote +:+ ":[3,-12,null]}".
Proof. reflexivity. Qed.

Example escape_controls :
  JS.escape ("a" +:+ JS.dquote +:+ "\" +:+ JS.newline +:+ JS.chr 1)
  = "a\" +:+ JS.dquote +:+ "\\\n\u0001".
Proof. reflexivity. Qed.

Example trim_and_unique :
  JS.trim ("  a b " +:+ JS.newline) = "a b"
  /\ JS.unique ["try"; "if"; "try"; "for"; "if"] = ["try"; "if"; "for"].
Proof. by split. Qed.

Example extractTags_sentence :
  MemorySystem.extractTags "If the function fails, try again; IF not, await the class."
  = ["if"; "function"; "try"; "await"; "class"].
Proof. vm_compute. reflexivity. Qed.

(** Two fenced blocks are found, the second one empty; the fence that is
    never closed yields nothing. *)
Example extractCodeBlocks_text :
  MemorySystem.extractCodeBlocks
    ("see ```js" +:+ JS.newline +:+ " let x = 1; " +:+ JS.newline +:+ "``` and ```y``` ``` open")
  = [("let x = 1;", Some "js"); ("", Some "y")].
Proof. vm_compute. reflexivity. Qed.

(** ** The life cycle of a request *)

Lemma execute_blocks (pending : M unit) (request : IAgentRequest) (s : State) :
  AgentOrchestrator.execute pending request s
  = try_finally
      (try_catch
         (AgentOrchestrator.execute_try pending request (clock (world s) (ticks s))
            (length (controllers s)))
         (AgentOrchestrator.execute_catch request))
      (AgentOrchestrator.execute_finally request)
      (entered request s).
Proof. reflexivity. Qed.

(** The [finally] block never throws; it removes the entry of the request
    and fires the last event. *)
Lemma execute_finally_effect (request : IAgentRequest) (s0 : State) :
  exists s1,
    AgentOrchestrator.execute_finally request s0 = (Normal tt, s1)
    /\ activeRequests s1 !! req_id request = None
    /\ events s1 = (events s0 ++ [DidEndRequest (req_id request)])%list.
Proof.
  eexists. split; [reflexivity |]. cbn. split; [apply lookup_delete_eq | reflexivity].
Qed.

(** The [catch] block returns the error response. *)
Lemma execute_catch_returns (request : IAgentRequest) (error : Exn) (s0 : State) :
  AgentOrchestrator.execute_catch request error s0
  = (Normal {| resp_id := req_id request +:+ "_error";
               resp_requestId := req_id request;
               resp_content := "";
               resp_tools := None;
               resp_error := Some (messageOr error "Unknown error occurred");
               resp_metadata := None |},
     set_logs (fun l => (l ++ [{| log_level := LError;
                                  log_message := "Agent Orchestrator: Request "
                                                   +:+ req_id request +:+ " failed";
                                  log_data := [("error", Exn_json error)] |}])%list) s0).
Proof. reflexivity. Qed.

(** [execute] always returns a response. *)
Lemma execute_returns (pending : M unit) (request : IAgentRequest) (s : State) :
  exists response s', AgentOrchestrator.execute pending request s = (Normal response, s').
Proof.
  rewrite execute_blocks.
  destruct (try_catch_returns
              (AgentOrchestrator.execute_try pending request (clock (world s) (ticks s))
                 (length (controllers s)))
              (AgentOrchestrator.execute_catch request) (entered request s))
    as (response & s0 & Hbody).
  { intros e s0. rewrite execute_catch_returns. by eexists _, _. }
  unfold try_finally. rewrite Hbody.
  destruct (execute_finally_effect request s0) as (s1 & -> & _).
  by exists response, s1.
Qed.

(** C2. Whatever [execute] meets on its way -- success, a failure at any
    step, a cancellation or anything else done by other callers while the
    model call is pending -- the call completes with a response, and when it
    does the in-flight entry of the request is gone, [getStatus] does not
    list its id, and the last event fired is [DidEndRequest] for that id. *)
Theorem execute_always_cleans_up (pending : M unit) (request : IAgentRequest) (s : State) :
  exists response s',
    AgentOrchestrator.execute pending request s = (Normal response, s')
    /\ activeRequests s' !! req_id request = None
    /\ (req_id request ∉ st_activeRequests (AgentOrchestrator.getStatus s'))
    /\ exists earlier, events s' = (earlier ++ [DidEndRequest (req_id request)])%list.
Proof.
  destruct (execute_returns pending request s) as (response & s' & Hrun).
  exists response, s'. split; [exact Hrun |].
  rewrite execute_blocks in Hrun.
  destruct (try_finally_cleanup
              (try_catch
                 (AgentOrchestrator.execute_try pending request (clock (world s) (ticks s))
                    (length (controllers s)))
                 (AgentOrchestrator.execute_catch request))
              (AgentOrchestrator.execute_finally request)
              (fun s1 => activeRequests s1 !! req_id request = None
                         /\ exists earlier,
                              events s1 = (earlier ++ [DidEndRequest (req_id request)])%list)
              (entered request s)) as (s1 & Hfin & Hgone & Hlast).
  { intros s0. destruct (execute_finally_effect request s0) as (s1 & H1 & H2 & H3).
    exists s1. split; [exact H1 |]. split; [exact H2 |]. eexists; exact H3. }
  rewrite Hfin in Hrun. injection Hrun as _ <-.
  split; [exact Hgone |]. split; [| exact Hlast].
  unfold AgentOrchestrator.getStatus. cbn [st_activeRequests].
  rewrite elem_of_elements, elem_of_dom, Hgone. by intros [? ?].
Qed.

(** ** Tool dispatch *)

Lemma includes_true (l : list string) (x : string) : JS.includes l x = true <-> x ∈ l.
Proof. unfold JS.includes. apply bool_decide_eq_true. Qed.

Lemma includes_false (l : list string) (x : string) : JS.includes l x = false <-> x ∉ l.
Proof. unfold JS.includes. apply bool_decide_eq_false. Qed.

Lemma toolCapabilitiesMatchRequest_true (t : ITool) (request : IAgentRequest) :
  ToolSystem.toolCapabilitiesMatchRequest t request = true
  <-> exists cap, cap ∈ tool_capabilities t
                  /\ cap ∈ ToolSystem.capabilityMap (req_type request).
Proof.
  unfold ToolSystem.toolCapabilitiesMatchRequest. rewrite existsb_exists.
  split; intros (cap & Hcap & Hreq); exists cap.
  - split; [by apply list_elem_of_In | by apply includes_true].
  - split; [by apply list_elem_of_In | by apply includes_true].
Qed.

Lemma selected_true (enabledTools : list string) (request : IAgentRequest) (t : ITool) :
  ToolSystem.selected enabledTools request t = true
  <-> (enabledTools <> [] -> tool_name t ∈ enabledTools)
      /\ exists cap, cap ∈ tool_capabilities t
                     /\ cap ∈ ToolSystem.capabilityMap (req_type request).
Proof.
  unfold ToolSystem.selected. rewrite <- toolCapabilitiesMatchRequest_true.
  destruct (JS.includes enabledTools (tool_name t)) eqn:Hin; cbn [negb andb].
  - apply includes_true in Hin. tauto.
  - apply includes_false in Hin. destruct enabledTools as [| name rest]; cbn.
    + tauto.
    + split; [discriminate |]. intros [Hnamed _]. by destruct Hin; apply Hnamed.
Qed.

Lemma getToolsForRequest_run (request : IAgentRequest) (ts : ToolSystem) (s : State) :
  toolSystem s = Some ts ->
  ToolSystem.getToolsForRequest request s
  = (Normal (List.filter (ToolSystem.selected (default [] (cfg_toolsEnabled (world s))) request)
                         (JS.values (tools ts))), s).
Proof.
  intros Hts. unfold ToolSystem.getToolsForRequest, ToolSystem.this, bind, gets, ret.
  by rewrite Hts.
Qed.

(** C8. With the tool system in place, a registered tool is selected for
    a request exactly when its capabilities meet those required by the kind
    of the request and, if a list of enabled tools is configured (it is not
    empty), the tool is named in that list. *)
Theorem getToolsForRequest_selects (request : IAgentRequest) (ts : ToolSystem) (s : State)
    (Hts : toolSystem s = Some ts) :
  exists eligible,
    ToolSystem.getToolsForRequest request s = (Normal eligible, s)
    /\ forall t : ITool,
         t ∈ eligible
         <-> t ∈ JS.values (tools ts)
             /\ (exists cap, cap ∈ tool_capabilities t
                             /\ cap ∈ ToolSystem.capabilityMap (req_type request))
             /\ (default [] (cfg_toolsEnabled (world s)) <> []
                 -> tool_name t ∈ default [] (cfg_toolsEnabled (world s))).
Proof.
  eexists. split.
  - by apply getToolsForRequest_run.
  - intros t. rewrite list_elem_of_In, filter_In, <- list_elem_of_In, selected_true. tauto.
Qed.

Lemma getToolsForRequest_selects_witness :
  toolSystem (sampleState chatAnswers) = Some (ToolSystem.initializeTools sampleRun)
  /\ exists eligible,
       ToolSystem.getToolsForRequest sampleRequest (sampleState chatAnswers)
       = (Normal eligible, sampleState chatAnswers)
       /\ forall t : ITool,
            t ∈ eligible
            <-> t ∈ JS.values (tools (ToolSystem.initializeTools sampleRun))
                /\ (exists cap, cap ∈ tool_capabilities t
                                /\ cap ∈ ToolSystem.capabilityMap (req_type sampleRequest))
                /\ (default [] (cfg_toolsEnabled (world (sampleState chatAnswers))) <> []
                    -> tool_name t
                         ∈ default [] (cfg_toolsEnabled (world (sampleState chatAnswers)))).
Proof.
  split; [reflexivity |].
  exact (getToolsForRequest_selects sampleRequest (ToolSystem.initializeTools sampleRun)
           (sampleState chatAnswers) eq_refl).
Defined.

(** With the list of enabled tools set to [read_file] and [web_search], a
    command request gets [read_file] alone: [web_search] is enabled but has
    no capability that a command asks for.  With the empty list it gets the
    thirteen tools that match by capability. *)
Example enabled_list_run :
  List.map tool_name
    (List.filter (ToolSystem.selected ["read_file"; "web_search"] sampleRequest)
       (JS.values (tools (ToolSystem.initializeTools sampleRun))))
  = ["read_file"]
  /\ length (List.filter (ToolSystem.selected [] sampleRequest)
               (JS.values (tools (ToolSystem.initializeTools sampleRun)))) = 13%nat.
Proof. vm_compute. by split. Qed.

(** C8 fails on the code for a configured list that is empty.  With the
    setting [agent.tools.enabled] configured as the empty list, a command
    request gets the thirteen tools that match it by capability,
    [read_file] first: tools that the configured list does not name are
    eligible. *)
Lemma empty_enabled_list_restricts_nothing :
  cfg_toolsEnabled (world (withEnabledTools [] (sampleState chatAnswers))) = Some []
  /\ exists eligible,
       ToolSystem.getToolsForRequest sampleRequest
         (withEnabledTools [] (sampleState chatAnswers))
       = (Normal eligible, withEnabledTools [] (sampleState chatAnswers))
       /\ length eligible = 13%nat
       /\ tool_name <$> head eligible = Some "read_file"
       /\ ~ (forall t : ITool, t ∈ eligible -> tool_name t ∈ ([] : list string)).
Proof.
  split; [reflexivity |].
  exists (List.filter (ToolSystem.selected [] sampleRequest)
            (JS.values (tools (ToolSystem.initializeTools sampleRun)))).
  split; [exact (getToolsForRequest_run sampleRequest (ToolSystem.initializeTools sampleRun)
                   (withEnabledTools [] (sampleState chatAnswers)) eq_refl) |].
  assert (tool_name
            <$> head (List.filter (ToolSystem.selected [] sampleRequest)
                        (JS.values (tools (ToolSystem.initializeTools sampleRun))))
          = Some "read_file") as Hfirst by (vm_compute; reflexivity).
  split; [vm_compute; reflexivity |]. split; [exact Hfirst |].
  intros Hnamed.
  destruct (List.filter _ _) as [| t rest]; [discriminate Hfirst |].
  specialize (Hnamed t (list_elem_of_here _ _)). by apply elem_of_nil in Hnamed.
Qed.

(** ** Relevance search *)

Lemma countMatches_filter (queryWords contentWords : list string) :
  MemorySystem.countMatches queryWords contentWords
  = length (List.filter (JS.includes contentWords) queryWords).
Proof.
  unfold MemorySystem.countMatches.
  enough (forall n : nat,
             fold_left (fun matches queryWord =>
                          if JS.includes contentWords queryWord then S matches else matches)
                       queryWords n
             = (n + length (List.filter (JS.includes contentWords) queryWords))%nat) as H
    by apply (H 0%nat).
  induction queryWords as [| w ws IH]; intros n; cbn [fold_left List.filter].
  - by rewrite Nat.add_0_r.
  - rewrite IH. destruct (JS.includes contentWords w); cbn [length]; lia.
Qed.

(** What one memory entry contributes is its own score, and the score is
    above the threshold. *)
Lemma candidate_admitted (query : string) (entry : IMemoryEntry) (e : IKnowledgeEntry) :
  MemorySystem.candidate query entry = Some e ->
  ke_relevance e = MemorySystem.calculateRelevance query (entry_content entry)
  /\ (3 # 10 < ke_relevance e)%Q
  /\ (entry_type entry = me_knowledge \/ entry_type entry = me_pattern).
Proof.
  unfold MemorySystem.candidate, JS.gt.
  destruct (Qle_bool (MemorySystem.calculateRelevance query (entry_content entry)) (3 # 10))
    eqn:Hle; cbn [negb].
  - by destruct (entry_type entry).
  - assert (3 # 10 < MemorySystem.calculateRelevance query (entry_content entry))%Q as Hlt.
    { apply Qnot_le_lt. intros Hq. apply Qle_bool_iff in Hq. congruence. }
    destruct (entry_type entry); intros [= <-]; cbn [ke_relevance]; auto.
Qed.

Lemma graph_admitted (graph : IKnowledgeGraph) (query : string) (e : IKnowledgeEntry) :
  e ∈ MemorySystem.searchKnowledgeGraph graph query ->
  (3 # 10 < ke_relevance e)%Q /\ exists label, ke_content e = "Knowledge: " +:+ label.
Proof.
  unfold MemorySystem.searchKnowledgeGraph. rewrite list_elem_of_omap.
  intros (node & _ & Hnode). revert Hnode.
  set (relevance := MemorySystem.calculateRelevance _ _).
  unfold JS.gt. destruct (Qle_bool relevance (4 # 10)) eqn:Hle; cbn [negb]; [discriminate |].
  intros [= <-]. cbn [ke_relevance ke_content]. split.
  - apply Qlt_trans with (4 # 10); [reflexivity |].
    apply Qnot_le_lt. intros Hq. apply Qle_bool_iff in Hq. congruence.
  - eexists. reflexivity.
Qed.

Lemma insertByRelevance_elem (a x : IKnowledgeEntry) (sorted : list IKnowledgeEntry) :
  x ∈ MemorySystem.insertByRelevance a sorted <-> x = a \/ x ∈ sorted.
Proof.
  induction sorted as [| b rest IH]; cbn [MemorySystem.insertByRelevance].
  - set_solver.
  - destruct (JS.gt (ke_relevance b) (ke_relevance a)).
    + rewrite !elem_of_cons, IH. tauto.
    + rewrite !elem_of_cons. tauto.
Qed.

Lemma sortByRelevance_elem (x : IKnowledgeEntry) (results : list IKnowledgeEntry) :
  x ∈ MemorySystem.sortByRelevance results <-> x ∈ results.
Proof.
  induction results as [| a rest IH]; cbn [MemorySystem.sortByRelevance foldr].
  - reflexivity.
  - fold (MemorySystem.sortByRelevance rest).
    rewrite insertByRelevance_elem, elem_of_cons, IH. tauto.
Qed.

Lemma insertByRelevance_length (a : IKnowledgeEntry) (sorted : list IKnowledgeEntry) :
  length (MemorySystem.insertByRelevance a sorted) = S (length sorted).
Proof.
  induction sorted as [| b rest IH]; cbn [MemorySystem.insertByRelevance]; [done |].
  destruct (JS.gt (ke_relevance b) (ke_relevance a)); cbn [length]; [by rewrite IH | done].
Qed.

Lemma sortByRelevance_length (results : list IKnowledgeEntry) :
  length (MemorySystem.sortByRelevance results) = length results.
Proof.
  induction results as [| a rest IH]; cbn [MemorySystem.sortByRelevance foldr length]; [done |].
  fold (MemorySystem.sortByRelevance rest). by rewrite insertByRelevance_length, IH.
Qed.

Lemma relevantKnowledge_candidates (ms : MemorySystem) (query : string) (e : IKnowledgeEntry) :
  e ∈ MemorySystem.relevantKnowledge ms query -> e ∈ MemorySystem.candidates ms query.
Proof.
  unfold MemorySystem.relevantKnowledge. intros He.
  apply sortByRelevance_elem. apply elem_of_take in He as (i & Hi & _).
  by apply list_elem_of_lookup_2 in Hi.
Qed.

(** The text that [JSON.stringify] produces does not start with a capital
    [I]. *)
Lemma stringify_not_I (v : json) (rest : string) : JS.stringify v <> String "I" rest.
Proof.
  destruct v as [| [|] | n | text | items | fields]; cbn [JS.stringify]; try discriminate.
  unfold JS.ofZ, NilZero.string_of_int, NilZero.string_of_uint.
  destruct (Z.to_int n) as [d | d]; [| discriminate].
  destruct d; cbn [NilEmpty.string_of_uint]; discriminate.
Qed.

Lemma candidate_content (query : string) (entry : IMemoryEntry) (e : IKnowledgeEntry)
    (rest : string) :
  MemorySystem.candidate query entry = Some e ->
  ke_content e = String "I" rest ->
  entry_content entry = JStr (String "I" rest).
Proof.
  unfold MemorySystem.candidate.
  destruct (entry_type entry); try discriminate;
    (destruct (JS.gt _ _); [| discriminate]);
    intros [= <-]; cbn [ke_content];
    (destruct (entry_content entry) as [| b | n | text | items | fields];
     [ discriminate
     | intros Hcontent; by apply (stringify_not_I (JBool b)) in Hcontent
     | intros Hcontent; by apply (stringify_not_I (JNum n)) in Hcontent
     | by intros ->
     | discriminate
     | discriminate ]).
Qed.

Lemma candidate_databaseNote (entry : IMemoryEntry) :
  entry_content entry = JStr databaseNote ->
  entry_type entry = me_knowledge \/ entry_type entry = me_pattern ->
  MemorySystem.candidate "database error" entry
  = Some {| ke_content := databaseNote;
            ke_relevance := 2 # 2;
            ke_source := meta_source (entry_metadata entry);
            ke_type := MemoryEntryType_name (entry_type entry) |}.
Proof.
  intros Hcontent Htype. unfold MemorySystem.candidate. rewrite Hcontent.
  assert (MemorySystem.calculateRelevance "database error" (JStr databaseNote) = 2 # 2) as ->
    by (vm_compute; reflexivity).
  by destruct Htype as [-> | ->].
Qed.

Lemma candidate_quantum (entry : IMemoryEntry) :
  entry_content entry = JStr databaseNote ->
  MemorySystem.candidate "quantum physics" entry = None.
Proof.
  intros Hcontent. unfold MemorySystem.candidate. rewrite Hcontent.
  assert (MemorySystem.calculateRelevance "quantum physics" (JStr databaseNote) = 0 # 2) as ->
    by (vm_compute; reflexivity).
  by destruct (entry_type entry).
Qed.

(** C5. The score of a candidate is the number of query tokens that occur
    among the tokens of its content, divided by the number of query tokens.
    A memory entry is admitted only with a score above 3/10, and so is every
    result of the search.  For the query "database error" the note "I got a
    database connection error today" scores 2 out of 2, which is at least
    3/10, and a store that holds it as knowledge or as a pattern returns it
    (the search returns all admitted candidates when there are at most ten).
    For the query "quantum physics" the note scores 0 and no search returns
    it. *)
Theorem relevance_search_admits_by_overlap :
  (forall (query : string) (content : json),
      let queryWords := JS.splitW (JS.toLowerCase query) in
      let contentWords :=
        JS.splitW (JS.toLowerCase (match content with
                                   | JStr text => text
                                   | _ => JS.stringify content
                                   end)) in
      MemorySystem.calculateRelevance query content
      = Z.of_nat (length (List.filter (fun word => bool_decide (word ∈ contentWords)) queryWords))
        # Pos.of_nat (length queryWords))
  /\ (forall (query : string) (entry : IMemoryEntry) (e : IKnowledgeEntry),
         MemorySystem.candidate query entry = Some e ->
         ke_relevance e = MemorySystem.calculateRelevance query (entry_content entry)
         /\ (3 # 10 < ke_relevance e)%Q)
  /\ (forall (ms : MemorySystem) (query : string) (e : IKnowledgeEntry),
         e ∈ MemorySystem.relevantKnowledge ms query -> (3 # 10 < ke_relevance e)%Q)
  /\ (MemorySystem.calculateRelevance "database error" (JStr databaseNote) = 2 # 2
      /\ (3 # 10 <= 2 # 2)%Q
      /\ forall (ms : MemorySystem) (entry : IMemoryEntry),
           entry ∈ JS.values (memory ms) ->
           entry_content entry = JStr databaseNote ->
           entry_type entry = me_knowledge \/ entry_type entry = me_pattern ->
           (length (MemorySystem.candidates ms "database error") <= 10)%nat ->
           {| ke_content := databaseNote;
              ke_relevance := 2 # 2;
              ke_source := meta_source (entry_metadata entry);
              ke_type := MemoryEntryType_name (entry_type entry) |}
             ∈ MemorySystem.relevantKnowledge ms "database error")
  /\ (MemorySystem.calculateRelevance "quantum physics" (JStr databaseNote) = 0 # 2
      /\ forall (ms : MemorySystem) (e : IKnowledgeEntry),
           e ∈ MemorySystem.relevantKnowledge ms "quantum physics" ->
           ke_content e <> databaseNote).
Proof.
  split; [| split; [| split; [| split]]].
  - intros query content queryWords contentWords.
    unfold MemorySystem.calculateRelevance. fold queryWords. fold contentWords.
    by rewrite countMatches_filter.
  - intros query entry e He. by destruct (candidate_admitted query entry e He) as (? & ? & _).
  - intros ms query e He. apply relevantKnowledge_candidates in He.
    unfold MemorySystem.candidates in He. apply elem_of_app in He as [He | He].
    + apply list_elem_of_omap in He as (entry & _ & He).
      by destruct (candidate_admitted query entry e He) as (_ & ? & _).
    + by destruct (graph_admitted _ _ _ He).
  - split; [vm_compute; reflexivity |]. split; [discriminate |].
    intros ms entry Hentry Hcontent Htype Hfew.
    unfold MemorySystem.relevantKnowledge.
    rewrite take_ge by (by rewrite sortByRelevance_length).
    apply sortByRelevance_elem. unfold MemorySystem.candidates.
    apply elem_of_app. left. apply list_elem_of_omap.
    exists entry. split; [exact Hentry |]. by apply candidate_databaseNote.
  - split; [vm_compute; reflexivity |].
    intros ms e He Hcontent. apply relevantKnowledge_candidates in He.
    unfold MemorySystem.candidates in He. apply elem_of_app in He as [He | He].
    + apply list_elem_of_omap in He as (entry & _ & He).
      pose proof (candidate_content _ _ _ _ He Hcontent) as Hentry.
      rewrite (candidate_quantum entry Hentry) in He. discriminate.
    + destruct (graph_admitted _ _ _ He) as (_ & label & Hlabel).
      rewrite Hlabel in Hcontent. discriminate.
Qed.

Lemma relevance_search_admits_by_overlap_witness :
  (sampleEntry ∈ JS.values (memory sampleMemory)
   /\ entry_content sampleEntry = JStr databaseNote
   /\ (length (MemorySystem.candidates sampleMemory "database error") <= 10)%nat)
  /\ {| ke_content := databaseNote; ke_relevance := 2 # 2; ke_source := "notes";
        ke_type := "knowledge" |}
       ∈ MemorySystem.relevantKnowledge sampleMemory "database error".
Proof.
  assert (sampleEntry ∈ JS.values (memory sampleMemory)) as Hentry by apply list_elem_of_here.
  assert (length (MemorySystem.candidates sampleMemory "database error") <= 10)%nat as Hfew
    by (vm_compute; lia).
  split; [by repeat split |].
  destruct relevance_search_admits_by_overlap as (_ & _ & _ & (_ & _ & Hdatabase) & _).
  exact (Hdatabase sampleMemory sampleEntry Hentry eq_refl (or_introl eq_refl) Hfew).
Defined.

(** ** Frame rules *)

Section FrameRules.
Context (R : State -> State -> Prop).
Context (R_refl : forall s, R s s).
Context (R_trans : forall s1 s2 s3, R s1 s2 -> R s2 s3 -> R s1 s3).
Context {A : Type}.

Lemma respects_ret (a : A) : respects R (ret a).
Proof. intros s. apply R_refl. Qed.

Lemma respects_throw (e : Exn) : respects R (throw (A := A) e).
Proof. intros s. apply R_refl. Qed.

Lemma respects_settle (c : Completion A) : respects R (settle c).
Proof. intros s. apply R_refl. Qed.

Lemma respects_gets (f : State -> A) : respects R (gets f).
Proof. intros s. apply R_refl. Qed.

Lemma respects_bind {B : Type} (m : M A) (k : A -> M B) :
  respects R m -> (forall a, respects R (k a)) -> respects R (bind m k).
Proof.
  intros Hm Hk s. unfold bind. specialize (Hm s).
  destruct (m s) as [[a | e] s1]; cbn [snd] in *; [| exact Hm].
  eapply R_trans; [exact Hm | apply Hk].
Qed.

Lemma respects_try_catch (body : M A) (handler : Exn -> M A) :
  respects R body -> (forall e, respects R (handler e)) -> respects R (try_catch body handler).
Proof.
  intros Hb Hh s. unfold try_catch. specialize (Hb s).
  destruct (body s) as [[a | e] s1]; cbn [snd] in *; [exact Hb |].
  eapply R_trans; [exact Hb | apply Hh].
Qed.
End FrameRules.

Lemma stable_refl (s : State) : stable s s.
Proof. by repeat split. Qed.

Lemma stable_trans (s1 s2 s3 : State) : stable s1 s2 -> stable s2 s3 -> stable s1 s3.
Proof.
  unfold stable. intros (? & ? & ? & ? & ? & ?) (? & ? & ? & ? & ? & ?).
  repeat split; congruence.
Qed.

Lemma same_events_refl (s : State) : same_events s s.
Proof. reflexivity. Qed.

Lemma same_events_trans (s1 s2 s3 : State) :
  same_events s1 s2 -> same_events s2 s3 -> same_events s1 s3.
Proof. unfold same_events. congruence. Qed.

Lemma stable_same_events (s s' : State) : stable s s' -> same_events s s'.
Proof. by intros (_ & He & _). Qed.

Lemma quiet_silent {A : Type} (m : M A) : quiet m -> silent m.
Proof. intros Hm s. apply stable_same_events, Hm. Qed.

(** The side condition of a state update: the fields that the relation
    reads are not the ones written. *)
Ltac frame_side := first [ reflexivity | by repeat split ].

Lemma respects_modify (R : State -> State -> Prop) (f : State -> State) :
  (forall s, R s (f s)) -> respects R (modify f).
Proof. intros Hf s. apply Hf. Qed.

Lemma quiet_ModelManager_this (method : string) : quiet (ModelManager.this method).
Proof. intros s. unfold ModelManager.this. destruct (modelManager s); apply stable_refl. Qed.

Lemma quiet_ToolSystem_this (method : string) : quiet (ToolSystem.this method).
Proof. intros s. unfold ToolSystem.this. destruct (toolSystem s); apply stable_refl. Qed.

Lemma quiet_MemorySystem_this (method : string) : quiet (MemorySystem.this method).
Proof. intros s. unfold MemorySystem.this. destruct (memorySystem s); apply stable_refl. Qed.

Lemma silent_MemorySystem_this (method : string) : silent (MemorySystem.this method).
Proof. apply quiet_silent, quiet_MemorySystem_this. Qed.

Lemma quiet_set_currentModel (model : IModelInfo) : quiet (ModelManager.set_currentModel model).
Proof.
  intros s. unfold ModelManager.set_currentModel, modify, stable. cbn.
  repeat split. by destruct (modelManager s).
Qed.

Create HintDb frame discriminated.
#[local] Hint Resolve quiet_ModelManager_this quiet_ToolSystem_this quiet_MemorySystem_this
  silent_MemorySystem_this quiet_set_currentModel : frame.

(** One step of a frame proof: split a sequence or a [try], take a branch,
    or check a primitive. *)
Ltac frame_step :=
  match goal with
  | |- respects stable (bind _ _) =>
      apply (respects_bind stable stable_trans); [| intros ?]
  | |- respects same_events (bind _ _) =>
      apply (respects_bind same_events same_events_trans); [| intros ?]
  | |- respects stable (try_catch _ _) =>
      apply (respects_try_catch stable stable_trans); [| intros ?]
  | |- respects same_events (try_catch _ _) =>
      apply (respects_try_catch same_events same_events_trans); [| intros ?]
  | |- respects stable (ret _) => apply (respects_ret stable stable_refl)
  | |- respects same_events (ret _) => apply (respects_ret same_events same_events_refl)
  | |- respects stable (throw _) => apply (respects_throw stable stable_refl)
  | |- respects same_events (throw _) => apply (respects_throw same_events same_events_refl)
  | |- respects stable (settle _) => apply (respects_settle stable stable_refl)
  | |- respects same_events (settle _) => apply (respects_settle same_events same_events_refl)
  | |- respects stable (gets _) => apply (respects_gets stable stable_refl)
  | |- respects same_events (gets _) => apply (respects_gets same_events same_events_refl)
  | |- respects _ (match ?x with _ => _ end) => destruct x
  | |- respects _ (let _ := _ in _) => cbv zeta
  | |- respects _ (modify _) => apply respects_modify; intros ?; frame_side
  | |- respects _ (log _ _ _) => apply respects_modify; intros ?; frame_side
  | |- respects _ Date_now => intros ?; frame_side
  | |- respects _ Math_random => intros ?; frame_side
  | |- respects _ (AgentOrchestrator.abort _) => apply respects_modify; intros ?; frame_side
  | |- respects _ (MemorySystem.update _) => unfold MemorySystem.update
  | |- respects _ _ => solve [auto with frame]
  end.

Ltac frame_auto := repeat frame_step.

Lemma quiet_findModel_loop (ps : list IModelProvider) (modelName : string) :
  quiet (ModelManager.findModel_loop ps modelName).
Proof.
  induction ps as [| provider rest IH]; cbn [ModelManager.findModel_loop]; frame_auto.
Qed.
#[local] Hint Resolve quiet_findModel_loop : frame.

Lemma quiet_findModel (modelName : string) : quiet (ModelManager.findModel modelName).
Proof. unfold ModelManager.findModel. frame_auto. Qed.
#[local] Hint Resolve quiet_findModel : frame.

Lemma quiet_getAvailableModels_loop (ps : list IModelProvider) (allModels : list IModelInfo) :
  quiet (ModelManager.getAvailableModels_loop ps allModels).
Proof.
  revert allModels.
  induction ps as [| provider rest IH]; intros allModels;
    cbn [ModelManager.getAvailableModels_loop]; frame_auto.
Qed.
#[local] Hint Resolve quiet_getAvailableModels_loop : frame.

Lemma quiet_firstFound (names : list string) : quiet (ModelManager.firstFound names).
Proof. induction names as [| name rest IH]; cbn [ModelManager.firstFound]; frame_auto. Qed.
#[local] Hint Resolve quiet_firstFound : frame.

Lemma quiet_selectModelByTaskType (taskType : string) :
  quiet (ModelManager.selectModelByTaskType taskType).
Proof. unfold ModelManager.selectModelByTaskType, ModelManager.getAvailableModels. frame_auto. Qed.
#[local] Hint Resolve quiet_selectModelByTaskType : frame.

Lemma quiet_ModelManager_selectModel (taskType : string) (preferredModel : option string) :
  quiet (ModelManager.selectModel taskType preferredModel).
Proof. unfold ModelManager.selectModel. frame_auto. Qed.
#[local] Hint Resolve quiet_ModelManager_selectModel : frame.

Lemma quiet_selectModel (request : IAgentRequest) : quiet (AgentOrchestrator.selectModel request).
Proof. unfold AgentOrchestrator.selectModel. frame_auto. Qed.

Lemma quiet_gatherContext (request : IAgentRequest) :
  quiet (AgentOrchestrator.gatherContext request).
Proof.
  unfold AgentOrchestrator.gatherContext, MemorySystem.getConversationHistory,
    MemorySystem.searchRelevantKnowledge.
  frame_auto.
Qed.

Lemma quiet_executeTool (t : ITool) (request : IAgentRequest) :
  quiet (ToolSystem.executeTool t request).
Proof. unfold ToolSystem.executeTool. frame_auto. Qed.
#[local] Hint Resolve quiet_executeTool : frame.

Lemma quiet_executeTools_loop (ts : list ITool) (request : IAgentRequest)
    (results : list IAgentToolResult) :
  quiet (AgentOrchestrator.executeTools_loop ts request results).
Proof.
  revert results.
  induction ts as [| t rest IH]; intros results;
    cbn [AgentOrchestrator.executeTools_loop]; frame_auto.
Qed.
#[local] Hint Resolve quiet_executeTools_loop : frame.

Lemma quiet_executeTools (request : IAgentRequest) :
  quiet (AgentOrchestrator.executeTools request).
Proof.
  unfold AgentOrchestrator.executeTools, ToolSystem.getToolsForRequest. frame_auto.
Qed.

Lemma quiet_cancel (requestId : string) : quiet (AgentOrchestrator.cancel requestId).
Proof. unfold AgentOrchestrator.cancel. frame_auto. Qed.
#[local] Hint Resolve quiet_cancel : frame.

Lemma quiet_cancels (requestIds : list string) : quiet (AgentOrchestrator.cancels requestIds).
Proof.
  induction requestIds as [| requestId rest IH]; cbn [AgentOrchestrator.cancels]; frame_auto.
Qed.

Lemma quiet_meanwhile (pending : M unit) : quiet pending -> quiet (ModelManager.meanwhile pending).
Proof. intros Hp s. apply Hp. Qed.

Lemma quiet_ModelManager_execute (pending : M unit) (request : IModelRequest)
    (signal : nat) (timeout : Z) :
  quiet pending -> quiet (ModelManager.execute pending request signal timeout).
Proof.
  intros Hp. pose proof (quiet_meanwhile pending Hp).
  unfold ModelManager.execute, ModelManager.awaitProvider. frame_auto.
Qed.

(** Storing an interaction fires no event. *)

Lemma silent_pushPatterns (language : string) (codeBlocks : list (string * option string))
    (patterns : list ICodePattern) :
  silent (MemorySystem.pushPatterns language codeBlocks patterns).
Proof.
  revert patterns.
  induction codeBlocks as [| [code lang] rest IH]; intros patterns;
    cbn [MemorySystem.pushPatterns]; frame_auto.
Qed.
#[local] Hint Resolve silent_pushPatterns : frame.

Lemma silent_extractCodePatterns (request : IAgentRequest) (responseContent : string) :
  silent (MemorySystem.extractCodePatterns request responseContent).
Proof. unfold MemorySystem.extractCodePatterns. frame_auto. Qed.
#[local] Hint Resolve silent_extractCodePatterns : frame.

Lemma silent_extractKnowledge (request : IAgentRequest) (responseContent : string) :
  silent (MemorySystem.extractKnowledge request responseContent).
Proof. unfold MemorySystem.extractKnowledge. frame_auto. Qed.
#[local] Hint Resolve silent_extractKnowledge : frame.

Lemma silent_updateConversationSummary (conversationId : string) :
  silent (MemorySystem.updateConversationSummary conversationId).
Proof. unfold MemorySystem.updateConversationSummary. frame_auto. Qed.
#[local] Hint Resolve silent_updateConversationSummary : frame.

Lemma silent_persistMemory : silent MemorySystem.persistMemory.
Proof. unfold MemorySystem.persistMemory, MemorySystem.getMemoryFilePath. frame_auto. Qed.
#[local] Hint Resolve silent_persistMemory : frame.

Lemma silent_storeInteraction (request : IAgentRequest) (responseContent : string) :
  silent (MemorySystem.storeInteraction request responseContent).
Proof. unfold MemorySystem.storeInteraction. frame_auto. Qed.

(** ** Model selection *)

Lemma findModel_loop_result (ps : list IModelProvider) (modelName : string) (s : State) :
  fst (ModelManager.findModel_loop ps modelName s) = Normal (listed ps modelName).
Proof.
  revert s. induction ps as [| provider rest IH]; intros s;
    cbn [ModelManager.findModel_loop listed]; [reflexivity |].
  destruct (prov_listModels provider) as [models | error].
  - destruct (List.find (ModelManager.nameMatches modelName) models); [reflexivity | apply IH].
  - unfold bind, log, modify. apply IH.
Qed.

Lemma findModel_result (pm : list (string * IModelProvider)) (modelName : string) (s : State) :
  providers <$> modelManager s = Some pm ->
  fst (ModelManager.findModel modelName s) = Normal (listed (JS.values pm) modelName).
Proof.
  intros Hpm. unfold ModelManager.findModel, bind, ModelManager.this.
  destruct (modelManager s) as [mm |]; [| discriminate].
  injection Hpm as <-. apply findModel_loop_result.
Qed.

(** The providers are the same after a quiet computation. *)
Lemma quiet_providers {A : Type} (m : M A) (pm : list (string * IModelProvider)) (s : State) :
  quiet m -> providers <$> modelManager s = Some pm ->
  providers <$> modelManager (snd (m s)) = Some pm.
Proof. intros Hm Hpm. destruct (Hm s) as (_ & _ & _ & _ & _ & Hp). by rewrite Hp. Qed.

Lemma firstFound_result (pm : list (string * IModelProvider)) (names : list string) (s : State) :
  providers <$> modelManager s = Some pm ->
  fst (ModelManager.firstFound names s) = Normal (tableChoice (JS.values pm) names).
Proof.
  revert s. induction names as [| modelName rest IH]; intros s Hpm;
    cbn [ModelManager.firstFound tableChoice]; [reflexivity |].
  unfold bind.
  pose proof (findModel_result pm modelName s Hpm) as Hfound.
  pose proof (quiet_providers _ pm s (quiet_findModel modelName) Hpm) as Hpm'.
  destruct (ModelManager.findModel modelName s) as [found s1]. cbn [fst snd] in *. subst found.
  destruct (listed (JS.values pm) modelName); [reflexivity | by apply IH].
Qed.

Lemma getAvailableModels_loop_result (ps : list IModelProvider) (allModels : list IModelInfo)
    (s : State) :
  fst (ModelManager.getAvailableModels_loop ps allModels s)
  = Normal (allModels ++ availableUnion ps)%list.
Proof.
  revert allModels s. induction ps as [| provider rest IH]; intros allModels s;
    cbn [ModelManager.getAvailableModels_loop availableUnion].
  - by rewrite app_nil_r.
  - destruct (prov_isAvailable provider) as [[|] | error].
    + destruct (prov_listModels provider) as [models | error].
      * rewrite IH. by rewrite app_assoc.
      * unfold bind, log, modify. apply IH.
    + apply IH.
    + unfold bind, log, modify. apply IH.
Qed.

Lemma selectModelByTaskType_result (pm : list (string * IModelProvider)) (taskType : string)
    (s : State) :
  providers <$> modelManager s = Some pm ->
  fst (ModelManager.selectModelByTaskType taskType s)
  = if JS.includes ModelManager.inheritedNames taskType
    then Throw (Error "preferredModels is not iterable")
    else defaultPolicy (JS.values pm) taskType.
Proof.
  intros Hpm. unfold ModelManager.selectModelByTaskType, defaultPolicy.
  destruct (JS.includes ModelManager.inheritedNames taskType); [reflexivity |].
  unfold bind.
  pose proof (firstFound_result pm (ModelManager.preferredModels taskType) s Hpm) as Hfound.
  pose proof (quiet_providers _ pm s
                (quiet_firstFound (ModelManager.preferredModels taskType)) Hpm) as Hpm'.
  destruct (ModelManager.firstFound (ModelManager.preferredModels taskType) s) as [found s1].
  cbn [fst snd] in *. subst found.
  destruct (tableChoice (JS.values pm) (ModelManager.preferredModels taskType));
    [reflexivity |].
  unfold ModelManager.getAvailableModels, bind, ModelManager.this.
  destruct (modelManager s1) as [mm |]; [| discriminate]. injection Hpm' as <-.
  pose proof (getAvailableModels_loop_result (JS.values (providers mm)) [] s1) as Havailable.
  destruct (ModelManager.getAvailableModels_loop (JS.values (providers mm)) [] s1)
    as [available s2].
  cbn [fst] in Havailable. subst available. cbn [app].
  by destruct (availableUnion (JS.values (providers mm))).
Qed.

Lemma set_currentModel_effect (pm : list (string * IModelProvider)) (model : IModelInfo)
    (s : State) :
  providers <$> modelManager s = Some pm ->
  exists s', ModelManager.set_currentModel model s = (Normal tt, s')
             /\ modelManager s' = Some {| providers := pm; currentModel := Some model |}.
Proof.
  intros Hpm. eexists. split; [reflexivity |]. cbn.
  destruct (modelManager s) as [mm |]; [| discriminate]. by injection Hpm as <-.
Qed.

(** What [ModelManager.selectModel] returns is what the policy says, and
    the model returned is recorded as the current model. *)
Lemma selectModel_result (pm : list (string * IModelProvider)) (taskType : string)
    (preferredModel : option string) (s : State) :
  providers <$> modelManager s = Some pm ->
  exists s',
    ModelManager.selectModel taskType preferredModel s
    = (selectionPolicy (JS.values pm) taskType preferredModel, s')
    /\ forall model,
         selectionPolicy (JS.values pm) taskType preferredModel = Normal model ->
         modelManager s' = Some {| providers := pm; currentModel := Some model |}.
Proof.
  intros Hpm. unfold ModelManager.selectModel, selectionPolicy.
  rewrite (bind_normal (ModelManager.this "selectModel") _ s
             (default {| providers := pm; currentModel := None |} (modelManager s)) s)
    by (unfold ModelManager.this; destruct (modelManager s); [reflexivity | discriminate]).
  set (preferred := match preferredModel with
                    | Some (String c p) => ModelManager.findModel (String c p)
                    | _ => ret None
                    end).
  set (found := match preferredModel with
                | Some (String c p) => listed (JS.values pm) (String c p)
                | _ => None
                end).
  assert (fst (preferred s) = Normal found
          /\ providers <$> modelManager (snd (preferred s)) = Some pm) as [Hfound Hpm1].
  { unfold preferred, found. destruct preferredModel as [[| c p] |]; try done.
    split; [by apply findModel_result | by apply quiet_providers; [apply quiet_findModel |]]. }
  unfold bind at 1. destruct (preferred s) as [c1 s1]. cbn [fst snd] in *. subst c1.
  destruct found as [model |].
  - destruct (set_currentModel_effect pm model s1 Hpm1) as (s2 & Hset & Hmm2).
    exists s2. unfold bind. rewrite Hset. split; [reflexivity |]. by intros ? [= <-].
  - pose proof (selectModelByTaskType_result pm taskType s1 Hpm1) as Hdefault.
    pose proof (quiet_providers _ pm s1 (quiet_selectModelByTaskType taskType) Hpm1) as Hpm2.
    unfold bind at 1.
    destruct (ModelManager.selectModelByTaskType taskType s1) as [c2 s2].
    cbn [fst snd] in *. subst c2.
    destruct (if JS.includes ModelManager.inheritedNames taskType
              then Throw (Error "preferredModels is not iterable")
              else defaultPolicy (JS.values pm) taskType) as [model | error].
    + destruct (set_currentModel_effect pm model s2 Hpm2) as (s3 & Hset & Hmm3).
      exists s3. unfold bind. rewrite Hset. split; [reflexivity |]. by intros ? [= <-].
    + exists s2. split; [reflexivity |]. discriminate.
Qed.

Lemma orchestrator_selectModel (request : IAgentRequest) :
  AgentOrchestrator.selectModel request
  = ModelManager.selectModel (taskTypeOf (req_type request)) (req_options request ≫= opt_model).
Proof. unfold AgentOrchestrator.selectModel. by destruct (req_type request). Qed.

Lemma listed_sound (ps : list IModelProvider) (modelName : string) (model : IModelInfo) :
  listed ps modelName = Some model ->
  ModelManager.nameMatches modelName model = true
  /\ exists provider models,
       provider ∈ ps /\ prov_listModels provider = Normal models /\ model ∈ models.
Proof.
  induction ps as [| provider rest IH]; cbn [listed]; [discriminate |].
  destruct (prov_listModels provider) as [models | error] eqn:Hlist.
  - destruct (List.find (ModelManager.nameMatches modelName) models) as [found |] eqn:Hfind.
    + intros [= ->]. apply find_some in Hfind as [Hin Hmatch]. split; [exact Hmatch |].
      exists provider, models. repeat split; [apply list_elem_of_here | done |].
      by apply list_elem_of_In.
    + intros Hrest. destruct (IH Hrest) as (Hmatch & p & ms & Hp & Hms & Hin).
      split; [exact Hmatch |]. exists p, ms. repeat split; [by apply list_elem_of_further | done..].
  - intros Hrest. destruct (IH Hrest) as (Hmatch & p & ms & Hp & Hms & Hin).
    split; [exact Hmatch |]. exists p, ms. repeat split; [by apply list_elem_of_further | done..].
Qed.

Lemma listed_complete (ps : list IModelProvider) (modelName : string) :
  (exists provider models model,
      provider ∈ ps /\ prov_listModels provider = Normal models
      /\ model ∈ models /\ ModelManager.nameMatches modelName model = true) ->
  exists model, listed ps modelName = Some model.
Proof.
  intros (provider & models & model & Hp & Hlist & Hin & Hmatch).
  induction ps as [| p rest IH]; [by apply elem_of_nil in Hp |].
  cbn [listed]. apply elem_of_cons in Hp as [<- | Hp].
  - rewrite Hlist.
    destruct (List.find (ModelManager.nameMatches modelName) models) as [found |] eqn:Hfind;
      [by eexists |].
    apply list_elem_of_In in Hin. pose proof (find_none _ _ Hfind _ Hin). congruence.
  - destruct (prov_listModels p) as [ms | error]; [| by apply IH].
    destruct (List.find (ModelManager.nameMatches modelName) ms); [by eexists | by apply IH].
Qed.

Lemma prefix_refl (s : string) : String.prefix s s = true.
Proof. induction s as [| c s IH]; cbn; [reflexivity |]. by destruct (ascii_dec c c). Qed.

Lemma str_includes_refl (s : string) : JS.str_includes s s = true.
Proof. destruct s; cbn [JS.str_includes]; by rewrite prefix_refl. Qed.

(** The listing of the Ollama provider holds no match for a name that
    none of the reported names contains. *)
Lemma ollama_no_match (modelName : string) (tags : list string) :
  Forall (fun name => JS.str_includes name modelName = false) tags ->
  List.find (ModelManager.nameMatches modelName)
    (List.map (fun name =>
                 {| mi_name := name; mi_provider := "ollama"; mi_type := local;
                    mi_capabilities := ["code"; "chat"; "instruction"];
                    mi_contextLength := 4096; mi_costPerToken := Some (0 # 1) |}) tags)
  = None.
Proof.
  induction 1 as [| name rest Hname _ IH]; cbn [List.map List.find]; [reflexivity |].
  unfold ModelManager.nameMatches at 1. cbn [mi_name]. rewrite Hname, orb_false_r.
  destruct (String.eqb_spec name modelName) as [-> | _]; [| exact IH].
  by rewrite str_includes_refl in Hname.
Qed.

(** The task types that the orchestrator passes are keys of the table. *)
Lemma taskTypeOf_own (type : RequestType) :
  (taskTypeOf type ∉ ModelManager.inheritedNames)
  /\ is_Some (JS.get (taskTypeOf type) ModelManager.taskModelMap).
Proof. split; [apply includes_false |]; by destruct type. Qed.

(** A task type that names an inherited property of the table makes
    selection throw, where an unknown one falls back to the general list. *)
Example inherited_task_type_run :
  fst (ModelManager.selectModel "toString" None (sampleState chatAnswers))
  = Throw (Error "preferredModels is not iterable")
  /\ mi_name <$> returned (fst (ModelManager.selectModel "translation" None
                                  (sampleState chatAnswers)))
     = Some "codellama".
Proof. vm_compute. by split. Qed.

Lemma listed_none (ps : list IModelProvider) (modelName : string) :
  (forall provider models model,
      provider ∈ ps -> prov_listModels provider = Normal models -> model ∈ models ->
      ModelManager.nameMatches modelName model = false) ->
  listed ps modelName = None.
Proof.
  intros Hnone. destruct (listed ps modelName) as [model |] eqn:Hlisted; [| reflexivity].
  destruct (listed_sound _ _ _ Hlisted) as (Hmatch & provider & models & Hp & Hlist & Hin).
  rewrite (Hnone provider models model Hp Hlist Hin) in Hmatch. discriminate.
Qed.

(** C7. When no preferred model is given (none, or the empty string) or
    no listing holds a match for it, selection follows the default policy
    (for every task type of the table, and for every other name that the
    table does not inherit from [Object.prototype]):
    the names of the table for the task type are tried in order and the
    first one found in a listing is returned; if none of them is found, the
    first model of the union of the listings of the available providers is
    returned; and if that union is empty, selection fails with the error "No
    models available". *)
Theorem default_selection_policy (pm : list (string * IModelProvider)) (taskType : string)
    (preferredModel : option string) (s : State) :
  providers <$> modelManager s = Some pm ->
  taskType ∉ ModelManager.inheritedNames ->
  (preferredModel = None \/ preferredModel = Some ""
   \/ exists p, preferredModel = Some p
                /\ forall provider models model,
                     provider ∈ JS.values pm -> prov_listModels provider = Normal models ->
                     model ∈ models -> ModelManager.nameMatches p model = false) ->
  exists s',
    ModelManager.selectModel taskType preferredModel s
    = (defaultPolicy (JS.values pm) taskType, s')
    /\ (forall model,
           tableChoice (JS.values pm) (ModelManager.preferredModels taskType) = Some model ->
           defaultPolicy (JS.values pm) taskType = Normal model)
    /\ (forall model rest,
           tableChoice (JS.values pm) (ModelManager.preferredModels taskType) = None ->
           availableUnion (JS.values pm) = model :: rest ->
           defaultPolicy (JS.values pm) taskType = Normal model)
    /\ (tableChoice (JS.values pm) (ModelManager.preferredModels taskType) = None ->
        availableUnion (JS.values pm) = [] ->
        defaultPolicy (JS.values pm) taskType = Throw (Error "No models available")).
Proof.
  intros Hpm Hown Hpreferred.
  destruct (selectModel_result pm taskType preferredModel s Hpm) as (s' & Hrun & _).
  apply includes_false in Hown.
  exists s'. split.
  - rewrite Hrun. f_equal. unfold selectionPolicy. rewrite Hown.
    destruct Hpreferred as [-> | [-> | (p & -> & Hnone)]]; try reflexivity.
    destruct p as [| c p]; [reflexivity |]. by rewrite (listed_none _ _ Hnone).
  - unfold defaultPolicy. repeat split.
    + by intros model ->.
    + by intros model rest -> ->.
    + by intros -> ->.
Qed.

Lemma default_selection_policy_witness :
  exists s',
    ModelManager.selectModel "debugging" None (sampleState chatAnswers)
    = (defaultPolicy (JS.values (providers (sampleModels chatAnswers))) "debugging", s')
    /\ defaultPolicy (JS.values (providers (sampleModels chatAnswers))) "debugging"
       = Normal {| mi_name := "codellama"; mi_provider := "huggingface"; mi_type := api;
                   mi_capabilities := ["code"; "chat"; "instruction"];
                   mi_contextLength := 16384; mi_costPerToken := Some (1 # 10000) |}.
Proof.
  assert ("debugging" ∉ ModelManager.inheritedNames) as Hown
    by (apply includes_false; reflexivity).
  destruct (default_selection_policy (providers (sampleModels chatAnswers)) "debugging" None
              (sampleState chatAnswers) eq_refl Hown (or_introl eq_refl))
    as (s' & Hrun & Htable & _).
  exists s'. split; [exact Hrun |]. by apply Htable.
Defined.

(** A model that is in no table is chosen when its provider is
    available, and selection fails when it is not.  A model of the table is
    chosen from its listing even when its provider is not available. *)
Example default_policy_runs :
  mi_name <$> returned (defaultPolicy [localProvider true ["mistral"; "phi"]] "debugging")
  = Some "mistral"
  /\ defaultPolicy [localProvider false ["mistral"; "phi"]] "debugging"
     = Throw (Error "No models available")
  /\ mi_name <$> returned (defaultPolicy [localProvider false ["mistral"; "codellama:7b"]]
                             "debugging")
     = Some "codellama:7b".
Proof. vm_compute. by repeat split. Qed.

(** ** The course of [execute] *)

Lemma bind_assoc {A B C : Type} (m : M A) (k : A -> M B) (h : B -> M C) (s : State) :
  bind (bind m k) h s = bind m (fun a => bind (k a) h) s.
Proof. unfold bind. by destruct (m s) as [[a | e] s']. Qed.

Lemma bind_ext {A B : Type} (m : M A) (k k' : A -> M B) (s : State) :
  (forall a s', k a s' = k' a s') -> bind m k s = bind m k' s.
Proof. intros Hk. unfold bind. destruct (m s) as [[a | e] s']; [apply Hk | reflexivity]. Qed.

Lemma execute_try_steps (pending : M unit) (request : IAgentRequest) (startTime : Z)
    (abortController : nat) (s : State) :
  AgentOrchestrator.execute_try pending request startTime abortController (entered request s)
  = (answer <- obtainModelAnswer pending request abortController ;;
     deliver request startTime answer) (started request s).
Proof.
  unfold AgentOrchestrator.execute_try, obtainModelAnswer.
  rewrite (bind_normal (fire _) _ _ _ _ eq_refl).
  rewrite (bind_normal (log _ _ _) _ _ _ _ eq_refl).
  fold (started request s). generalize (started request s). intros s1.
  rewrite bind_assoc. apply bind_ext. intros model s2.
  rewrite bind_assoc. apply bind_ext. intros context s3.
  rewrite bind_assoc. apply bind_ext. intros modelRequest s4.
  rewrite bind_assoc. apply bind_ext. intros toolResults s5.
  rewrite bind_assoc. apply bind_ext. intros modelResponse s6.
  reflexivity.
Qed.

(** [execute] in terms of its two parts: a failure of either part is
    caught and becomes the error response; the [finally] block comes
    last. *)
Lemma execute_course (pending : M unit) (request : IAgentRequest) (s : State) :
  AgentOrchestrator.execute pending request s
  = match obtainModelAnswer pending request (length (controllers s)) (started request s) with
    | (Normal answer, s2) =>
        match deliver request (clock (world s) (ticks s)) answer s2 with
        | (Normal response, s3) => (Normal response, finished request s3)
        | (Throw error, s3) =>
            (Normal (errorResponse request error), finished request (caught request error s3))
        end
    | (Throw error, s2) =>
        (Normal (errorResponse request error), finished request (caught request error s2))
    end.
Proof.
  rewrite execute_blocks. unfold try_finally, try_catch. rewrite execute_try_steps.
  unfold bind at 1.
  destruct (obtainModelAnswer pending request (length (controllers s)) (started request s))
    as [[answer | error] s2]; [| reflexivity].
  by destruct (deliver request (clock (world s) (ticks s)) answer s2) as [[response | error] s3].
Qed.

Lemma storeInteraction_returns (request : IAgentRequest) (responseContent : string) (s : State) :
  is_Some (memorySystem s) ->
  exists s', MemorySystem.storeInteraction request responseContent s = (Normal tt, s').
Proof.
  intros [ms Hms]. unfold MemorySystem.storeInteraction.
  rewrite (bind_normal (MemorySystem.this "storeInteraction") _ s ms s)
    by (unfold MemorySystem.this; by rewrite Hms).
  match goal with |- context [try_catch ?body ?handler s] =>
    destruct (try_catch_returns body handler s) as ([] & s' & Hrun) end.
  { intros e s0. by eexists _, _. }
  by exists s'.
Qed.

Lemma storeInteraction_throws (request : IAgentRequest) (responseContent : string)
    (error : Exn) (s s' : State) :
  MemorySystem.storeInteraction request responseContent s = (Throw error, s') -> s' = s.
Proof.
  destruct (memorySystem s) as [ms |] eqn:Hms.
  - destruct (storeInteraction_returns request responseContent s) as (s1 & Hrun); [by eexists |].
    rewrite Hrun. discriminate.
  - unfold MemorySystem.storeInteraction, bind, MemorySystem.this. rewrite Hms. by intros [= _ <-].
Qed.

(** Step 8 on a state with a memory system: the response is returned
    and [DidReceiveResponse] is the one event fired. *)
Lemma deliver_returns (request : IAgentRequest) (startTime : Z) (answer : ModelAnswer)
    (s : State) :
  is_Some (memorySystem s) ->
  exists response s',
    deliver request startTime answer s = (Normal response, s')
    /\ events s' = (events s ++ [DidReceiveResponse response])%list.
Proof.
  intros Hms. destruct answer as [[[model context] toolResults] modelResponse].
  unfold deliver, AgentOrchestrator.enhanceResponse.
  rewrite (bind_normal (ret _) _ _ _ _ eq_refl).
  match goal with |- context [MemorySystem.storeInteraction request ?c] =>
    destruct (storeInteraction_returns request c s Hms) as (s1 & Hstore);
    pose proof (silent_storeInteraction request c s) as Hevents end.
  unfold same_events in Hevents.
  rewrite Hstore in Hevents. cbn [snd] in Hevents.
  rewrite (bind_normal _ _ _ _ _ Hstore).
  eexists _, _. split; [reflexivity |]. cbn. by rewrite Hevents.
Qed.

(** Whatever step 8 returns is a success response that carries the tool
    results and the name and provider of the selected model. *)
Lemma deliver_response (request : IAgentRequest) (startTime : Z) (model : IModelInfo)
    (context : IAgentContext) (toolResults : list IAgentToolResult)
    (modelResponse : IModelResponse) (response : IAgentResponse) (s s' : State) :
  deliver request startTime (model, context, toolResults, modelResponse) s
  = (Normal response, s') ->
  resp_error response = None
  /\ resp_requestId response = req_id request
  /\ resp_tools response = Some toolResults
  /\ exists metadata,
       resp_metadata response = Some metadata
       /\ md_model metadata = mi_name model /\ md_provider metadata = mi_provider model.
Proof.
  unfold deliver, AgentOrchestrator.enhanceResponse.
  rewrite (bind_normal (ret _) _ _ _ _ eq_refl). unfold bind at 1.
  destruct (MemorySystem.storeInteraction request _ s) as [[[] | e] s1]; [| discriminate].
  intros [= <- _]. cbn. repeat split. by eexists.
Qed.

Lemma deliver_throws (request : IAgentRequest) (startTime : Z) (answer : ModelAnswer)
    (error : Exn) (s s' : State) :
  deliver request startTime answer s = (Throw error, s') -> s' = s.
Proof.
  destruct answer as [[[model context] toolResults] modelResponse].
  unfold deliver, AgentOrchestrator.enhanceResponse.
  rewrite (bind_normal (ret _) _ _ _ _ eq_refl). unfold bind at 1.
  destruct (MemorySystem.storeInteraction request _ s) as [[[] | e] s1] eqn:Hstore.
  - discriminate.
  - intros [= _ <-]. by apply storeInteraction_throws in Hstore.
Qed.

Lemma quiet_obtainModelAnswer (pending : M unit) (request : IAgentRequest)
    (abortController : nat) :
  quiet pending -> quiet (obtainModelAnswer pending request abortController).
Proof.
  intros Hp. unfold obtainModelAnswer.
  pose proof (quiet_selectModel request). pose proof (quiet_gatherContext request).
  pose proof (quiet_executeTools request).
  pose proof (fun modelRequest =>
                quiet_ModelManager_execute pending modelRequest abortController
                  (AgentOrchestrator.effectiveTimeout request) Hp).
  unfold AgentOrchestrator.prepareModelRequest. frame_auto.
Qed.

Lemma gatherContext_normal (request : IAgentRequest) (context : IAgentContext) (s s' : State) :
  AgentOrchestrator.gatherContext request s = (Normal context, s') -> is_Some (memorySystem s).
Proof.
  unfold AgentOrchestrator.gatherContext, MemorySystem.getConversationHistory, bind,
    MemorySystem.this.
  destruct (memorySystem s); [by eexists | discriminate].
Qed.

(** When the model has answered, the memory system is there to store
    the interaction. *)
Lemma obtainModelAnswer_memory (pending : M unit) (request : IAgentRequest)
    (abortController : nat) (answer : ModelAnswer) (s s' : State) :
  quiet pending ->
  obtainModelAnswer pending request abortController s = (Normal answer, s') ->
  is_Some (memorySystem s').
Proof.
  intros Hp Hrun.
  pose proof (quiet_obtainModelAnswer pending request abortController Hp s) as Hstable.
  rewrite Hrun in Hstable. cbn [snd] in Hstable. destruct Hstable as (_ & _ & -> & _).
  revert Hrun. unfold obtainModelAnswer. unfold bind at 1.
  pose proof (quiet_selectModel request s) as (_ & _ & Hm & _).
  destruct (AgentOrchestrator.selectModel request s) as [[model | e] s1]; [| discriminate].
  cbn [snd] in Hm. rewrite <- Hm. unfold bind at 1.
  destruct (AgentOrchestrator.gatherContext request s1) as [[context | e] s2] eqn:Hcontext;
    [| discriminate].
  intros _. by eapply gatherContext_normal.
Qed.

(** A failure of steps 3 to 7 is the failure of one of them: of model
    selection, of context assembly, of tool dispatch or of the model call. *)
Lemma obtainModelAnswer_throws (pending : M unit) (request : IAgentRequest)
    (abortController : nat) (error : Exn) (s : State) :
  fst (obtainModelAnswer pending request abortController s) = Throw error ->
  fst (AgentOrchestrator.selectModel request s) = Throw error
  \/ exists model s1,
       AgentOrchestrator.selectModel request s = (Normal model, s1)
       /\ (fst (AgentOrchestrator.gatherContext request s1) = Throw error
           \/ exists context s2,
                AgentOrchestrator.gatherContext request s1 = (Normal context, s2)
                /\ (fst (AgentOrchestrator.executeTools request s2) = Throw error
                    \/ exists toolResults s3 modelRequest,
                         AgentOrchestrator.executeTools request s2 = (Normal toolResults, s3)
                         /\ fst (AgentOrchestrator.prepareModelRequest request context model s2)
                            = Normal modelRequest
                         /\ fst (ModelManager.execute pending modelRequest abortController
                                   (AgentOrchestrator.effectiveTimeout request) s3)
                            = Throw error)).
Proof.
  unfold obtainModelAnswer. unfold bind at 1.
  destruct (AgentOrchestrator.selectModel request s) as [[model | e] s1]; [| intros [= ->]; by left].
  intros Hrun. right. exists model, s1. split; [reflexivity |]. revert Hrun.
  unfold bind at 1.
  destruct (AgentOrchestrator.gatherContext request s1) as [[context | e] s2]; [| intros [= ->]; by left].
  intros Hrun. right. exists context, s2. split; [reflexivity |]. revert Hrun.
  rewrite (bind_normal (AgentOrchestrator.prepareModelRequest _ _ _) _ _ _ _ eq_refl).
  unfold bind at 1.
  destruct (AgentOrchestrator.executeTools request s2) as [[toolResults | e] s3]; [| intros [= ->]; by left].
  intros Hrun. right. eexists toolResults, s3, _. split; [reflexivity |].
  split; [reflexivity |]. revert Hrun. unfold bind at 1.
  destruct (ModelManager.execute pending _ abortController _ s3) as [[answered | e] s4];
    [discriminate | by intros [= ->]].
Qed.

(** C3. A call of [execute], with any number of cancellations arriving
    while its model call is pending, returns a response and does not throw.
    If a step before the answer of the model fails (model selection, context
    assembly, tool dispatch or the model call), the response has empty
    content and carries the message of the failure, and the events fired are
    [DidStartRequest] and [DidEndRequest] only.  If the model answers, the
    response carries no error and [DidReceiveResponse] is fired in between.
    So the error is set exactly when such a step failed. *)
Theorem execute_error_iff_failure (requestIds : list string) (request : IAgentRequest)
    (s : State) :
  let attempt :=
    fst (obtainModelAnswer (AgentOrchestrator.cancels requestIds) request
           (length (controllers s)) (started request s)) in
  exists response s',
    AgentOrchestrator.execute (AgentOrchestrator.cancels requestIds) request s
    = (Normal response, s')
    /\ (forall error,
           attempt = Throw error ->
           resp_content response = ""
           /\ resp_error response = Some (messageOr error "Unknown error occurred")
           /\ events s'
              = (events s ++ [DidStartRequest request; DidEndRequest (req_id request)])%list)
    /\ (forall answer,
           attempt = Normal answer ->
           resp_error response = None
           /\ events s'
              = (events s ++ [DidStartRequest request; DidReceiveResponse response;
                              DidEndRequest (req_id request)])%list)
    /\ (is_Some (resp_error response) <-> exists error, attempt = Throw error).
Proof.
  intros attempt. subst attempt. rewrite execute_course.
  pose proof (quiet_obtainModelAnswer (AgentOrchestrator.cancels requestIds) request
                (length (controllers s)) (quiet_cancels requestIds) (started request s))
    as Hstable.
  destruct (obtainModelAnswer (AgentOrchestrator.cancels requestIds) request
              (length (controllers s)) (started request s)) as [[answer | error] s2] eqn:Hattempt;
    cbn [fst snd] in *; destruct Hstable as (_ & Hevents & _).
  - destruct (deliver_returns request (clock (world s) (ticks s)) answer s2)
      as (response & s3 & Hdeliver & Hreceived).
    { by eapply obtainModelAnswer_memory; [apply quiet_cancels |]. }
    rewrite Hdeliver. exists response, (finished request s3).
    destruct answer as [[[model context] toolResults] modelResponse].
    destruct (deliver_response _ _ _ _ _ _ _ _ _ Hdeliver) as (Hok & _).
    split; [reflexivity |]. split; [discriminate |]. split.
    + intros ? _. split; [exact Hok |]. cbn. rewrite Hreceived, Hevents. cbn.
      by rewrite <- !app_assoc.
    + rewrite Hok. split; [by intros [? ?] | by intros [? ?]].
  - exists (errorResponse request error), (finished request (caught request error s2)).
    split; [reflexivity |]. split; [| split].
    + intros ? [= <-]. split; [reflexivity |]. split; [reflexivity |].
      cbn. rewrite Hevents. cbn. by rewrite <- !app_assoc.
    + discriminate.
    + split; [by eexists | by eexists].
Qed.

Lemma execute_error_iff_failure_witness :
  exists response s',
    AgentOrchestrator.execute (AgentOrchestrator.cancels []) sampleRequest (sampleState chatFails)
    = (Normal response, s')
    /\ resp_content response = ""
    /\ resp_error response = Some "OpenAI API error: Service Unavailable"
    /\ events s' = [DidStartRequest sampleRequest; DidEndRequest "r1"].
Proof.
  destruct (execute_error_iff_failure [] sampleRequest (sampleState chatFails))
    as (response & s' & Hrun & Hfailure & _).
  exists response, s'. split; [exact Hrun |].
  apply (Hfailure (Error "OpenAI API error: Service Unavailable")).
  vm_compute. reflexivity.
Defined.

(** Whatever [execute] returns with an error set is the response of the
    [catch] block. *)
Lemma execute_error_response (pending : M unit) (request : IAgentRequest)
    (response : IAgentResponse) (s s' : State) :
  AgentOrchestrator.execute pending request s = (Normal response, s') ->
  is_Some (resp_error response) ->
  exists error, response = errorResponse request error.
Proof.
  rewrite execute_course.
  destruct (obtainModelAnswer pending request (length (controllers s)) (started request s))
    as [[answer | error] s2].
  - destruct (deliver request (clock (world s) (ticks s)) answer s2)
      as [[delivered | error] s3] eqn:Hdeliver.
    + intros [= <- _] Herror. destruct answer as [[[model context] toolResults] modelResponse].
      destruct (deliver_response _ _ _ _ _ _ _ _ _ Hdeliver) as (Hok & _).
      rewrite Hok in Herror. by destruct Herror.
    + intros [= <- _] _. by eexists.
  - intros [= <- _] _. by eexists.
Qed.

(** C9. A response of [execute] with the error set carries the id of the
    request, empty content and the error message, and neither tool results
    nor metadata -- whatever happened before the failing step, tools that
    ran with success included. *)
Theorem error_response_has_no_tool_results (pending : M unit) (request : IAgentRequest)
    (response : IAgentResponse) (s s' : State) :
  AgentOrchestrator.execute pending request s = (Normal response, s') ->
  is_Some (resp_error response) ->
  resp_requestId response = req_id request
  /\ resp_id response = req_id request +:+ "_error"
  /\ resp_content response = ""
  /\ resp_tools response = None
  /\ resp_metadata response = None.
Proof.
  intros Hrun Herror.
  destruct (execute_error_response pending request response s s' Hrun Herror) as (error & ->).
  by repeat split.
Qed.

(** The model call of the sample request fails after twelve tools have
    run with success; their results are not in the response. *)
Example failing_model_call_run :
  resp_error <$> returned (fst (AgentOrchestrator.execute (ret tt) sampleRequest
                                  (sampleState chatFails)))
  = Some (Some "OpenAI API error: Service Unavailable")
  /\ completedTools (logs (snd (AgentOrchestrator.execute (ret tt) sampleRequest
                                  (sampleState chatFails)))) = 12%nat.
Proof. vm_compute. by split. Qed.

Lemma error_response_has_no_tool_results_witness :
  exists response s',
    AgentOrchestrator.execute (ret tt) sampleRequest (sampleState chatFails)
    = (Normal response, s')
    /\ completedTools (logs s') = 12%nat
    /\ resp_error response = Some "OpenAI API error: Service Unavailable"
    /\ resp_requestId response = "r1"
    /\ resp_id response = "r1_error"
    /\ resp_content response = ""
    /\ resp_tools response = None
    /\ resp_metadata response = None.
Proof.
  destruct (execute_returns (ret tt) sampleRequest (sampleState chatFails))
    as (response & s' & Hrun).
  exists response, s'. split; [exact Hrun |].
  destruct failing_model_call_run as [Herror Htools].
  rewrite Hrun in Herror, Htools. cbn [fst snd returned fmap option_fmap option_map] in *.
  injection Herror as Herror.
  split; [exact Htools |]. split; [exact Herror |].
  apply (error_response_has_no_tool_results (ret tt) sampleRequest response
           (sampleState chatFails) s' Hrun).
  rewrite Herror. by eexists.
Defined.

(** C10. When [execute] returns a response with the error set -- a
    cancellation that makes the model call fail included -- the memory system
    is as it was before the call: every conversation, the knowledge entries,
    the code patterns and the graph; and so are the memory files.  The
    history of the request and every relevance search read the same after
    the call as before. *)
Theorem failed_request_leaves_memory (requestIds : list string) (request : IAgentRequest)
    (response : IAgentResponse) (s s' : State) :
  AgentOrchestrator.execute (AgentOrchestrator.cancels requestIds) request s
  = (Normal response, s') ->
  is_Some (resp_error response) ->
  memorySystem s' = memorySystem s
  /\ files s' = files s
  /\ fst (MemorySystem.getConversationHistory (req_id request) s')
     = fst (MemorySystem.getConversationHistory (req_id request) s)
  /\ forall query,
       fst (MemorySystem.searchRelevantKnowledge query s')
       = fst (MemorySystem.searchRelevantKnowledge query s).
Proof.
  enough (AgentOrchestrator.execute (AgentOrchestrator.cancels requestIds) request s
          = (Normal response, s') ->
          is_Some (resp_error response) ->
          memorySystem s' = memorySystem s /\ files s' = files s) as Hsame.
  { intros Hrun Herror. destruct (Hsame Hrun Herror) as [Hmemory Hfiles].
    split; [exact Hmemory |]. split; [exact Hfiles |].
    unfold MemorySystem.getConversationHistory, MemorySystem.searchRelevantKnowledge, bind,
      MemorySystem.this.
    rewrite Hmemory. split; [| intros query]; by destruct (memorySystem s). }
  rewrite execute_course.
  pose proof (quiet_obtainModelAnswer (AgentOrchestrator.cancels requestIds) request
                (length (controllers s)) (quiet_cancels requestIds) (started request s))
    as Hstable.
  destruct (obtainModelAnswer (AgentOrchestrator.cancels requestIds) request
              (length (controllers s)) (started request s)) as [[answer | error] s2] eqn:Hattempt;
    cbn [snd] in Hstable; destruct Hstable as (_ & _ & Hmemory & Hfiles & _).
  - destruct (deliver_returns request (clock (world s) (ticks s)) answer s2)
      as (delivered & s3 & Hdeliver & _).
    { by eapply obtainModelAnswer_memory; [apply quiet_cancels |]. }
    rewrite Hdeliver. intros [= <- _] Herror.
    destruct answer as [[[model context] toolResults] modelResponse].
    destruct (deliver_response _ _ _ _ _ _ _ _ _ Hdeliver) as (Hok & _).
    rewrite Hok in Herror. by destruct Herror.
  - intros [= _ <-] _. cbn. by rewrite Hmemory, Hfiles.
Qed.

(** The sample request is cancelled while its model call is pending. *)
Example cancelled_run :
  resp_error <$> returned (fst (AgentOrchestrator.execute (AgentOrchestrator.cancels ["r1"])
                                  sampleRequest (sampleState chatAnswers)))
  = Some (Some "This operation was aborted").
Proof. vm_compute. reflexivity. Qed.

Lemma failed_request_leaves_memory_witness :
  exists response s',
    AgentOrchestrator.execute (AgentOrchestrator.cancels ["r1"]) sampleRequest
      (sampleState chatAnswers)
    = (Normal response, s')
    /\ resp_error response = Some "This operation was aborted"
    /\ memorySystem s' = Some sampleMemory
    /\ files s' = ∅
    /\ fst (MemorySystem.getConversationHistory "r1" s')
       = fst (MemorySystem.getConversationHistory "r1" (sampleState chatAnswers))
    /\ forall query,
         fst (MemorySystem.searchRelevantKnowledge query s')
         = fst (MemorySystem.searchRelevantKnowledge query (sampleState chatAnswers)).
Proof.
  destruct (execute_returns (AgentOrchestrator.cancels ["r1"]) sampleRequest
              (sampleState chatAnswers)) as (response & s' & Hrun).
  exists response, s'. split; [exact Hrun |].
  pose proof cancelled_run as Herror.
  rewrite Hrun in Herror. cbn [fst returned fmap option_fmap option_map] in Herror.
  injection Herror as Herror.
  split; [exact Herror |].
  apply (failed_request_leaves_memory ["r1"] sampleRequest response (sampleState chatAnswers)
           s' Hrun).
  rewrite Herror. by eexists.
Defined.

(** ** The preferred model *)

(** The model of an answer is the one that selection returned. *)
Lemma obtainModelAnswer_model (pending : M unit) (request : IAgentRequest)
    (abortController : nat) (model : IModelInfo) (context : IAgentContext)
    (toolResults : list IAgentToolResult) (modelResponse : IModelResponse) (s s' : State) :
  obtainModelAnswer pending request abortController s
  = (Normal (model, context, toolResults, modelResponse), s') ->
  fst (AgentOrchestrator.selectModel request s) = Normal model.
Proof.
  unfold obtainModelAnswer. unfold bind at 1.
  destruct (AgentOrchestrator.selectModel request s) as [[chosen | e] s1]; [| discriminate].
  unfold bind at 1.
  destruct (AgentOrchestrator.gatherContext request s1) as [[gathered | e] s2]; [| discriminate].
  rewrite (bind_normal (AgentOrchestrator.prepareModelRequest _ _ _) _ _ _ _ eq_refl).
  unfold bind at 1.
  destruct (AgentOrchestrator.executeTools request s2) as [[results | e] s3]; [| discriminate].
  unfold bind at 1.
  destruct (ModelManager.execute pending _ abortController _ s3) as [[answered | e] s4];
    [| discriminate].
  by intros [= <- _ _ _ _].
Qed.

(** C6. When the request names a preferred model (a string that is not
    empty) and the listing of some provider holds a model whose name is that
    string or contains it, selection returns such a model: the first match in
    the order of the providers and of their listings, whatever the kind of
    the request and its table of defaults; it becomes the current model.
    With the providers of the source and no Ollama model whose name contains
    "gpt-4o", the preferred model "gpt-4o" selects provider "openai", model
    "gpt-4o" for every kind of request, and a response of [execute] without
    error names them in its metadata. *)
Theorem preferred_model_is_selected :
  (forall (pm : list (string * IModelProvider)) (request : IAgentRequest)
          (preferredModel : string) (s : State),
      providers <$> modelManager s = Some pm ->
      req_options request ≫= opt_model = Some preferredModel ->
      preferredModel <> "" ->
      (exists provider models model,
          provider ∈ JS.values pm /\ prov_listModels provider = Normal models
          /\ model ∈ models
          /\ (mi_name model = preferredModel
              \/ JS.str_includes (mi_name model) preferredModel = true)) ->
      exists model s',
        AgentOrchestrator.selectModel request s = (Normal model, s')
        /\ (mi_name model = preferredModel
            \/ JS.str_includes (mi_name model) preferredModel = true)
        /\ (exists provider models,
               provider ∈ JS.values pm /\ prov_listModels provider = Normal models
               /\ model ∈ models)
        /\ listed (JS.values pm) preferredModel = Some model
        /\ modelManager s' = Some {| providers := pm; currentModel := Some model |})
  /\ (forall (hfKey ollamaUp openaiKey : bool) (ollamaTags : option (list string))
             (ollamaChat openaiChat : IModelRequest -> ExecuteOptions -> Completion IModelResponse)
             (current : option IModelInfo) (request : IAgentRequest) (s : State),
         modelManager s
         = Some {| providers := ModelManager.initializeProviders hfKey ollamaUp ollamaTags
                                  ollamaChat openaiKey openaiChat;
                   currentModel := current |} ->
         req_options request ≫= opt_model = Some "gpt-4o" ->
         Forall (fun name => JS.str_includes name "gpt-4o" = false) (default [] ollamaTags) ->
         (exists s',
             AgentOrchestrator.selectModel request s = (Normal gpt4o, s')
             /\ mi_name gpt4o = "gpt-4o" /\ mi_provider gpt4o = "openai")
         /\ forall (pending : M unit) (response : IAgentResponse) (s' : State),
              AgentOrchestrator.execute pending request s = (Normal response, s') ->
              resp_error response = None ->
              exists metadata,
                resp_metadata response = Some metadata
                /\ md_model metadata = "gpt-4o" /\ md_provider metadata = "openai").
Proof.
  assert (forall name model,
             ModelManager.nameMatches name model = true
             <-> mi_name model = name \/ JS.str_includes (mi_name model) name = true) as Hmatches.
  { intros name model. unfold ModelManager.nameMatches.
    rewrite orb_true_iff. by destruct (String.eqb_spec (mi_name model) name); intuition. }
  assert (forall (hfKey ollamaUp openaiKey : bool) (ollamaTags : option (list string))
                 (ollamaChat openaiChat :
                    IModelRequest -> ExecuteOptions -> Completion IModelResponse)
                 (current : option IModelInfo) (request : IAgentRequest) (s : State),
             modelManager s
             = Some {| providers := ModelManager.initializeProviders hfKey ollamaUp ollamaTags
                                      ollamaChat openaiKey openaiChat;
                       currentModel := current |} ->
             req_options request ≫= opt_model = Some "gpt-4o" ->
             Forall (fun name => JS.str_includes name "gpt-4o" = false) (default [] ollamaTags) ->
             exists s', AgentOrchestrator.selectModel request s = (Normal gpt4o, s')) as Hgpt.
  { intros hfKey ollamaUp openaiKey ollamaTags ollamaChat openaiChat current request s
           Hmm Hpreferred Htags.
    destruct (selectModel_result
                (ModelManager.initializeProviders hfKey ollamaUp ollamaTags ollamaChat
                   openaiKey openaiChat)
                (taskTypeOf (req_type request)) (Some "gpt-4o") s) as (s' & Hrun & _).
    { by rewrite Hmm. }
    exists s'. rewrite orchestrator_selectModel, Hpreferred, Hrun. f_equal.
    unfold selectionPolicy.
    cbn [ModelManager.initializeProviders JS.set JS.values List.map snd listed String.eqb
         Ascii.eqb Bool.eqb ModelManager.HuggingFaceProvider ModelManager.OllamaProvider
         ModelManager.OpenAIProvider prov_listModels].
    rewrite (ollama_no_match "gpt-4o" (default [] ollamaTags) Htags).
    reflexivity. }
  split.
  - intros pm request preferredModel s Hpm Hpreferred Hgiven
           (provider & models & candidate & Hp & Hlist & Hin & Hmatch).
    destruct (listed_complete (JS.values pm) preferredModel) as (model & Hlisted).
    { exists provider, models, candidate. by rewrite Hmatches. }
    destruct (selectModel_result pm (taskTypeOf (req_type request)) (Some preferredModel) s Hpm)
      as (s' & Hrun & Hcurrent).
    assert (selectionPolicy (JS.values pm) (taskTypeOf (req_type request)) (Some preferredModel)
            = Normal model) as Hpolicy.
    { unfold selectionPolicy. destruct preferredModel as [| c p]; [done |]. by rewrite Hlisted. }
    exists model, s'. rewrite orchestrator_selectModel, Hpreferred, Hrun, Hpolicy.
    destruct (listed_sound _ _ _ Hlisted) as (Hname & Hfrom).
    split; [reflexivity |]. split; [by apply Hmatches |]. split; [exact Hfrom |].
    split; [exact Hlisted |]. by apply Hcurrent.
  - intros hfKey ollamaUp openaiKey ollamaTags ollamaChat openaiChat current request s
           Hmm Hpreferred Htags.
    split.
    + destruct (Hgpt _ _ _ _ _ _ _ _ _ Hmm Hpreferred Htags) as (s' & Hrun).
      by exists s'.
    + intros pending response s' Hrun Hok. rewrite execute_course in Hrun.
      destruct (obtainModelAnswer pending request (length (controllers s)) (started request s))
        as [[answer | error] s2] eqn:Hattempt.
      * destruct answer as [[[model context] toolResults] modelResponse].
        destruct (deliver request (clock (world s) (ticks s))
                    (model, context, toolResults, modelResponse) s2)
          as [[delivered | error] s3] eqn:Hdeliver.
        -- injection Hrun as <- _.
           destruct (deliver_response _ _ _ _ _ _ _ _ _ Hdeliver)
             as (_ & _ & _ & metadata & Hmetadata & Hmodel & Hprovider).
           apply obtainModelAnswer_model in Hattempt.
           destruct (Hgpt hfKey ollamaUp openaiKey ollamaTags ollamaChat openaiChat current
                       request (started request s) Hmm Hpreferred Htags) as (s4 & Hselected).
           rewrite Hselected in Hattempt. injection Hattempt as <-.
           by exists metadata.
        -- injection Hrun as <- _. discriminate.
      * injection Hrun as <- _. discriminate.
Qed.

Lemma preferred_model_is_selected_witness :
  exists model s',
    AgentOrchestrator.selectModel sampleRequest (sampleState chatAnswers) = (Normal model, s')
    /\ (mi_name model = "gpt-4o" \/ JS.str_includes (mi_name model) "gpt-4o" = true)
    /\ (exists provider models,
           provider ∈ JS.values (providers (sampleModels chatAnswers))
           /\ prov_listModels provider = Normal models /\ model ∈ models)
    /\ listed (JS.values (providers (sampleModels chatAnswers))) "gpt-4o" = Some model
    /\ modelManager s'
       = Some {| providers := providers (sampleModels chatAnswers); currentModel := Some model |}.
Proof.
  apply (proj1 preferred_model_is_selected
           (providers (sampleModels chatAnswers)) sampleRequest "gpt-4o"
           (sampleState chatAnswers) eq_refl eq_refl).
  - discriminate.
  - exists (ModelManager.OpenAIProvider true chatAnswers). eexists. exists gpt4o.
    split; [| split; [reflexivity | split; [apply list_elem_of_here | by left]]].
    cbn. do 2 apply list_elem_of_further. apply list_elem_of_here.
Defined.

(** ** Requests with the same id *)

Lemma entered_without_entry (request : IAgentRequest) (s : State) :
  entered request (set_activeRequests (delete (req_id request)) s) = entered request s.
Proof.
  unfold entered, set_activeRequests, set_controllers, set_ticks. cbn. f_equal.
  apply insert_delete_eq.
Qed.

Example duplicate_run :
  resp_error <$> returned (fst (AgentOrchestrator.execute (ret tt) sampleRequest inFlightState))
  = Some None
  /\ List.map Event_name
       (events (snd (AgentOrchestrator.execute (ret tt) sampleRequest inFlightState)))
     = ["onDidStartRequest(r1)"; "onDidStartRequest(r1)"; "onDidReceiveResponse(r1)";
        "onDidEndRequest(r1)"]
  /\ completedTools (logs (snd (AgentOrchestrator.execute (ret tt) sampleRequest inFlightState)))
     = 12%nat.
Proof. vm_compute. by repeat split. Qed.

Example concurrent_run :
  resp_error <$> returned (fst (AgentOrchestrator.execute secondSubmission sampleRequest
                                  (sampleState chatAnswers)))
  = Some None
  /\ List.map Event_name
       (events (snd (AgentOrchestrator.execute secondSubmission sampleRequest
                       (sampleState chatAnswers))))
     = ["onDidStartRequest(r1)"; "onDidStartRequest(r1)"; "onDidReceiveResponse(r1)";
        "onDidEndRequest(r1)"; "onDidReceiveResponse(r1)"; "onDidEndRequest(r1)"]
  /\ length (successes (events (snd (AgentOrchestrator.execute secondSubmission sampleRequest
                                       (sampleState chatAnswers))))) = 2%nat.
Proof. vm_compute. by repeat split. Qed.

(** C1 fails on the code.  A request whose id is in flight is executed
    like any other: it is
    registered under the same id with a handle of its own, the event
    [DidStartRequest] fires a second time, the tools run and the response
    carries no error.  And of two submissions of the same request that
    overlap, both start and both complete with success. *)
Lemma duplicate_request_is_executed :
  activeRequests inFlightState !! req_id sampleRequest = Some 0%nat
  /\ activeRequests (entered sampleRequest inFlightState) !! req_id sampleRequest = Some 1%nat
  /\ (exists response s',
         AgentOrchestrator.execute (ret tt) sampleRequest inFlightState = (Normal response, s')
         /\ resp_error response = None
         /\ List.map Event_name (events s')
            = ["onDidStartRequest(r1)"; "onDidStartRequest(r1)"; "onDidReceiveResponse(r1)";
               "onDidEndRequest(r1)"]
         /\ completedTools (logs s') = 12%nat)
  /\ (exists response s',
         AgentOrchestrator.execute secondSubmission sampleRequest (sampleState chatAnswers)
         = (Normal response, s')
         /\ resp_error response = None
         /\ List.map Event_name (events s')
            = ["onDidStartRequest(r1)"; "onDidStartRequest(r1)"; "onDidReceiveResponse(r1)";
               "onDidEndRequest(r1)"; "onDidReceiveResponse(r1)"; "onDidEndRequest(r1)"]
         /\ length (successes (events s')) = 2%nat).
Proof.
  split; [reflexivity |]. split; [reflexivity |]. split.
  - destruct (execute_returns (ret tt) sampleRequest inFlightState) as (response & s' & Hrun).
    exists response, s'. split; [exact Hrun |].
    destruct duplicate_run as (Herror & Hevents & Htools).
    rewrite Hrun in Herror, Hevents, Htools.
    cbn [fst snd returned fmap option_fmap option_map] in *.
    split; [by injection Herror | by split].
  - destruct (execute_returns secondSubmission sampleRequest (sampleState chatAnswers))
      as (response & s' & Hrun).
    exists response, s'. split; [exact Hrun |].
    destruct concurrent_run as (Herror & Hevents & Hboth).
    rewrite Hrun in Herror, Hevents, Hboth.
    cbn [fst snd returned fmap option_fmap option_map] in *.
    split; [by injection Herror | by split].
Qed.

(** C1, as the code has it. [execute] makes no check for a request with
    the same id: a call made while the id of the request is in flight runs
    as it would without that entry, with the same response, the same events
    and the same final state.  It puts its own new handle in the place of the
    entry and fires [DidStartRequest] before anything else. *)
Theorem execute_ignores_inflight_entry (request : IAgentRequest) (s : State) :
  (forall pending : M unit,
      AgentOrchestrator.execute pending request s
      = AgentOrchestrator.execute pending request
          (set_activeRequests (delete (req_id request)) s))
  /\ activeRequests (entered request s) !! req_id request = Some (length (controllers s))
  /\ (forall requestIds : list string,
         exists later,
           events (snd (AgentOrchestrator.execute (AgentOrchestrator.cancels requestIds)
                          request s))
           = (events s ++ DidStartRequest request :: later)%list).
Proof.
  split; [| split].
  - intros pending. by rewrite !execute_blocks, entered_without_entry.
  - apply lookup_insert_eq.
  - intros requestIds. rewrite execute_course.
    pose proof (quiet_obtainModelAnswer (AgentOrchestrator.cancels requestIds) request
                  (length (controllers s)) (quiet_cancels requestIds) (started request s))
      as Hstable.
    destruct (obtainModelAnswer (AgentOrchestrator.cancels requestIds) request
                (length (controllers s)) (started request s))
      as [[answer | error] s2] eqn:Hattempt;
      cbn [snd] in Hstable; destruct Hstable as (_ & Hevents & _).
    + destruct (deliver_returns request (clock (world s) (ticks s)) answer s2)
        as (response & s3 & Hdeliver & Hreceived).
      { by eapply obtainModelAnswer_memory; [apply quiet_cancels |]. }
      rewrite Hdeliver. cbn. rewrite Hreceived, Hevents. cbn.
      rewrite <- !app_assoc. by eexists.
    + cbn. rewrite Hevents. cbn. rewrite <- !app_assoc. by eexists.
Qed.

(** ** Tool failures *)

(** One run of a tool by [ToolSystem.executeTool]: the completion is that
    of the tool, nothing that was logged is lost, and a failure is logged
    with the time it took. *)
Lemma executeTool_run (t : ITool) (request : IAgentRequest) (s : State) :
  is_Some (toolSystem s) ->
  exists s',
    ToolSystem.executeTool t request s = (tool_execute t (toolContext request (world s)), s')
    /\ stable s s'
    /\ (forall entry, entry ∈ logs s -> entry ∈ logs s')
    /\ (forall error,
           tool_execute t (toolContext request (world s)) = Throw error ->
           failureLog request t error
             (clock (world s) (S (ticks s)) - clock (world s) (ticks s)) ∈ logs s').
Proof.
  intros [ts Hts].
  pose proof (quiet_executeTool t request s) as Hstable.
  unfold ToolSystem.executeTool in *.
  rewrite (bind_normal (ToolSystem.this "executeTool") _ s ts s) in *
    by (unfold ToolSystem.this; by rewrite Hts).
  rewrite (bind_normal Date_now _ _ _ _ eq_refl) in *.
  unfold try_catch in *.
  rewrite (bind_normal (log _ _ _) _ _ _ _ eq_refl) in *.
  rewrite (bind_normal (gets _) _ _ _ _ eq_refl) in *.
  cbn [world set_logs set_ticks] in *. fold (toolContext request (world s)) in *.
  unfold bind at 1 in Hstable. unfold bind at 1. unfold settle in *.
  destruct (tool_execute t (toolContext request (world s))) as [v | error].
  - eexists. split; [reflexivity |]. split; [exact Hstable |]. split; [| discriminate].
    intros entry Hentry. cbn. rewrite !elem_of_app. tauto.
  - eexists. split; [reflexivity |]. split; [exact Hstable |]. split.
    + intros entry Hentry. cbn. rewrite !elem_of_app. tauto.
    + intros ? [= <-]. cbn. rewrite !elem_of_app. right. apply list_elem_of_here.
Qed.

(** The loop of [executeTools] returns one record per tool, in order. *)
Lemma executeTools_loop_run (ts : list ITool) (request : IAgentRequest)
    (results : list IAgentToolResult) (s : State) :
  is_Some (toolSystem s) ->
  exists results' s',
    AgentOrchestrator.executeTools_loop ts request results s
    = (Normal (results ++ results')%list, s')
    /\ Forall2 (recorded request (world s)) ts results'
    /\ stable s s'
    /\ (forall entry, entry ∈ logs s -> entry ∈ logs s')
    /\ (forall t error,
           t ∈ ts -> tool_execute t (toolContext request (world s)) = Throw error ->
           exists duration, failureLog request t error duration ∈ logs s').
Proof.
  revert results s. induction ts as [| t rest IH]; intros results s Hts;
    cbn [AgentOrchestrator.executeTools_loop].
  - exists [], s. rewrite app_nil_r. split; [reflexivity |]. split; [constructor |].
    split; [apply stable_refl |]. split; [done |]. intros t error Ht. by apply elem_of_nil in Ht.
  - unfold bind at 1, try_catch.
    rewrite (bind_normal Date_now _ _ _ _ eq_refl).
    destruct (executeTool_run t request (set_ticks S s) Hts)
      as (s1 & Hrun & Hstable1 & Hkept1 & Hfailed1).
    cbn [world set_ticks] in Hrun, Hfailed1.
    unfold bind at 1. rewrite Hrun.
    assert (is_Some (toolSystem s1)) as Hts1.
    { destruct Hstable1 as (_ & _ & _ & _ & -> & _). exact Hts. }
    assert (world s1 = world s) as Hworld1 by apply Hstable1.
    destruct (tool_execute t (toolContext request (world s))) as [v | error] eqn:Htool.
    + rewrite (bind_normal Date_now _ _ _ _ eq_refl). cbn [ret].
      match goal with |- context [AgentOrchestrator.executeTools_loop rest request ?rs ?s2] =>
        destruct (IH rs s2 Hts1) as (results' & s' & Hloop & Hrecorded & Hstable & Hkept & Hfailed)
      end.
      cbn [world set_ticks] in Hrecorded, Hfailed. rewrite Hworld1 in Hrecorded, Hfailed.
      eexists (_ :: results'), s'. rewrite Hloop, <- app_assoc.
      split; [reflexivity |]. split.
      { constructor; [| exact Hrecorded]. split; [reflexivity |]. rewrite Htool. by split. }
      split.
      { eapply stable_trans; [| exact Hstable].
        eapply stable_trans; [| by repeat split]. exact Hstable1. }
      split.
      { intros entry Hentry. apply Hkept. cbn. by apply Hkept1. }
      intros t' error Ht' Hthrow. apply elem_of_cons in Ht' as [-> | Ht'].
      * congruence.
      * by apply (Hfailed t' error).
    + cbn [ret].
      match goal with |- context [AgentOrchestrator.executeTools_loop rest request ?rs ?s2] =>
        destruct (IH rs s2 Hts1) as (results' & s' & Hloop & Hrecorded & Hstable & Hkept & Hfailed)
      end.
      rewrite Hworld1 in Hrecorded, Hfailed.
      eexists (_ :: results'), s'. rewrite Hloop, <- app_assoc.
      split; [reflexivity |]. split.
      { constructor; [| exact Hrecorded]. split; [reflexivity |]. rewrite Htool. by repeat split. }
      split.
      { eapply stable_trans; [| exact Hstable]. exact Hstable1. }
      split.
      { intros entry Hentry. apply Hkept. by apply Hkept1. }
      intros t' error' Ht' Hthrow. apply elem_of_cons in Ht' as [-> | Ht'].
      * eexists. apply Hkept. apply Hfailed1. congruence.
      * by apply (Hfailed t' error').
Qed.

Lemma executeTools_run (request : IAgentRequest) (ts : ToolSystem) (s : State) :
  toolSystem s = Some ts ->
  exists results s',
    AgentOrchestrator.executeTools request s = (Normal results, s')
    /\ Forall2 (recorded request (world s))
         (List.filter (ToolSystem.selected (default [] (cfg_toolsEnabled (world s))) request)
                      (JS.values (tools ts)))
         results
    /\ stable s s'
    /\ (forall t error,
           t ∈ List.filter (ToolSystem.selected (default [] (cfg_toolsEnabled (world s))) request)
                           (JS.values (tools ts)) ->
           tool_execute t (toolContext request (world s)) = Throw error ->
           exists duration, failureLog request t error duration ∈ logs s').
Proof.
  intros Hts. unfold AgentOrchestrator.executeTools.
  rewrite (bind_normal _ _ _ _ _ (getToolsForRequest_run request ts s Hts)).
  destruct (List.filter _ _) as [| t rest].
  - exists [], s. split; [reflexivity |]. split; [constructor |]. split; [apply stable_refl |].
    intros t error Ht. by apply elem_of_nil in Ht.
  - destruct (executeTools_loop_run (t :: rest) request [] s)
      as (results & s' & Hloop & Hrecorded & Hstable & _ & Hfailed); [by rewrite Hts |].
    by exists results, s'.
Qed.

(** [executeTool] reads the clock twice. *)
Lemma executeTool_ticks (t : ITool) (request : IAgentRequest) (s : State) :
  is_Some (toolSystem s) ->
  ticks (snd (ToolSystem.executeTool t request s)) = S (S (ticks s)).
Proof.
  intros [ts Hts]. unfold ToolSystem.executeTool.
  rewrite (bind_normal (ToolSystem.this "executeTool") _ s ts s)
    by (unfold ToolSystem.this; by rewrite Hts).
  rewrite (bind_normal Date_now _ _ _ _ eq_refl).
  unfold try_catch.
  rewrite (bind_normal (log _ _ _) _ _ _ _ eq_refl).
  rewrite (bind_normal (gets _) _ _ _ _ eq_refl).
  unfold bind at 1. unfold settle.
  by destruct (tool_execute t _) as [v | error].
Qed.

(** The loop of [executeTools] by the clock: the failure of a tool is
    logged with the time measured for its call. *)
Lemma executeTools_loop_timed (ts : list ITool) (request : IAgentRequest)
    (results : list IAgentToolResult) (s : State) :
  is_Some (toolSystem s) ->
  exists results' s',
    AgentOrchestrator.executeTools_loop ts request results s
    = (Normal (results ++ results')%list, s')
    /\ ticks s' = (ticks s + readingsOf request (world s) ts)%nat
    /\ (forall entry, entry ∈ logs s -> entry ∈ logs s')
    /\ forall (i : nat) (t : ITool) (error : Exn),
         ts !! i = Some t ->
         tool_execute t (toolContext request (world s)) = Throw error ->
         failureLog request t error
           (measured (world s) (ticks s + readingsOf request (world s) (take i ts)))
         ∈ logs s'.
Proof.
  revert results s. induction ts as [| t rest IH]; intros results s Hts;
    cbn [AgentOrchestrator.executeTools_loop readingsOf].
  - exists [], s. rewrite app_nil_r. split; [reflexivity |]. split; [lia |]. split; [done |].
    intros i t error Hi. by rewrite lookup_nil in Hi.
  - unfold bind at 1, try_catch.
    rewrite (bind_normal Date_now _ _ _ _ eq_refl).
    destruct (executeTool_run t request (set_ticks S s) Hts)
      as (s1 & Hrun & Hstable1 & Hkept1 & Hfailed1).
    pose proof (executeTool_ticks t request (set_ticks S s) Hts) as Hticks1.
    rewrite Hrun in Hticks1. cbn [snd ticks set_ticks] in Hticks1.
    cbn [world ticks set_ticks] in Hrun, Hfailed1.
    unfold bind at 1. rewrite Hrun.
    assert (is_Some (toolSystem s1)) as Hts1.
    { destruct Hstable1 as (_ & _ & _ & _ & -> & _). exact Hts. }
    assert (world s1 = world s) as Hworld1 by apply Hstable1.
    unfold readings at 1.
    destruct (tool_execute t (toolContext request (world s))) as [v | error] eqn:Htool.
    + rewrite (bind_normal Date_now _ _ _ _ eq_refl). cbn [ret].
      match goal with |- context [AgentOrchestrator.executeTools_loop rest request ?rs ?s2] =>
        destruct (IH rs s2 Hts1) as (results' & s' & Hloop & Hticks & Hkept & Hfailed)
      end.
      cbn [world ticks logs set_ticks] in Hticks, Hkept, Hfailed.
      rewrite Hworld1 in Hticks, Hfailed.
      eexists (_ :: results'), s'. rewrite Hloop, <- app_assoc.
      split; [reflexivity |]. split; [rewrite Hticks, Hticks1; lia |]. split.
      { intros entry Hentry. apply Hkept. by apply Hkept1. }
      intros [| j] t' error' Hi Hthrow; cbn [lookup list_lookup] in Hi.
      * congruence.
      * cbn [take readingsOf]. unfold readings at 1. rewrite Htool.
        replace (ticks s + (4 + readingsOf request (world s) (take j rest)))%nat
          with (S (ticks s1) + readingsOf request (world s) (take j rest))%nat by lia.
        by apply Hfailed.
    + cbn [ret].
      match goal with |- context [AgentOrchestrator.executeTools_loop rest request ?rs ?s2] =>
        destruct (IH rs s2 Hts1) as (results' & s' & Hloop & Hticks & Hkept & Hfailed)
      end.
      rewrite Hworld1 in Hticks, Hfailed.
      eexists (_ :: results'), s'. rewrite Hloop, <- app_assoc.
      split; [reflexivity |]. split; [rewrite Hticks, Hticks1; lia |]. split.
      { intros entry Hentry. apply Hkept. by apply Hkept1. }
      intros [| j] t' error' Hi Hthrow; cbn [lookup list_lookup] in Hi.
      * injection Hi as <-. apply Hkept.
        cbn [take readingsOf]. rewrite Nat.add_0_r. unfold measured.
        apply Hfailed1. congruence.
      * cbn [take readingsOf]. unfold readings at 1. rewrite Htool.
        replace (ticks s + (3 + readingsOf request (world s) (take j rest)))%nat
          with (ticks s1 + readingsOf request (world s) (take j rest))%nat by lia.
        by apply Hfailed.
Qed.

Lemma executeTools_timed (request : IAgentRequest) (ts : ToolSystem) (s : State) :
  toolSystem s = Some ts ->
  exists results s',
    AgentOrchestrator.executeTools request s = (Normal results, s')
    /\ forall (i : nat) (t : ITool) (error : Exn),
         List.filter (ToolSystem.selected (default [] (cfg_toolsEnabled (world s))) request)
                     (JS.values (tools ts)) !! i = Some t ->
         tool_execute t (toolContext request (world s)) = Throw error ->
         failureLog request t error
           (measured (world s)
              (ticks s
               + readingsOf request (world s)
                   (take i (List.filter
                              (ToolSystem.selected (default [] (cfg_toolsEnabled (world s)))
                                 request)
                              (JS.values (tools ts))))))
         ∈ logs s'.
Proof.
  intros Hts. unfold AgentOrchestrator.executeTools.
  rewrite (bind_normal _ _ _ _ _ (getToolsForRequest_run request ts s Hts)).
  destruct (List.filter _ _) as [| t rest].
  - exists [], s. split; [reflexivity |]. intros i t error Hi. by rewrite lookup_nil in Hi.
  - destruct (executeTools_loop_timed (t :: rest) request [] s)
      as (results & s' & Hloop & _ & _ & Hfailed); [by rewrite Hts |].
    by exists results, s'.
Qed.

(** The tool results of an answer record the runs of the eligible
    tools. *)
Lemma obtainModelAnswer_tools (pending : M unit) (request : IAgentRequest)
    (abortController : nat) (ts : ToolSystem) (model : IModelInfo) (context : IAgentContext)
    (toolResults : list IAgentToolResult) (modelResponse : IModelResponse) (s s' : State) :
  toolSystem s = Some ts ->
  obtainModelAnswer pending request abortController s
  = (Normal (model, context, toolResults, modelResponse), s') ->
  Forall2 (recorded request (world s))
    (List.filter (ToolSystem.selected (default [] (cfg_toolsEnabled (world s))) request)
                 (JS.values (tools ts)))
    toolResults.
Proof.
  intros Hts. unfold obtainModelAnswer. unfold bind at 1.
  pose proof (quiet_selectModel request s) as (Hw1 & _ & _ & _ & Ht1 & _).
  destruct (AgentOrchestrator.selectModel request s) as [[chosen | e] s1]; [| discriminate].
  cbn [snd] in Hw1, Ht1. unfold bind at 1.
  pose proof (quiet_gatherContext request s1) as (Hw2 & _ & _ & _ & Ht2 & _).
  destruct (AgentOrchestrator.gatherContext request s1) as [[gathered | e] s2]; [| discriminate].
  cbn [snd] in Hw2, Ht2.
  rewrite (bind_normal (AgentOrchestrator.prepareModelRequest _ _ _) _ _ _ _ eq_refl).
  destruct (executeTools_run request ts s2) as (results & s3 & Hrun & Hrecorded & _).
  { by rewrite Ht2, Ht1. }
  rewrite Hw2, Hw1 in Hrecorded.
  rewrite (bind_normal _ _ _ _ _ Hrun). unfold bind at 1.
  destruct (ModelManager.execute pending _ abortController _ s3) as [[answered | e] s4];
    [| discriminate].
  by intros [= _ _ <- _ _].
Qed.


(** In the sample world the tool [read_file] fails; the request is
    answered and the first tool result records the failure. *)
Example failing_tool_run :
  (fun response => (resp_error response, head <$> resp_tools response))
    <$> returned (fst (AgentOrchestrator.execute (AgentOrchestrator.cancels []) sampleRequest
                         (sampleState chatAnswers)))
  = Some (None,
          Some (Some {| tr_name := "read_file"; tr_result := JNull;
                        tr_error := Some "The path argument must be of type string";
                        tr_duration := 0 |})).
Proof. vm_compute. reflexivity. Qed.


(** * Further properties *)

(** ** Tokens and scores *)

Lemma splitW_from_nonempty (s cur : string) (inSep : bool) : JS.splitW_from s cur inSep <> [].
Proof.
  revert cur inSep. induction s as [| c s IH]; intros cur inSep; cbn [JS.splitW_from]; [done |].
  destruct (JS.isWordChar c); [apply IH |]. destruct inSep; [apply IH | done].
Qed.

Lemma splitW_length (s : string) : (1 <= length (JS.splitW s))%nat.
Proof.
  unfold JS.splitW. pose proof (splitW_from_nonempty s "" false) as Hne.
  destruct (JS.splitW_from s "" false); [done | cbn; lia].
Qed.

Lemma filter_all_length {A : Type} (f : A -> bool) (l : list A) :
  length (List.filter f l) = length l <-> Forall (fun x => f x = true) l.
Proof.
  induction l as [| x l IH]; cbn [List.filter length].
  - split; [constructor | done].
  - pose proof (List.filter_length_le f l) as Hle.
    destruct (f x) eqn:Hx; cbn [length].
    + rewrite Forall_cons. split; [intros [= H]; by apply IH in H | intros [_ H]; f_equal; by apply IH].
    + split; [lia | inversion 1; congruence].
Qed.

Lemma filter_none_length {A : Type} (f : A -> bool) (l : list A) :
  length (List.filter f l) = 0%nat <-> Forall (fun x => f x = false) l.
Proof.
  induction l as [| x l IH]; cbn [List.filter length].
  - split; [constructor | done].
  - destruct (f x) eqn:Hx; cbn [length].
    + split; [lia | inversion 1; congruence].
    + rewrite Forall_cons, IH. tauto.
Qed.

Lemma calculateRelevance_quotient (query : string) (content : json) :
  MemorySystem.calculateRelevance query content
  = Z.of_nat (length (List.filter (JS.includes (JS.splitW (JS.toLowerCase (contentText content))))
                                  (JS.splitW (JS.toLowerCase query))))
    # Pos.of_nat (length (JS.splitW (JS.toLowerCase query))).
Proof.
  unfold MemorySystem.calculateRelevance. rewrite countMatches_filter.
  by destruct content.
Qed.

(** X1. The query always has at least one token, so the quotient of
    [calculateRelevance] is defined; the score lies between 0 and 1, it is 1
    exactly when every token of the query is a token of the content, and 0
    exactly when none is. *)
Theorem relevance_in_unit_interval (query : string) (content : json) :
  let queryWords := JS.splitW (JS.toLowerCase query) in
  let contentWords := JS.splitW (JS.toLowerCase (contentText content)) in
  let score := MemorySystem.calculateRelevance query content in
  (1 <= length queryWords)%nat
  /\ (0 <= score)%Q /\ (score <= 1)%Q
  /\ ((score == 1)%Q <-> Forall (fun word => word ∈ contentWords) queryWords)
  /\ ((score == 0)%Q <-> Forall (fun word => word ∉ contentWords) queryWords).
Proof.
  intros queryWords contentWords score.
  pose proof (splitW_length (JS.toLowerCase query)) as Hlen. fold queryWords in Hlen.
  split; [exact Hlen |].
  subst score. rewrite calculateRelevance_quotient. fold queryWords contentWords.
  pose proof (List.filter_length_le (JS.includes contentWords) queryWords) as Hle.
  pose proof (filter_all_length (JS.includes contentWords) queryWords) as Hall.
  pose proof (filter_none_length (JS.includes contentWords) queryWords) as Hnone.
  set (matches := length (List.filter (JS.includes contentWords) queryWords)) in *.
  assert (Z.pos (Pos.of_nat (length queryWords)) = Z.of_nat (length queryWords)) as Hpos.
  { rewrite <- positive_nat_Z, Nat2Pos.id by lia. reflexivity. }
  unfold Qle, Qeq. cbn [Qnum Qden]. rewrite Hpos.
  split; [lia |]. split; [lia |]. split.
  - rewrite <- (Forall_iff (fun word => JS.includes contentWords word = true))
      by (intros word; apply includes_true).
    rewrite <- Hall. lia.
  - rewrite <- (Forall_iff (fun word => JS.includes contentWords word = false))
      by (intros word; apply includes_false).
    rewrite <- Hnone. lia.
Qed.

Lemma isWordChar_lowerChar (c : ascii) : JS.isWordChar (JS.lowerChar c) = JS.isWordChar c.
Proof. by destruct c as [[] [] [] [] [] [] [] []]. Qed.

Lemma lastChar_toLowerCase (s : string) :
  lastChar (JS.toLowerCase s) = JS.lowerChar <$> lastChar s.
Proof.
  induction s as [| c s IH]; [reflexivity |].
  cbn [JS.toLowerCase lastChar]. destruct s as [| c' s]; [reflexivity |].
  cbn [JS.toLowerCase] in *. exact IH.
Qed.

(** A text that ends with a separator has an empty last token. *)
Lemma splitW_from_trailing (s cur : string) (inSep : bool) (c : ascii) :
  (inSep = true -> cur = "") -> lastChar s = Some c -> JS.isWordChar c = false ->
  "" ∈ JS.splitW_from s cur inSep.
Proof.
  revert cur inSep. induction s as [| a s IH]; intros cur inSep Hcur Hlast Hc; [discriminate |].
  cbn [JS.splitW_from]. cbn [lastChar] in Hlast. destruct s as [| a' s].
  - injection Hlast as ->. rewrite Hc. cbn [JS.splitW_from].
    destruct inSep; [rewrite Hcur by done; apply list_elem_of_here |].
    apply list_elem_of_further, list_elem_of_here.
  - destruct (JS.isWordChar a); [by apply IH |].
    destruct inSep; [by apply IH |]. apply list_elem_of_further. by apply IH.
Qed.

(** A text that starts with a separator has an empty first token. *)
Lemma splitW_leading (c : ascii) (rest : string) :
  JS.isWordChar c = false -> "" ∈ JS.splitW (String c rest).
Proof. intros Hc. unfold JS.splitW. cbn [JS.splitW_from]. rewrite Hc. apply list_elem_of_here. Qed.

Lemma filter_some_length {A : Type} (f : A -> bool) (l : list A) (x : A) :
  x ∈ l -> f x = true -> (1 <= length (List.filter f l))%nat.
Proof.
  intros Hx Hf. assert (x ∈ List.filter f l) as Hin.
  { apply list_elem_of_In, filter_In. split; [by apply list_elem_of_In | exact Hf]. }
  destruct (List.filter f l); [by apply elem_of_nil in Hin | cbn; lia].
Qed.

(** What an entry above the threshold contributes to the results *)
Lemma candidate_above (query : string) (entry : IMemoryEntry) :
  JS.gt (MemorySystem.calculateRelevance query (entry_content entry)) (3 # 10) = true ->
  entry_type entry = me_knowledge \/ entry_type entry = me_pattern ->
  MemorySystem.candidate query entry
  = Some {| ke_content := contentText (entry_content entry);
            ke_relevance := MemorySystem.calculateRelevance query (entry_content entry);
            ke_source := meta_source (entry_metadata entry);
            ke_type := MemoryEntryType_name (entry_type entry) |}.
Proof.
  intros Hgt Htype. unfold MemorySystem.candidate. rewrite Hgt.
  destruct (entry_content entry); by destruct Htype as [-> | ->].
Qed.

(** X2. A query that ends with a character that is no word character (a
    question mark, a full stop) and has at most three tokens admits every
    knowledge or pattern entry whose content is an object, whatever the
    entry says: the last token of the query is the empty one, and so is the
    first token of the JSON text of an object.  The search returns the entry
    when it has at most ten candidates. *)
Theorem punctuated_query_admits_objects (query : string) (c : ascii) (entry : IMemoryEntry)
    (fields : list (string * json)) :
  lastChar query = Some c -> JS.isWordChar c = false ->
  (length (JS.splitW (JS.toLowerCase query)) <= 3)%nat ->
  entry_type entry = me_knowledge \/ entry_type entry = me_pattern ->
  entry_content entry = JObj fields ->
  exists found,
    MemorySystem.candidate query entry = Some found
    /\ ke_content found = JS.stringify (JObj fields)
    /\ forall ms : MemorySystem,
         entry ∈ JS.values (memory ms) ->
         (length (MemorySystem.candidates ms query) <= 10)%nat ->
         found ∈ MemorySystem.relevantKnowledge ms query.
Proof.
  intros Hlast Hc Hshort Htype Hcontent.
  assert (JS.gt (MemorySystem.calculateRelevance query (entry_content entry)) (3 # 10) = true)
    as Hgt.
  { rewrite calculateRelevance_quotient, Hcontent.
    set (queryWords := JS.splitW (JS.toLowerCase query)) in *.
    set (contentWords := JS.splitW _).
    assert ("" ∈ queryWords) as Hq.
    { apply (splitW_from_trailing _ _ _ (JS.lowerChar c)); [done | |].
      - by rewrite lastChar_toLowerCase, Hlast.
      - by rewrite isWordChar_lowerChar. }
    assert (JS.includes contentWords "" = true) as Hin.
    { apply includes_true. subst contentWords. cbn [contentText JS.stringify].
      by apply splitW_leading. }
    pose proof (filter_some_length _ _ _ Hq Hin) as Hsome.
    pose proof (splitW_length (JS.toLowerCase query)) as Hlen. fold queryWords in Hlen.
    assert (Z.pos (Pos.of_nat (length queryWords)) = Z.of_nat (length queryWords)) as Hpos.
    { rewrite <- positive_nat_Z, Nat2Pos.id by lia. reflexivity. }
    unfold JS.gt, Qle_bool. cbn [Qnum Qden]. apply negb_true_iff, Z.leb_gt.
    rewrite Hpos. lia. }
  pose proof (candidate_above query entry Hgt Htype) as Hfound.
  eexists. split; [exact Hfound |]. split.
  - cbn [ke_content]. by rewrite Hcontent.
  - intros ms Hentry Hfew. unfold MemorySystem.relevantKnowledge.
    rewrite take_ge by (by rewrite sortByRelevance_length).
    apply sortByRelevance_elem. unfold MemorySystem.candidates.
    apply elem_of_app. left. apply list_elem_of_omap. by exists entry.
Qed.

Lemma punctuated_query_admits_objects_witness :
  MemorySystem.candidate "why Rust?" sortingEntry
  = Some {| ke_content := JS.stringify (entry_content sortingEntry);
            ke_relevance := 1 # 3;
            ke_source := "conversation";
            ke_type := "knowledge" |}.
Proof.
  assert (length (JS.splitW (JS.toLowerCase "why Rust?")) <= 3)%nat as Hshort
    by (vm_compute; lia).
  destruct (punctuated_query_admits_objects "why Rust?" "?" sortingEntry
              [("request", JStr "sort a list"); ("response", JStr "use the sort method")]
              eq_refl eq_refl Hshort (or_introl eq_refl) eq_refl) as (found & Hfound & _).
  rewrite Hfound. revert Hfound. vm_compute. by intros [= <-].
Defined.

(** ** Tags and topics *)

Lemma unique_from_elem (seen l : list string) (x : string) :
  x ∈ JS.unique_from seen l <-> x ∈ l /\ x ∉ seen.
Proof.
  revert seen. induction l as [| y l IH]; intros seen; cbn [JS.unique_from].
  - split; [intros Hx | intros [Hx _]]; by apply elem_of_nil in Hx.
  - destruct (JS.includes seen y) eqn:Hy.
    + apply includes_true in Hy. rewrite IH, elem_of_cons. split; [tauto |].
      intros [[-> | Hx] Hseen]; [done | tauto].
    + apply includes_false in Hy. rewrite elem_of_cons, IH, !elem_of_cons. split.
      * intros [-> | [Hx Hseen]]; [tauto |]. split; [tauto |]. tauto.
      * intros [[-> | Hx] Hseen]; [tauto |].
        destruct (decide (x = y)) as [-> | Hne]; [tauto |]. right. split; [done |]. tauto.
Qed.

Lemma unique_from_NoDup (seen l : list string) : NoDup (JS.unique_from seen l).
Proof.
  revert seen. induction l as [| y l IH]; intros seen; cbn [JS.unique_from]; [constructor |].
  destruct (JS.includes seen y); [apply IH |].
  constructor; [| apply IH]. rewrite unique_from_elem, elem_of_cons. tauto.
Qed.

Lemma unique_elem (l : list string) (x : string) : x ∈ JS.unique l <-> x ∈ l.
Proof.
  unfold JS.unique. rewrite unique_from_elem.
  split; [tauto | intros Hx; split; [exact Hx | apply not_elem_of_nil]].
Qed.

(** X3. [extractTags] returns each tag once, and a word is a tag exactly
    when it is one of the eleven keywords and a token of the text in lower
    case. *)
Theorem extractTags_distinct_keywords (text : string) :
  NoDup (MemorySystem.extractTags text)
  /\ forall tag : string,
       tag ∈ MemorySystem.extractTags text
       <-> tag ∈ tagKeywords /\ tag ∈ JS.splitW (JS.toLowerCase text).
Proof.
  unfold MemorySystem.extractTags. split; [apply unique_from_NoDup |].
  intros tag. rewrite unique_elem, list_elem_of_In, filter_In, <- list_elem_of_In.
  fold tagKeywords. rewrite includes_true. tauto.
Qed.

(** ** The tool registry *)

Section OrderedMapFacts.
Context {V : Type}.
Implicit Types (m : list (string * V)) (k : string) (v : V).

Lemma get_set_eq k v m : JS.get k (JS.set k v m) = Some v.
Proof.
  induction m as [| [k' v'] m IH]; cbn [JS.set JS.get].
  - by rewrite String.eqb_refl.
  - destruct (String.eqb k k') eqn:Hk; cbn [JS.get]; rewrite ?String.eqb_refl, ?Hk; done.
Qed.

Lemma get_set_ne k k' v m : k <> k' -> JS.get k' (JS.set k v m) = JS.get k' m.
Proof.
  intros Hne. induction m as [| [k0 v0] m IH]; cbn [JS.set JS.get].
  - by apply not_eq_sym, String.eqb_neq in Hne as ->.
  - destruct (String.eqb_spec k k0) as [<- | Hk0]; cbn [JS.get].
    + by apply not_eq_sym, String.eqb_neq in Hne as ->.
    + destruct (String.eqb k' k0); [reflexivity | exact IH].
Qed.

Lemma get_None_keys k m : JS.get k m = None <-> k ∉ JS.keys m.
Proof.
  induction m as [| [k' v'] m IH]; cbn [JS.get JS.keys List.map fst].
  - split; [intros _; apply not_elem_of_nil | done].
  - fold (JS.keys m). rewrite not_elem_of_cons.
    destruct (String.eqb_spec k k') as [-> | Hne]; [split; [done | tauto] |].
    rewrite IH. tauto.
Qed.

(** A new key goes to the end. *)
Lemma set_fresh k v m : k ∉ JS.keys m -> JS.set k v m = (m ++ [(k, v)])%list.
Proof.
  induction m as [| [k' v'] m IH]; cbn [JS.set JS.keys List.map fst app]; [done |].
  fold (JS.keys m). rewrite not_elem_of_cons. intros [Hne Hk].
  apply String.eqb_neq in Hne as ->. by rewrite IH.
Qed.

(** A known key keeps its place, and no key is added. *)
Lemma keys_set_known k v m : k ∈ JS.keys m -> JS.keys (JS.set k v m) = JS.keys m.
Proof.
  induction m as [| [k' v'] m IH]; cbn [JS.set JS.keys List.map fst].
  - intros Hk. by apply elem_of_nil in Hk.
  - fold (JS.keys m). destruct (String.eqb_spec k k') as [-> | Hne]; [done |].
    rewrite elem_of_cons. intros [-> | Hk]; [done |].
    cbn [List.map fst]. fold (JS.keys (JS.set k v m)). by rewrite IH.
Qed.

Lemma keys_set_NoDup k v m : NoDup (JS.keys m) -> NoDup (JS.keys (JS.set k v m)).
Proof.
  intros Hm. destruct (decide (k ∈ JS.keys m)) as [Hk | Hk].
  - by rewrite keys_set_known.
  - rewrite set_fresh by done. unfold JS.keys. rewrite map_app. cbn [List.map fst].
    apply NoDup_app. split; [exact Hm |]. split; [| apply NoDup_singleton].
    intros k' Hk' ->%list_elem_of_singleton. done.
Qed.

Lemma set_entries k v m (kv : string * V) :
  kv ∈ JS.set k v m -> kv = (k, v) \/ kv ∈ m.
Proof.
  induction m as [| [k' v'] m IH]; cbn [JS.set].
  - rewrite list_elem_of_singleton. tauto.
  - destruct (String.eqb k k'); rewrite !elem_of_cons; [tauto |]. intros [-> | Hkv]; [tauto |].
    destruct (IH Hkv); tauto.
Qed.
End OrderedMapFacts.

Lemma registerAll_snoc (registered : list ITool) (t : ITool) :
  registerAll (registered ++ [t]) = ToolSystem.registerTool t (registerAll registered).
Proof. unfold registerAll. by rewrite fold_left_app. Qed.

Lemma registerAll_entries (registered : list ITool) :
  Forall (fun kv => fst kv = tool_name (snd kv) /\ snd kv ∈ registered)
         (tools (registerAll registered)).
Proof.
  induction registered as [| t registered IH] using rev_ind; [constructor |].
  rewrite registerAll_snoc. apply Forall_forall. intros kv Hkv.
  apply set_entries in Hkv as [-> | Hkv].
  - split; [reflexivity |]. apply elem_of_app. right. apply list_elem_of_here.
  - rewrite Forall_forall in IH. destruct (IH kv Hkv) as [Hname Hin].
    split; [exact Hname |]. apply elem_of_app. by left.
Qed.

Lemma registerAll_keys (registered : list ITool) :
  JS.keys (tools (registerAll registered))
  = tool_name <$> JS.values (tools (registerAll registered)).
Proof.
  pose proof (registerAll_entries registered) as Hentries.
  revert Hentries. generalize (tools (registerAll registered)). intros m.
  induction 1 as [| [k t] m [Hname _] _ IH]; [reflexivity |].
  unfold JS.keys, JS.values in *. cbn [List.map fmap list_fmap fst snd] in *.
  f_equal; [exact Hname | exact IH].
Qed.

(** X4. Whatever tools are registered, in whatever order, the registry
    holds each name once and every tool under its own name; what is found
    under a name is the tool registered last with that name; and when the
    names registered are all different, [getAvailableTools] returns the tools
    in the order of registration -- as it does for the sixteen tools of
    [initializeTools]. *)
Theorem registerTool_replaces_by_name (registered : list ITool) :
  let ts := registerAll registered in
  NoDup (JS.keys (tools ts))
  /\ Forall (fun kv => fst kv = tool_name (snd kv) /\ snd kv ∈ registered) (tools ts)
  /\ (forall name : string,
         JS.get name (tools ts)
         = List.find (fun t => String.eqb name (tool_name t)) (rev registered))
  /\ (NoDup (tool_name <$> registered) -> JS.values (tools ts) = registered)
  /\ (forall (run : string -> IToolContext -> Completion json) (s : State),
         toolSystem s = Some (ToolSystem.initializeTools run) ->
         ToolSystem.getAvailableTools s = (Normal (ToolSystem.sourceTools run), s)).
Proof.
  cbv zeta. split; [| split; [| split; [| split]]].
  - induction registered as [| t registered IH] using rev_ind; [constructor |].
    rewrite registerAll_snoc. by apply keys_set_NoDup.
  - apply registerAll_entries.
  - intros name. induction registered as [| t registered IH] using rev_ind; [reflexivity |].
    rewrite registerAll_snoc, rev_app_distr. cbn [rev app List.find ToolSystem.registerTool tools].
    destruct (String.eqb_spec name (tool_name t)) as [-> | Hne].
    + apply get_set_eq.
    + rewrite get_set_ne by done. exact IH.
  - induction registered as [| t registered IH] using rev_ind; [reflexivity |].
    rewrite fmap_app, NoDup_app. intros (Hdistinct & Hfresh & _).
    rewrite registerAll_snoc. cbn [ToolSystem.registerTool tools].
    rewrite set_fresh.
    + unfold JS.values. rewrite map_app. cbn [List.map snd].
      fold (JS.values (tools (registerAll registered))). by rewrite IH.
    + rewrite registerAll_keys, IH by done. intros Hin. apply (Hfresh _ Hin).
      apply list_elem_of_here.
  - intros run s Hts. unfold ToolSystem.getAvailableTools, ToolSystem.this, bind, ret.
    by rewrite Hts.
Qed.

(** Registering a second tool under the name [read_file] replaces the
    first one in place: sixteen tools remain, and the first of them is the
    new one. *)
Example reregistered_tool_run :
  let ts := ToolSystem.registerTool readFileV2 (ToolSystem.initializeTools sampleRun) in
  length (tools ts) = 16%nat
  /\ tool_description <$> head (JS.values (tools ts)) = Some "Read a file (v2)".
Proof. vm_compute. by split. Qed.

(** ** Which tools a request runs *)

(** Every kind of request asks for the capability [general]. *)
Lemma general_required (type : RequestType) : "general" ∈ ToolSystem.capabilityMap type.
Proof. apply includes_true. by destruct type. Qed.

Lemma getToolsForRequest_result (request : IAgentRequest) (ts : ToolSystem) (s : State)
    (eligible : list ITool) :
  toolSystem s = Some ts ->
  fst (ToolSystem.getToolsForRequest request s) = Normal eligible ->
  eligible = List.filter (ToolSystem.selected (default [] (cfg_toolsEnabled (world s))) request)
                         (JS.values (tools ts)).
Proof. intros Hts. rewrite (getToolsForRequest_run request ts s Hts). by intros [= <-]. Qed.

(** X5. A tool that declares the capability [general] is eligible for
    every kind of request, since every row of the capability table holds
    [general].  So when no list of enabled tools is configured, every
    request -- a chat as well -- runs the eight tools of the source that
    declare it, [write_file], [run_terminal_command] and [run_command] among
    them. *)
Theorem general_tools_run_for_every_request
    (run : string -> IToolContext -> Completion json) (request : IAgentRequest) (s : State) :
  toolSystem s = Some (ToolSystem.initializeTools run) ->
  default [] (cfg_toolsEnabled (world s)) = [] ->
  exists eligible,
    ToolSystem.getToolsForRequest request s = (Normal eligible, s)
    /\ (forall t : ITool,
           t ∈ ToolSystem.sourceTools run -> "general" ∈ tool_capabilities t -> t ∈ eligible)
    /\ Forall (fun name => name ∈ (tool_name <$> eligible)) generalTools.
Proof.
  intros Hts Hnone. eexists. split; [by apply getToolsForRequest_run |].
  rewrite Hnone.
  assert (forall t : ITool,
             t ∈ ToolSystem.sourceTools run -> "general" ∈ tool_capabilities t ->
             t ∈ List.filter (ToolSystem.selected [] request)
                             (JS.values (tools (ToolSystem.initializeTools run)))) as Hgeneral.
  { intros t Ht Hcap. apply list_elem_of_In, filter_In. split; [by apply list_elem_of_In |].
    apply selected_true. split; [done |]. exists "general". split; [exact Hcap |].
    apply general_required. }
  split; [exact Hgeneral |].
  clear. destruct request as [requestId [] content context options];
    unfold generalTools;
    repeat (apply List.Forall_cons; [apply includes_true; vm_compute; reflexivity |]);
    apply List.Forall_nil.
Qed.

Lemma general_tools_run_for_every_request_witness :
  exists eligible,
    ToolSystem.getToolsForRequest chatRequest (sampleState chatAnswers)
    = (Normal eligible, sampleState chatAnswers)
    /\ tool_name <$> eligible = generalTools.
Proof.
  destruct (general_tools_run_for_every_request sampleRun chatRequest (sampleState chatAnswers)
              eq_refl eq_refl) as (eligible & Hrun & _).
  exists eligible. split; [exact Hrun |].
  apply (f_equal fst) in Hrun. cbn [fst] in Hrun.
  apply (f_equal returned) in Hrun. cbn [returned] in Hrun.
  assert (Some (tool_name <$> eligible) = Some generalTools) as Hnames; [| by injection Hnames].
  change (Some (tool_name <$> eligible)) with (fmap (M := option) (fmap tool_name) (Some eligible)).
  rewrite <- Hrun. vm_compute. reflexivity.
Defined.

(** X6. The tools [api_call] and [database_query] are never eligible:
    their capabilities ([web], [api], [database]) are asked for by no kind
    of request, so no request runs them, whatever list of enabled tools is
    configured. *)
Theorem api_and_database_tools_never_run
    (run : string -> IToolContext -> Completion json) (request : IAgentRequest) (s : State)
    (eligible : list ITool) :
  toolSystem s = Some (ToolSystem.initializeTools run) ->
  fst (ToolSystem.getToolsForRequest request s) = Normal eligible ->
  forall t : ITool, t ∈ eligible -> tool_name t <> "api_call" /\ tool_name t <> "database_query".
Proof.
  intros Hts Hrun t Ht.
  rewrite (getToolsForRequest_result _ _ _ _ Hts Hrun) in Ht.
  apply list_elem_of_In, filter_In in Ht as [Ht Hselected].
  apply list_elem_of_In in Ht. apply selected_true in Hselected as [_ (cap & Hcap & Hrequired)].
  change (JS.values (tools (ToolSystem.initializeTools run))) with (ToolSystem.sourceTools run)
    in Ht.
  unfold ToolSystem.sourceTools in Ht.
  repeat (apply elem_of_cons in Ht as [-> | Ht]); try (by apply elem_of_nil in Ht);
    cbn [tool_name ToolSystem.mkTool]; try (split; discriminate);
    exfalso; cbn [tool_capabilities ToolSystem.mkTool] in Hcap;
    repeat (apply elem_of_cons in Hcap as [-> | Hcap]); try (by apply elem_of_nil in Hcap);
    apply includes_true in Hrequired; by destruct (req_type request).
Qed.

Lemma api_and_database_tools_never_run_witness :
  Forall (fun t => tool_name t <> "api_call" /\ tool_name t <> "database_query")
         (List.filter (ToolSystem.selected [] sampleRequest)
                      (JS.values (tools (ToolSystem.initializeTools sampleRun)))).
Proof.
  apply Forall_forall.
  exact (api_and_database_tools_never_run sampleRun sampleRequest (sampleState chatAnswers) _
           eq_refl eq_refl).
Defined.

Lemma selected_nil (request : IAgentRequest) (t : ITool) :
  ToolSystem.selected [] request t = ToolSystem.toolCapabilitiesMatchRequest t request.
Proof. unfold ToolSystem.selected. cbn [length Nat.ltb Nat.leb]. by rewrite andb_false_r. Qed.

Lemma selected_cons (enabledTools : list string) (request : IAgentRequest) (t : ITool) :
  enabledTools <> [] ->
  ToolSystem.selected enabledTools request t
  = JS.includes enabledTools (tool_name t) && ToolSystem.toolCapabilitiesMatchRequest t request.
Proof.
  intros Hlist. unfold ToolSystem.selected.
  destruct enabledTools as [| name rest]; [done |]. cbn [length Nat.ltb Nat.leb].
  rewrite andb_true_r. by destruct (JS.includes (name :: rest) (tool_name t)).
Qed.

Lemma filter_andb {A : Type} (f g : A -> bool) (l : list A) :
  List.filter (fun x => f x && g x) l = List.filter f (List.filter g l).
Proof.
  induction l as [| x l IH]; [reflexivity |]. cbn [List.filter].
  destruct (g x); cbn [List.filter]; [| by rewrite andb_false_r].
  rewrite andb_true_r. destruct (f x); by rewrite IH.
Qed.

Lemma filter_nothing {A : Type} (f : A -> bool) (l : list A) :
  (forall x, x ∈ l -> f x = false) -> List.filter f l = [].
Proof.
  induction l as [| x l IH]; [reflexivity |]. intros Hnone. cbn [List.filter].
  rewrite (Hnone x) by apply list_elem_of_here. apply IH. intros y Hy.
  by apply Hnone, list_elem_of_further.
Qed.

(** X7. A configured list of enabled tools only removes tools: what a
    request gets with the list is what it gets without one, cut down to the
    tools that the list names, in the same order.  A list that names no
    registered tool leaves the request without tools. *)
Theorem enabled_list_only_removes (enabledTools : list string) (request : IAgentRequest)
    (ts : ToolSystem) (s s' : State) :
  toolSystem s = Some ts -> toolSystem s' = Some ts ->
  default [] (cfg_toolsEnabled (world s)) = [] ->
  cfg_toolsEnabled (world s') = Some enabledTools -> enabledTools <> [] ->
  exists unrestricted restricted,
    ToolSystem.getToolsForRequest request s = (Normal unrestricted, s)
    /\ ToolSystem.getToolsForRequest request s' = (Normal restricted, s')
    /\ restricted = List.filter (fun t => JS.includes enabledTools (tool_name t)) unrestricted
    /\ (forall t : ITool, t ∈ restricted -> tool_name t ∈ enabledTools)
    /\ ((forall t : ITool, t ∈ JS.values (tools ts) -> tool_name t ∉ enabledTools) ->
        restricted = []).
Proof.
  intros Hts Hts' Hnone Hsome Hlist.
  eexists _, _. split; [by apply getToolsForRequest_run |].
  split; [by apply getToolsForRequest_run |].
  rewrite Hnone, Hsome. cbn [from_option id].
  assert (List.filter (ToolSystem.selected enabledTools request) (JS.values (tools ts))
          = List.filter (fun t => JS.includes enabledTools (tool_name t))
                        (List.filter (ToolSystem.selected [] request) (JS.values (tools ts))))
    as Hfilter.
  { rewrite <- filter_andb. apply filter_ext. intros t.
    by rewrite selected_nil, selected_cons. }
  split; [exact Hfilter |]. split.
  - intros t Ht. apply list_elem_of_In, filter_In in Ht as [_ Hselected].
    apply selected_true in Hselected as [Hnamed _]. by apply Hnamed.
  - intros Hunknown. rewrite Hfilter. apply filter_nothing. intros t Ht.
    apply includes_false, Hunknown.
    by apply list_elem_of_In, filter_In in Ht as [Ht%list_elem_of_In _].
Qed.

Lemma enabled_list_only_removes_witness :
  exists unrestricted restricted,
    ToolSystem.getToolsForRequest sampleRequest (sampleState chatAnswers)
    = (Normal unrestricted, sampleState chatAnswers)
    /\ ToolSystem.getToolsForRequest sampleRequest
         (withEnabledTools ["read_file"; "web_search"] (sampleState chatAnswers))
       = (Normal restricted, withEnabledTools ["read_file"; "web_search"] (sampleState chatAnswers))
    /\ restricted
       = List.filter (fun t => JS.includes ["read_file"; "web_search"] (tool_name t)) unrestricted.
Proof.
  destruct (enabled_list_only_removes ["read_file"; "web_search"] sampleRequest
              (ToolSystem.initializeTools sampleRun) (sampleState chatAnswers)
              (withEnabledTools ["read_file"; "web_search"] (sampleState chatAnswers))
              eq_refl eq_refl eq_refl eq_refl)
    as (unrestricted & restricted & Hall & Hsome & Hfilter & _); [discriminate |].
  by exists unrestricted, restricted.
Defined.

(** ** The order of the results of a search *)

Lemma gt_true (a b : Q) : JS.gt a b = true <-> (b < a)%Q.
Proof.
  unfold JS.gt. rewrite negb_true_iff. split.
  - intros Hle. apply Qnot_le_lt. intros Hq. apply Qle_bool_iff in Hq. congruence.
  - intros Hlt. destruct (Qle_bool a b) eqn:Hle; [| reflexivity].
    apply Qle_bool_iff in Hle. by apply Qlt_not_le in Hlt.
Qed.

Lemma gt_false (a b : Q) : JS.gt a b = false <-> (a <= b)%Q.
Proof. unfold JS.gt. rewrite negb_false_iff. apply Qle_bool_iff. Qed.

Lemma insertByRelevance_perm (a : IKnowledgeEntry) (sorted : list IKnowledgeEntry) :
  MemorySystem.insertByRelevance a sorted ≡ₚ a :: sorted.
Proof.
  induction sorted as [| b rest IH]; cbn [MemorySystem.insertByRelevance]; [done |].
  destruct (JS.gt (ke_relevance b) (ke_relevance a)); [| done].
  rewrite IH. apply Permutation_swap.
Qed.

Lemma sortByRelevance_perm (results : list IKnowledgeEntry) :
  MemorySystem.sortByRelevance results ≡ₚ results.
Proof.
  induction results as [| a rest IH]; cbn [MemorySystem.sortByRelevance foldr]; [done |].
  fold (MemorySystem.sortByRelevance rest). by rewrite insertByRelevance_perm, IH.
Qed.

Lemma insertByRelevance_ordered (a : IKnowledgeEntry) (sorted : list IKnowledgeEntry) :
  ordered sorted -> ordered (MemorySystem.insertByRelevance a sorted).
Proof.
  induction sorted as [| b rest IH]; cbn [MemorySystem.insertByRelevance ordered].
  - by split.
  - intros [Hb Hrest]. destruct (JS.gt (ke_relevance b) (ke_relevance a)) eqn:Hgt.
    + apply gt_true in Hgt. cbn [ordered]. split; [| by apply IH].
      apply Forall_forall. intros x Hx. apply insertByRelevance_elem in Hx as [-> | Hx].
      * by apply Qlt_le_weak.
      * rewrite Forall_forall in Hb. by apply Hb.
    + apply gt_false in Hgt. cbn [ordered]. split; [| by split].
      apply List.Forall_cons; [exact Hgt |]. apply Forall_forall. intros x Hx.
      rewrite Forall_forall in Hb. apply Qle_trans with (ke_relevance b); [by apply Hb | done].
Qed.

Lemma sortByRelevance_ordered (results : list IKnowledgeEntry) :
  ordered (MemorySystem.sortByRelevance results).
Proof.
  induction results as [| a rest IH]; cbn [MemorySystem.sortByRelevance foldr]; [done |].
  by apply insertByRelevance_ordered.
Qed.

Lemma ordered_descending (l : list IKnowledgeEntry) : ordered l -> descending l.
Proof.
  induction l as [| a l IH]; intros Hl i j x y Hij Hi Hj; [done |].
  destruct Hl as [Ha Hl].
  destruct j as [| j]; [lia |]. cbn in Hj. destruct i as [| i]; cbn in Hi.
  - injection Hi as <-. rewrite Forall_forall in Ha. apply Ha.
    by apply list_elem_of_lookup_2 in Hj.
  - apply (IH Hl i j); [lia | done..].
Qed.

(** The sort is stable: inserting an entry leaves the entries of each
    relevance in their order, the new one first among its equals. *)
Lemma insertByRelevance_stable (r : Q) (a : IKnowledgeEntry) (sorted : list IKnowledgeEntry) :
  withRelevance r (MemorySystem.insertByRelevance a sorted) = withRelevance r (a :: sorted).
Proof.
  unfold withRelevance.
  induction sorted as [| b rest IH]; cbn [MemorySystem.insertByRelevance]; [done |].
  destruct (JS.gt (ke_relevance b) (ke_relevance a)) eqn:Hgt; [| done].
  apply gt_true in Hgt. cbn [List.filter] in *. rewrite IH.
  destruct (Qeq_bool (ke_relevance a) r) eqn:Ha; [| done].
  destruct (Qeq_bool (ke_relevance b) r) eqn:Hb; [| done].
  apply Qeq_bool_iff in Ha, Hb. rewrite Ha, Hb in Hgt. by apply Qlt_irrefl in Hgt.
Qed.

Lemma sortByRelevance_stable (r : Q) (results : list IKnowledgeEntry) :
  withRelevance r (MemorySystem.sortByRelevance results) = withRelevance r results.
Proof.
  induction results as [| a rest IH]; cbn [MemorySystem.sortByRelevance foldr]; [done |].
  fold (MemorySystem.sortByRelevance rest). rewrite insertByRelevance_stable.
  unfold withRelevance in *. cbn [List.filter]. by rewrite IH.
Qed.

(** X8. A search returns at most ten results.  Together with the
    candidates that it leaves out they are the candidates in another order:
    by relevance, the most relevant first, candidates of equal relevance in
    the order in which the stores hold them.  So no candidate left out is
    more relevant than one returned, and candidates are left out only when
    ten are returned. *)
Theorem search_returns_most_relevant (ms : MemorySystem) (query : string) :
  let results := MemorySystem.relevantKnowledge ms query in
  (length results <= 10)%nat
  /\ (forall s : State,
         memorySystem s = Some ms ->
         MemorySystem.searchRelevantKnowledge query s = (Normal results, s))
  /\ exists leftOut,
       (results ++ leftOut)%list ≡ₚ MemorySystem.candidates ms query
       /\ descending (results ++ leftOut)
       /\ (forall r : Q,
              withRelevance r (results ++ leftOut)
              = withRelevance r (MemorySystem.candidates ms query))
       /\ (leftOut <> [] -> length results = 10%nat).
Proof.
  intros results. subst results. unfold MemorySystem.relevantKnowledge.
  set (sorted := MemorySystem.sortByRelevance (MemorySystem.candidates ms query)).
  split; [rewrite length_take; lia |]. split.
  { intros s Hms. unfold MemorySystem.searchRelevantKnowledge, MemorySystem.this, bind, ret.
    by rewrite Hms. }
  exists (drop 10 sorted). rewrite take_drop. split; [apply sortByRelevance_perm |].
  split; [apply ordered_descending, sortByRelevance_ordered |].
  split; [intros r; apply sortByRelevance_stable |].
  intros Hleft. rewrite length_take. destruct (decide (10 <= length sorted)%nat); [lia |].
  rewrite drop_ge in Hleft by lia. done.
Qed.

(** ** What the steps of [storeInteraction] leave alone *)

Lemma keeps_refl {A : Type} (f : State -> A) (s : State) : keeps f s s.
Proof. reflexivity. Qed.

Lemma keeps_trans {A : Type} (f : State -> A) (s1 s2 s3 : State) :
  keeps f s1 s2 -> keeps f s2 s3 -> keeps f s1 s3.
Proof. unfold keeps. congruence. Qed.

(** The side condition of a state update: the reading is of another
    field, or of a part of the memory system that the update maps to
    itself. *)
Ltac keep_side :=
  unfold keeps, messagesAt, entriesOf, graphOf, patternsAt, conversationsOf; cbn;
  first
    [ reflexivity
    | match goal with |- context [memorySystem ?s] => destruct (memorySystem s) end;
      reflexivity ].

Ltac keep_step :=
  match goal with
  | |- respects (keeps ?f) (bind _ _) =>
      apply (respects_bind (keeps f) (keeps_trans f)); [| intros ?]
  | |- respects (keeps ?f) (try_catch _ _) =>
      apply (respects_try_catch (keeps f) (keeps_trans f)); [| intros ?]
  | |- respects (keeps ?f) (ret _) => apply (respects_ret (keeps f) (keeps_refl f))
  | |- respects (keeps ?f) (throw _) => apply (respects_throw (keeps f) (keeps_refl f))
  | |- respects (keeps ?f) (settle _) => apply (respects_settle (keeps f) (keeps_refl f))
  | |- respects (keeps ?f) (gets _) => apply (respects_gets (keeps f) (keeps_refl f))
  | |- respects _ (match ?x with _ => _ end) => destruct x
  | |- respects _ (let _ := _ in _) => cbv zeta
  | |- respects _ (modify _) => apply respects_modify; intros ?; keep_side
  | |- respects _ (log _ _ _) => apply respects_modify; intros ?; keep_side
  | |- respects _ Date_now => intros ?; keep_side
  | |- respects _ Math_random => intros ?; keep_side
  | |- respects _ (MemorySystem.update _) => unfold MemorySystem.update
  | |- respects _ (MemorySystem.this _) => intros ?; unfold MemorySystem.this; keep_side
  | |- respects _ _ => solve [auto with frame]
  end.

Ltac keep_auto := repeat keep_step.

Lemma keeps_pushPatterns (language : string) (codeBlocks : list (string * option string))
    (patterns : list ICodePattern) :
  respects (keeps memorySystem) (MemorySystem.pushPatterns language codeBlocks patterns).
Proof.
  revert patterns.
  induction codeBlocks as [| [code lang] rest IH]; intros patterns;
    cbn [MemorySystem.pushPatterns]; keep_auto.
Qed.

(** What is read from the memory system alone is kept by what keeps the
    memory system. *)
Lemma keeps_messagesAt {A : Type} (conversationId : string) (m : M A) :
  respects (keeps memorySystem) m -> respects (keeps (messagesAt conversationId)) m.
Proof. intros Hm s. unfold keeps, messagesAt in *. by rewrite Hm. Qed.

Lemma keeps_entriesOf {A : Type} (m : M A) :
  respects (keeps memorySystem) m -> respects (keeps entriesOf) m.
Proof. intros Hm s. unfold keeps, entriesOf in *. by rewrite Hm. Qed.

Lemma keeps_graphOf {A : Type} (m : M A) :
  respects (keeps memorySystem) m -> respects (keeps graphOf) m.
Proof. intros Hm s. unfold keeps, graphOf in *. by rewrite Hm. Qed.

Lemma keeps_patternsAt {A : Type} (language : string) (m : M A) :
  respects (keeps memorySystem) m -> respects (keeps (patternsAt language)) m.
Proof. intros Hm s. unfold keeps, patternsAt in *. by rewrite Hm. Qed.

Lemma keeps_conversationsOf {A : Type} (m : M A) :
  respects (keeps memorySystem) m -> respects (keeps conversationsOf) m.
Proof. intros Hm s. unfold keeps, conversationsOf in *. by rewrite Hm. Qed.

Lemma try_catch_bind {A B : Type} (m : M A) (k : A -> M B) (handler : Exn -> M B) (s : State) :
  try_catch (bind m k) handler s
  = match m s with
    | (Normal a, s1) => try_catch (k a) handler s1
    | (Throw e, s1) => handler e s1
    end.
Proof. unfold try_catch, bind. by destruct (m s) as [[a | e] s1]. Qed.

(** *** Code patterns *)

(** The loop of [extractCodePatterns] appends one pattern for each code
    block, in order, and touches no store. *)
Lemma pushPatterns_run (language : string) (codeBlocks : list (string * option string))
    (patterns : list ICodePattern) (s : State) :
  exists new s',
    MemorySystem.pushPatterns language codeBlocks patterns s = (Normal (patterns ++ new)%list, s')
    /\ pat_pattern <$> new = fst <$> codeBlocks
    /\ Forall (fun p => pat_examples p = [pat_pattern p]
                        /\ pat_confidence p = 7 # 10
                        /\ pat_description p
                           = MemorySystem.generatePatternDescription (pat_pattern p) language)
              new
    /\ memorySystem s' = memorySystem s.
Proof.
  revert patterns s. induction codeBlocks as [| [code lang] rest IH]; intros patterns s;
    cbn [MemorySystem.pushPatterns].
  - exists [], s. rewrite app_nil_r. by repeat split.
  - rewrite (bind_normal Date_now _ _ _ _ eq_refl).
    rewrite (bind_normal Math_random _ _ _ _ eq_refl).
    rewrite (bind_normal Date_now _ _ _ _ eq_refl).
    match goal with |- context [MemorySystem.pushPatterns language rest (patterns ++ [?p]) ?s1] =>
      destruct (IH (patterns ++ [p])%list s1) as (new & s' & Hrun & Hcodes & Hshape & Hms);
      exists (p :: new), s' end.
    rewrite Hrun, <- app_assoc. split; [reflexivity |]. split; [by rewrite !fmap_cons, Hcodes |].
    split; [by apply List.Forall_cons |]. exact Hms.
Qed.

(** X12. [extractCodePatterns] files one pattern for each fenced block
    of the response under the language of the request, behind the patterns
    that the language has already: the language written after a fence is
    not read.  Each pattern has the code of its block as its only example
    and confidence 0.7.  The patterns of other languages, the memory
    entries, the conversations and the graph stay as they are. *)
Theorem extractCodePatterns_files_under_language (request : IAgentRequest)
    (responseContent language : string) (ms : MemorySystem) (s : State) :
  memorySystem s = Some ms ->
  req_context request ≫= ctx_language = Some language -> language <> "" ->
  exists new s' ms',
    MemorySystem.extractCodePatterns request responseContent s = (Normal tt, s')
    /\ memorySystem s' = Some ms'
    /\ codePatterns ms' !! language
       = Some (default [] (codePatterns ms !! language) ++ new)%list
    /\ pat_pattern <$> new = fst <$> MemorySystem.extractCodeBlocks responseContent
    /\ Forall (fun p => pat_examples p = [pat_pattern p]
                        /\ pat_confidence p = 7 # 10
                        /\ pat_description p
                           = MemorySystem.generatePatternDescription (pat_pattern p) language)
              new
    /\ (forall other : string,
           other <> language -> codePatterns ms' !! other = codePatterns ms !! other)
    /\ memory ms' = memory ms
    /\ conversations ms' = conversations ms
    /\ knowledgeGraph ms' = knowledgeGraph ms.
Proof.
  intros Hms Hlanguage Hgiven. unfold MemorySystem.extractCodePatterns. rewrite Hlanguage.
  destruct language as [| c l]; [done |].
  rewrite (bind_normal (MemorySystem.this _) _ s ms s)
    by (unfold MemorySystem.this; by rewrite Hms).
  destruct (pushPatterns_run (String c l) (MemorySystem.extractCodeBlocks responseContent)
              (default [] (codePatterns ms !! String c l)) s)
    as (new & s1 & Hrun & Hcodes & Hshape & Hms1).
  rewrite (bind_normal _ _ _ _ _ Hrun).
  exists new. eexists. eexists. split; [reflexivity |].
  cbn [memorySystem set_memorySystem]. rewrite Hms1, Hms. cbn [fmap option_fmap option_map].
  split; [reflexivity |]. cbn [codePatterns memory conversations knowledgeGraph
                                 MemorySystem.with_codePatterns].
  split; [apply lookup_insert_eq |]. split; [exact Hcodes |]. split; [exact Hshape |].
  split; [| done]. intros other Hother. by apply lookup_insert_ne.
Qed.

(** The sample answer has a block marked as JavaScript and a block on one
    line, whose first word is taken for the language of the fence; both are
    filed under [python], the language of the request. *)
Lemma extractCodePatterns_files_under_language_witness :
  exists s' ms',
    MemorySystem.extractCodePatterns pythonRequest fencedAnswer (sampleState chatAnswers)
    = (Normal tt, s')
    /\ memorySystem s' = Some ms'
    /\ List.map pat_pattern <$> codePatterns ms' !! "python" = Some ["let x = 1;"; "(x)"]
    /\ codePatterns ms' !! "js" = None.
Proof.
  destruct (extractCodePatterns_files_under_language pythonRequest fencedAnswer "python"
              sampleMemory (sampleState chatAnswers) eq_refl eq_refl)
    as (new & s' & ms' & Hrun & Hms & Hpython & Hcodes & _ & Hother & _); [done |].
  exists s', ms'. split; [exact Hrun |]. split; [exact Hms |]. split.
  - rewrite Hpython. cbn [fmap option_fmap option_map]. f_equal.
    change (default [] (codePatterns sampleMemory !! "python")) with (@nil ICodePattern).
    cbn [app]. change (List.map pat_pattern new) with (pat_pattern <$> new).
    rewrite Hcodes. vm_compute. reflexivity.
  - by rewrite Hother.
Defined.

(** *** The summary of a conversation *)

(** X13. [updateConversationSummary] does nothing for a conversation
    that the memory system does not hold.  Otherwise it keeps the messages
    and the time of the last activity, and sets the topics and the summary:
    each topic once, a word being a topic exactly when it is one of the eight
    keywords and a token, in lower case, of some message; the summary names
    the number of messages and the topics.  Everything else in the memory
    system stays as it is. *)
Theorem updateConversationSummary_topics (conversationId : string) (ms : MemorySystem)
    (s : State) :
  memorySystem s = Some ms ->
  match conversations ms !! conversationId with
  | None => MemorySystem.updateConversationSummary conversationId s = (Normal tt, s)
  | Some conversation =>
      exists s' ms' topics,
        MemorySystem.updateConversationSummary conversationId s = (Normal tt, s')
        /\ memorySystem s' = Some ms'
        /\ conversations ms' !! conversationId
           = Some {| conv_messages := conv_messages conversation;
                     conv_summary :=
                       "Conversation with "
                         +:+ JS.ofZ (Z.of_nat (length (conv_messages conversation)))
                         +:+ " messages covering: " +:+ String.concat ", " topics;
                     conv_keyTopics := topics;
                     conv_lastActivity := conv_lastActivity conversation |}
        /\ NoDup topics
        /\ (forall topic : string,
               topic ∈ topics
               <-> topic ∈ topicKeywords
                   /\ exists message,
                        message ∈ conv_messages conversation
                        /\ topic ∈ JS.splitW (JS.toLowerCase (msg_content message)))
        /\ (forall other : string,
               other <> conversationId -> conversations ms' !! other = conversations ms !! other)
        /\ memory ms' = memory ms
        /\ codePatterns ms' = codePatterns ms
        /\ knowledgeGraph ms' = knowledgeGraph ms
  end.
Proof.
  intros Hms. unfold MemorySystem.updateConversationSummary.
  rewrite (bind_normal (MemorySystem.this _) _ s ms s)
    by (unfold MemorySystem.this; by rewrite Hms).
  destruct (conversations ms !! conversationId) as [conversation |]; [| reflexivity].
  eexists _, _, _. split; [reflexivity |].
  cbn [memorySystem set_memorySystem]. rewrite Hms. cbn [fmap option_fmap option_map].
  split; [reflexivity |].
  cbn [conversations memory codePatterns knowledgeGraph MemorySystem.with_conversations].
  split; [apply lookup_insert_eq |]. split; [apply unique_from_NoDup |]. split.
  - intros topic. rewrite unique_elem. fold topicKeywords.
    rewrite list_elem_of_In, in_concat. split.
    + intros (words & Hwords & Htopic). apply in_map_iff in Hwords as (message & <- & Hmessage).
      apply filter_In in Htopic as [Htopic Hkeyword].
      split; [by apply includes_true |]. exists message.
      split; by apply list_elem_of_In.
    + intros [Hkeyword (message & Hmessage & Htopic)].
      eexists. split.
      * apply in_map_iff. exists message. split; [reflexivity | by apply list_elem_of_In].
      * apply filter_In. split; [by apply list_elem_of_In | by apply includes_true].
  - split; [| done]. intros other Hother. by apply lookup_insert_ne.
Qed.

Lemma updateConversationSummary_topics_witness :
  exists s' ms' topics,
    MemorySystem.updateConversationSummary "r1" (withMemory talkMemory (sampleState chatAnswers))
    = (Normal tt, s')
    /\ memorySystem s' = Some ms'
    /\ conv_keyTopics <$> conversations ms' !! "r1" = Some topics
    /\ conv_messages <$> conversations ms' !! "r1" = Some (conv_messages talk)
    /\ NoDup topics
    /\ "database" ∈ topics.
Proof.
  pose proof (updateConversationSummary_topics "r1" talkMemory
                (withMemory talkMemory (sampleState chatAnswers)) eq_refl) as Hrun.
  change (conversations talkMemory !! "r1") with (Some talk) in Hrun.
  destruct Hrun as (s' & ms' & topics & Hrun & Hms & Hconv & Hdistinct & Htopics & _).
  exists s', ms', topics. split; [exact Hrun |]. split; [exact Hms |].
  rewrite Hconv. cbn [fmap option_fmap option_map conv_keyTopics conv_messages].
  split; [reflexivity |]. split; [reflexivity |]. split; [exact Hdistinct |].
  apply Htopics. split; [by apply includes_true |].
  eexists. split; [apply list_elem_of_here |]. by apply includes_true.
Defined.

(** *** The memory file *)

(** X11. [persistMemory] does not throw.  When the file is written, the
    file at the configured path -- [.vscode/agent-memory.json] when no path
    or the empty path is configured -- holds the stores as they are; when
    writing fails, the files stay as they were and the failure is logged and
    not reported to the caller.  The memory system itself is not changed. *)
Theorem persistMemory_outcome (ms : MemorySystem) (s : State) :
  memorySystem s = Some ms ->
  exists s',
    MemorySystem.persistMemory s = (Normal tt, s')
    /\ memorySystem s' = Some ms
    /\ events s' = events s
    /\ match fs_writeFile (world s) with
       | Normal _ =>
           files s'
           = <[JS.orElse (cfg_memoryPath (world s)) ".vscode/agent-memory.json" := ms]> (files s)
           /\ logs s' = logs s
       | Throw error =>
           files s' = files s /\ logs s' = (logs s ++ [persistFailure error])%list
       end.
Proof.
  intros Hms. unfold MemorySystem.persistMemory. rewrite try_catch_bind.
  unfold MemorySystem.this at 1. rewrite Hms. rewrite try_catch_bind.
  unfold MemorySystem.getMemoryFilePath, gets at 1. rewrite try_catch_bind. unfold gets at 1.
  rewrite try_catch_bind. unfold settle at 1.
  destruct (fs_writeFile (world s)) as [[] | error].
  - eexists. split; [reflexivity |]. by repeat split.
  - eexists. split; [reflexivity |]. by repeat split.
Qed.

Lemma persistMemory_outcome_witness :
  exists s',
    MemorySystem.persistMemory (readOnly (sampleState chatAnswers)) = (Normal tt, s')
    /\ files s' = ∅
    /\ logs s' = [persistFailure (Error "EROFS: read-only file system")].
Proof.
  destruct (persistMemory_outcome sampleMemory (readOnly (sampleState chatAnswers)) eq_refl)
    as (s' & Hrun & _ & _ & Hfiles & Hlogs).
  by exists s'.
Defined.

(** ** Storing an interaction *)

Lemma try_catch_bind_normal {A B : Type} (m : M A) (k : A -> M B) (handler : Exn -> M B)
    (s s1 : State) (a : A) :
  m s = (Normal a, s1) -> try_catch (bind m k) handler s = try_catch (k a) handler s1.
Proof. intros Hm. by rewrite try_catch_bind, Hm. Qed.

Lemma extractCodePatterns_stores (request : IAgentRequest) (responseContent : string)
    (ms : MemorySystem) (s : State) :
  memorySystem s = Some ms ->
  exists s' ms',
    MemorySystem.extractCodePatterns request responseContent s = (Normal tt, s')
    /\ memorySystem s' = Some ms'
    /\ memory ms' = memory ms
    /\ conversations ms' = conversations ms
    /\ knowledgeGraph ms' = knowledgeGraph ms.
Proof.
  intros Hms. unfold MemorySystem.extractCodePatterns.
  destruct (req_context request ≫= ctx_language) as [[| c l] |];
    [by exists s, ms | | by exists s, ms].
  rewrite (bind_normal (MemorySystem.this _) _ s ms s)
    by (unfold MemorySystem.this; by rewrite Hms).
  destruct (pushPatterns_run (String c l) (MemorySystem.extractCodeBlocks responseContent)
              (default [] (codePatterns ms !! String c l)) s)
    as (new & s1 & Hrun & _ & _ & Hms1).
  rewrite (bind_normal _ _ _ _ _ Hrun).
  eexists _, _. split; [reflexivity |].
  cbn [memorySystem set_memorySystem]. rewrite Hms1, Hms. by repeat split.
Qed.

Lemma prefix_append (p rest : string) : String.prefix p (p +:+ rest) = true.
Proof.
  induction p as [| c p IH]; simpl; [by destruct rest |].
  destruct (ascii_dec c c); [exact IH | done].
Qed.

(** [extractKnowledge] stores one entry, under its own id. *)
Lemma extractKnowledge_run (request : IAgentRequest) (responseContent : string)
    (ms : MemorySystem) (s : State) :
  memorySystem s = Some ms ->
  exists s' ms' entry,
    MemorySystem.extractKnowledge request responseContent s = (Normal tt, s')
    /\ memorySystem s' = Some ms'
    /\ memory ms' = JS.set (entry_id entry) entry (memory ms)
    /\ conversations ms' = conversations ms
    /\ knowledgeGraph ms' = knowledgeGraph ms
    /\ entry_type entry = me_knowledge
    /\ entry_content entry = exchange request responseContent
    /\ meta_source (entry_metadata entry) = "conversation"
    /\ meta_tags (entry_metadata entry)
       = MemorySystem.extractTags (req_content request +:+ " " +:+ responseContent)
    /\ String.prefix "knowledge_" (entry_id entry) = true.
Proof.
  intros Hms. unfold MemorySystem.extractKnowledge.
  assert (exists s1 ms1,
             (if JS.truthy (req_context request ≫= ctx_language)
                 && JS.str_includes responseContent MemorySystem.fence
              then MemorySystem.extractCodePatterns request responseContent
              else ret tt) s = (Normal tt, s1)
             /\ memorySystem s1 = Some ms1
             /\ memory ms1 = memory ms
             /\ conversations ms1 = conversations ms
             /\ knowledgeGraph ms1 = knowledgeGraph ms)
    as (s1 & ms1 & Hrun & Hms1 & Hmemory & Hconversations & Hgraph).
  { destruct (_ && _); [by apply extractCodePatterns_stores | by exists s, ms]. }
  rewrite (bind_normal _ _ _ _ _ Hrun).
  rewrite (bind_normal Date_now _ _ _ _ eq_refl).
  rewrite (bind_normal Math_random _ _ _ _ eq_refl).
  rewrite (bind_normal Date_now _ _ _ _ eq_refl). cbv zeta.
  match goal with |- context [MemorySystem.with_memory (JS.set _ ?entry)] =>
    eexists _, _, entry end.
  split; [reflexivity |].
  cbn [memorySystem set_memorySystem set_ticks set_draws]. rewrite Hms1.
  cbn [fmap option_fmap option_map]. split; [reflexivity |].
  cbn [memory conversations knowledgeGraph MemorySystem.with_memory entry_id entry_type
         entry_content entry_metadata meta_source meta_tags].
  rewrite Hmemory. split; [reflexivity |]. split; [exact Hconversations |].
  split; [exact Hgraph |]. repeat split. apply prefix_append.
Qed.

Lemma updateConversationSummary_messages (conversationId : string) (ms : MemorySystem)
    (s : State) :
  memorySystem s = Some ms ->
  exists s' ms',
    MemorySystem.updateConversationSummary conversationId s = (Normal tt, s')
    /\ memorySystem s' = Some ms'
    /\ (forall other : string,
           conv_messages <$> conversations ms' !! other
           = conv_messages <$> conversations ms !! other)
    /\ memory ms' = memory ms
    /\ codePatterns ms' = codePatterns ms
    /\ knowledgeGraph ms' = knowledgeGraph ms.
Proof.
  intros Hms. unfold MemorySystem.updateConversationSummary.
  rewrite (bind_normal (MemorySystem.this _) _ s ms s)
    by (unfold MemorySystem.this; by rewrite Hms).
  destruct (conversations ms !! conversationId) as [conversation |] eqn:Hconversation;
    [| by exists s, ms].
  eexists _, _. split; [reflexivity |].
  cbn [memorySystem set_memorySystem]. rewrite Hms. cbn [fmap option_fmap option_map].
  split; [reflexivity |].
  cbn [conversations memory codePatterns knowledgeGraph MemorySystem.with_conversations].
  split; [| done]. intros other. destruct (decide (other = conversationId)) as [-> | Hother].
  - by rewrite lookup_insert_eq, Hconversation.
  - by rewrite lookup_insert_ne.
Qed.

Lemma persistMemory_returns (ms : MemorySystem) (s : State) :
  memorySystem s = Some ms ->
  exists s', MemorySystem.persistMemory s = (Normal tt, s') /\ memorySystem s' = Some ms.
Proof.
  intros Hms. unfold MemorySystem.persistMemory. rewrite try_catch_bind.
  unfold MemorySystem.this at 1. rewrite Hms. rewrite try_catch_bind.
  unfold MemorySystem.getMemoryFilePath, gets at 1. rewrite try_catch_bind. unfold gets at 1.
  rewrite try_catch_bind. unfold settle at 1.
  destruct (fs_writeFile (world s)) as [[] | error]; by eexists.
Qed.

(** The steps of [storeInteraction] after the conversation is updated *)
Lemma storeInteraction_rest (request : IAgentRequest) (responseContent : string)
    (handler : Exn -> M unit) (ms : MemorySystem) (s : State) :
  memorySystem s = Some ms ->
  exists s' ms' entry,
    try_catch
      (MemorySystem.extractKnowledge request responseContent ;;
       MemorySystem.updateConversationSummary (req_id request) ;;
       MemorySystem.persistMemory ;;
       log LDebug "Memory System: Interaction stored" [("requestId", JStr (req_id request))])
      handler s
    = (Normal tt, s')
    /\ memorySystem s' = Some ms'
    /\ (forall other : string,
           conv_messages <$> conversations ms' !! other
           = conv_messages <$> conversations ms !! other)
    /\ memory ms' = JS.set (entry_id entry) entry (memory ms)
    /\ knowledgeGraph ms' = knowledgeGraph ms
    /\ entry_type entry = me_knowledge
    /\ entry_content entry = exchange request responseContent
    /\ meta_source (entry_metadata entry) = "conversation"
    /\ meta_tags (entry_metadata entry)
       = MemorySystem.extractTags (req_content request +:+ " " +:+ responseContent)
    /\ String.prefix "knowledge_" (entry_id entry) = true.
Proof.
  intros Hms.
  destruct (extractKnowledge_run request responseContent ms s Hms)
    as (s1 & ms1 & entry & Hrun1 & Hms1 & Hmemory1 & Hconversations1 & Hgraph1 & Hentry).
  destruct (updateConversationSummary_messages (req_id request) ms1 s1 Hms1)
    as (s2 & ms2 & Hrun2 & Hms2 & Hmessages2 & Hmemory2 & _ & Hgraph2).
  destruct (persistMemory_returns ms2 s2 Hms2) as (s3 & Hrun3 & Hms3).
  rewrite (try_catch_bind_normal _ _ _ _ _ _ Hrun1).
  rewrite (try_catch_bind_normal _ _ _ _ _ _ Hrun2).
  rewrite (try_catch_bind_normal _ _ _ _ _ _ Hrun3).
  eexists _, ms2, entry. split; [reflexivity |]. split; [exact Hms3 |].
  split; [intros other; by rewrite Hmessages2, Hconversations1 |].
  split; [by rewrite Hmemory2 |]. split; [by rewrite Hgraph2 |]. exact Hentry.
Qed.

(** What [storeInteraction] does to the stores of a memory system *)
Lemma storeInteraction_run (request : IAgentRequest) (responseContent : string)
    (ms : MemorySystem) (s : State) :
  memorySystem s = Some ms ->
  exists s' ms' userTime assistantTime entry,
    MemorySystem.storeInteraction request responseContent s = (Normal tt, s')
    /\ memorySystem s' = Some ms'
    /\ conv_messages <$> conversations ms' !! req_id request
       = Some (default [] (conv_messages <$> conversations ms !! req_id request)
                 ++ [ {| msg_role := user; msg_content := req_content request;
                         msg_timestamp := userTime |};
                      {| msg_role := assistant; msg_content := responseContent;
                         msg_timestamp := assistantTime |} ])%list
    /\ (forall other : string,
           other <> req_id request ->
           conv_messages <$> conversations ms' !! other
           = conv_messages <$> conversations ms !! other)
    /\ memory ms' = JS.set (entry_id entry) entry (memory ms)
    /\ knowledgeGraph ms' = knowledgeGraph ms
    /\ entry_type entry = me_knowledge
    /\ entry_content entry = exchange request responseContent
    /\ meta_source (entry_metadata entry) = "conversation"
    /\ meta_tags (entry_metadata entry)
       = MemorySystem.extractTags (req_content request +:+ " " +:+ responseContent)
    /\ String.prefix "knowledge_" (entry_id entry) = true.
Proof.
  intros Hms. unfold MemorySystem.storeInteraction.
  rewrite (bind_normal (MemorySystem.this _) _ s ms s)
    by (unfold MemorySystem.this; by rewrite Hms).
  rewrite (try_catch_bind_normal (MemorySystem.this _) _ _ s s ms)
    by (unfold MemorySystem.this; by rewrite Hms).
  destruct (conversations ms !! req_id request) as [conversation |] eqn:Hconversation.
  - rewrite (try_catch_bind_normal (ret _) _ _ _ _ _ eq_refl).
    rewrite (try_catch_bind_normal Date_now _ _ _ _ _ eq_refl).
    rewrite (try_catch_bind_normal Date_now _ _ _ _ _ eq_refl).
    rewrite (try_catch_bind_normal Date_now _ _ _ _ _ eq_refl).
    rewrite (try_catch_bind_normal (MemorySystem.update _) _ _ _ _ _ eq_refl).
    match goal with |- context [try_catch _ ?handler
                                  (set_memorySystem (fmap ?f) ?s3)] =>
      destruct (storeInteraction_rest request responseContent handler (f ms)
                  (set_memorySystem (fmap f) s3))
        as (s' & ms' & entry & Hrun & Hms' & Hmessages & Hstored) end.
    { cbn. by rewrite Hms. }
    eexists s', ms', _, _, entry. split; [exact Hrun |]. split; [exact Hms' |].
    split; [| split; [| exact Hstored]].
    + rewrite Hmessages. cbn [conversations MemorySystem.with_conversations].
      by rewrite lookup_insert_eq.
    + intros other Hother. rewrite Hmessages.
      cbn [conversations MemorySystem.with_conversations]. by rewrite lookup_insert_ne.
  - rewrite (try_catch_bind_normal (bind Date_now _) _ _ _ _ _ eq_refl).
    rewrite (try_catch_bind_normal Date_now _ _ _ _ _ eq_refl).
    rewrite (try_catch_bind_normal Date_now _ _ _ _ _ eq_refl).
    rewrite (try_catch_bind_normal Date_now _ _ _ _ _ eq_refl).
    rewrite (try_catch_bind_normal (MemorySystem.update _) _ _ _ _ _ eq_refl).
    match goal with |- context [try_catch _ ?handler
                                  (set_memorySystem (fmap ?f) ?s3)] =>
      destruct (storeInteraction_rest request responseContent handler (f ms)
                  (set_memorySystem (fmap f) s3))
        as (s' & ms' & entry & Hrun & Hms' & Hmessages & Hstored) end.
    { cbn. by rewrite Hms. }
    eexists s', ms', _, _, entry. split; [exact Hrun |]. split; [exact Hms' |].
    split; [| split; [| exact Hstored]].
    + rewrite Hmessages. cbn [conversations MemorySystem.with_conversations].
      by rewrite lookup_insert_eq.
    + intros other Hother. rewrite Hmessages.
      cbn [conversations MemorySystem.with_conversations]. by rewrite lookup_insert_ne.
Qed.

Lemma getConversationHistory_run (requestId : string) (ms : MemorySystem) (s : State) :
  memorySystem s = Some ms ->
  MemorySystem.getConversationHistory requestId s
  = (Normal (default [] (conv_messages <$> conversations ms !! requestId)), s).
Proof.
  intros Hms. unfold MemorySystem.getConversationHistory, MemorySystem.this, bind, ret.
  by rewrite Hms.
Qed.

(** X9. With a memory system in place, [storeInteraction] returns
    without throwing, whatever becomes of the memory file, and the history
    of the request is then the history before the call followed by two
    messages: the content of the request as the user, and the content of the
    response as the assistant.  The histories of the other requests are as
    before, and no event is fired. *)
Theorem storeInteraction_appends_exchange (request : IAgentRequest) (responseContent : string)
    (ms : MemorySystem) (s : State) :
  memorySystem s = Some ms ->
  exists s' before userTime assistantTime,
    MemorySystem.storeInteraction request responseContent s = (Normal tt, s')
    /\ fst (MemorySystem.getConversationHistory (req_id request) s) = Normal before
    /\ fst (MemorySystem.getConversationHistory (req_id request) s')
       = Normal (before
                   ++ [ {| msg_role := user; msg_content := req_content request;
                           msg_timestamp := userTime |};
                        {| msg_role := assistant; msg_content := responseContent;
                           msg_timestamp := assistantTime |} ])%list
    /\ (forall other : string,
           other <> req_id request ->
           fst (MemorySystem.getConversationHistory other s')
           = fst (MemorySystem.getConversationHistory other s))
    /\ events s' = events s.
Proof.
  intros Hms.
  destruct (storeInteraction_run request responseContent ms s Hms)
    as (s' & ms' & userTime & assistantTime & entry & Hrun & Hms' & Hhistory & Hothers & _).
  exists s', (default [] (conv_messages <$> conversations ms !! req_id request)),
    userTime, assistantTime.
  split; [exact Hrun |].
  rewrite !(getConversationHistory_run _ ms s Hms).
  split; [reflexivity |]. split; [| split].
  - rewrite (getConversationHistory_run _ ms' s' Hms'). cbn [fst]. by rewrite Hhistory.
  - intros other Hother. rewrite (getConversationHistory_run _ ms' s' Hms'),
      (getConversationHistory_run _ ms s Hms). cbn [fst]. by rewrite Hothers.
  - pose proof (silent_storeInteraction request responseContent s) as Hsilent.
    unfold same_events in Hsilent. by rewrite Hrun in Hsilent.
Qed.

Lemma storeInteraction_appends_exchange_witness :
  exists s' history,
    MemorySystem.storeInteraction sampleRequest "Use a connection pool."
      (readOnly (withMemory talkMemory (sampleState chatAnswers)))
    = (Normal tt, s')
    /\ fst (MemorySystem.getConversationHistory "r1" s') = Normal history
    /\ msg_content <$> history
       = ["Fix the database error"; "The function fails; fix the API test.";
          "fix the database error"; "Use a connection pool."].
Proof.
  destruct (storeInteraction_appends_exchange sampleRequest "Use a connection pool." talkMemory
              (readOnly (withMemory talkMemory (sampleState chatAnswers))) eq_refl)
    as (s' & before & userTime & assistantTime & Hrun & Hbefore & Hafter & _).
  eexists s', _. split; [exact Hrun |]. split; [exact Hafter |].
  injection Hbefore as <-. reflexivity.
Defined.

Lemma set_length {V : Type} (k : string) (v : V) (m : list (string * V)) :
  (length m <= length (JS.set k v m) <= S (length m))%nat.
Proof.
  induction m as [| [k' v'] m IH]; cbn [JS.set length]; [lia |].
  destruct (String.eqb k k'); cbn [length]; lia.
Qed.

(** X10. With a memory system in place, [storeInteraction] stores one
    knowledge entry: under its id, which starts with [knowledge_], the memory
    holds an entry of type [knowledge] from the source [conversation], whose
    content is the object made of the request, the response and the context
    of the request and whose tags are those of the two texts.  What the
    memory holds under any other id is as before, so the memory grows by one
    entry at most; the graph is not touched. *)
Theorem storeInteraction_adds_knowledge (request : IAgentRequest) (responseContent : string)
    (ms : MemorySystem) (s : State) :
  memorySystem s = Some ms ->
  exists s' ms' entry,
    MemorySystem.storeInteraction request responseContent s = (Normal tt, s')
    /\ memorySystem s' = Some ms'
    /\ JS.get (entry_id entry) (memory ms') = Some entry
    /\ String.prefix "knowledge_" (entry_id entry) = true
    /\ entry_type entry = me_knowledge
    /\ entry_content entry = exchange request responseContent
    /\ meta_source (entry_metadata entry) = "conversation"
    /\ meta_tags (entry_metadata entry)
       = MemorySystem.extractTags (req_content request +:+ " " +:+ responseContent)
    /\ (forall id : string,
           id <> entry_id entry -> JS.get id (memory ms') = JS.get id (memory ms))
    /\ (length (memory ms) <= length (memory ms') <= S (length (memory ms)))%nat
    /\ knowledgeGraph ms' = knowledgeGraph ms.
Proof.
  intros Hms.
  destruct (storeInteraction_run request responseContent ms s Hms)
    as (s' & ms' & userTime & assistantTime & entry & Hrun & Hms' & _ & _ & Hmemory & Hgraph
        & Htype & Hcontent & Hsource & Htags & Hid).
  exists s', ms', entry. split; [exact Hrun |]. split; [exact Hms' |]. rewrite Hmemory.
  split; [apply get_set_eq |]. split; [exact Hid |]. split; [exact Htype |].
  split; [exact Hcontent |]. split; [exact Hsource |]. split; [exact Htags |].
  split; [intros id Hid'; by apply get_set_ne |]. split; [apply set_length | exact Hgraph].
Qed.

Lemma storeInteraction_adds_knowledge_witness :
  exists s' ms' entry,
    MemorySystem.storeInteraction pythonRequest fencedAnswer (sampleState chatAnswers)
    = (Normal tt, s')
    /\ memorySystem s' = Some ms'
    /\ JS.get (entry_id entry) (memory ms') = Some entry
    /\ meta_tags (entry_metadata entry) = ["function"; "try"]
    /\ JS.get "note_1" (memory ms') = Some sampleEntry.
Proof.
  destruct (storeInteraction_adds_knowledge pythonRequest fencedAnswer sampleMemory
              (sampleState chatAnswers) eq_refl)
    as (s' & ms' & entry & Hrun & Hms' & Hentry & Hid & _ & _ & _ & Htags & Hothers & _).
  exists s', ms', entry. split; [exact Hrun |]. split; [exact Hms' |]. split; [exact Hentry |].
  split; [rewrite Htags; vm_compute; reflexivity |].
  rewrite Hothers; [reflexivity |]. intros Hnote. rewrite <- Hnote in Hid. discriminate.
Defined.

(** ** The response to a request that succeeds *)

Lemma append_assoc (a b c : string) : (a +:+ b) +:+ c = a +:+ b +:+ c.
Proof.
  induction a as [| x a IH]; [reflexivity |].
  change (String x ((a +:+ b) +:+ c) = String x (a +:+ b +:+ c)). by rewrite IH.
Qed.

Lemma append_empty_r (a : string) : a +:+ "" = a.
Proof.
  induction a as [| x a IH]; [reflexivity |].
  change (String x (a +:+ "") = String x a). by rewrite IH.
Qed.

Lemma toolLines_fold (toolResults : list IAgentToolResult) (start : string) :
  fold_left (fun enhancedContent t => enhancedContent +:+ toolLine t) toolResults start
  = start +:+ foldr (fun t rest => toolLine t +:+ rest) "" toolResults.
Proof.
  revert start. induction toolResults as [| t rest IH]; intros start; cbn [fold_left foldr].
  - by rewrite append_empty_r.
  - by rewrite IH, append_assoc.
Qed.

Lemma enhanceResponse_run (modelResponse : IModelResponse)
    (toolResults : list IAgentToolResult) (context : IAgentContext) (s : State) :
  AgentOrchestrator.enhanceResponse modelResponse toolResults context s
  = (Normal {| er_content := mo_content modelResponse +:+ toolReport toolResults;
               er_tokens := mo_tokens modelResponse;
               er_confidence := 8 # 10 |}, s).
Proof.
  unfold AgentOrchestrator.enhanceResponse, ret. do 3 f_equal.
  destruct toolResults as [| t rest]; [by rewrite append_empty_r |].
  etransitivity; [apply (toolLines_fold (t :: rest)) |].
  unfold toolReport. by rewrite !append_assoc.
Qed.

(** Step 8 on a state with a memory system *)
Lemma deliver_run (request : IAgentRequest) (startTime : Z) (model : IModelInfo)
    (context : IAgentContext) (toolResults : list IAgentToolResult)
    (modelResponse : IModelResponse) (ms : MemorySystem) (s : State) :
  memorySystem s = Some ms ->
  exists s1 s3 duration,
    MemorySystem.storeInteraction request (mo_content modelResponse +:+ toolReport toolResults) s
    = (Normal tt, s1)
    /\ deliver request startTime (model, context, toolResults, modelResponse) s
       = (Normal {| resp_id := req_id request +:+ "_response";
                    resp_requestId := req_id request;
                    resp_content := mo_content modelResponse +:+ toolReport toolResults;
                    resp_tools := Some toolResults;
                    resp_error := None;
                    resp_metadata :=
                      Some {| md_model := mi_name model;
                              md_provider := mi_provider model;
                              md_tokens := default 0 (mo_tokens modelResponse);
                              md_duration := duration |} |}, s3)
    /\ memorySystem s3 = memorySystem s1.
Proof.
  intros Hms. unfold deliver.
  rewrite (bind_normal _ _ _ _ _ (enhanceResponse_run modelResponse toolResults context s)).
  cbn [er_content er_tokens].
  destruct (storeInteraction_returns request
              (mo_content modelResponse +:+ toolReport toolResults) s) as (s1 & Hstore);
    [by rewrite Hms |].
  rewrite (bind_normal _ _ _ _ _ Hstore).
  eexists s1, _, _. split; [exact Hstore |]. split; [reflexivity |]. reflexivity.
Qed.

(** The course of a call that returns a response without an error *)
Lemma execute_success (pending : M unit) (request : IAgentRequest)
    (response : IAgentResponse) (s s' : State) :
  AgentOrchestrator.execute pending request s = (Normal response, s') ->
  resp_error response = None ->
  exists answer s2 s3,
    obtainModelAnswer pending request (length (controllers s)) (started request s)
    = (Normal answer, s2)
    /\ deliver request (clock (world s) (ticks s)) answer s2 = (Normal response, s3)
    /\ s' = finished request s3.
Proof.
  rewrite execute_course. intros Hrun Hok.
  destruct (obtainModelAnswer pending request (length (controllers s)) (started request s))
    as [[answer | error] s2].
  - destruct (deliver request (clock (world s) (ticks s)) answer s2)
      as [[delivered | error] s3] eqn:Hdeliver.
    + injection Hrun as <- <-. by exists answer, s2, s3.
    + injection Hrun as <- _. discriminate.
  - injection Hrun as <- _. discriminate.
Qed.

(** X25. The content of a response without an error is the content that
    the model returned, followed -- when tools were run -- by the heading
    "Tool Results:" and one line for each tool result, which shows the error
    of the tool or else the JSON text of its result.  The response carries
    the tool results themselves, and its token count is that of the model, or
    0 when the model gave none. *)
Theorem response_content_extends_answer (requestIds : list string) (request : IAgentRequest)
    (response : IAgentResponse) (s s' : State) :
  AgentOrchestrator.execute (AgentOrchestrator.cancels requestIds) request s
  = (Normal response, s') ->
  resp_error response = None ->
  exists model context toolResults modelResponse s2,
    obtainModelAnswer (AgentOrchestrator.cancels requestIds) request (length (controllers s))
      (started request s)
    = (Normal (model, context, toolResults, modelResponse), s2)
    /\ resp_content response = mo_content modelResponse +:+ toolReport toolResults
    /\ String.prefix (mo_content modelResponse) (resp_content response) = true
    /\ (toolResults = [] -> resp_content response = mo_content modelResponse)
    /\ resp_tools response = Some toolResults
    /\ md_tokens <$> resp_metadata response = Some (default 0 (mo_tokens modelResponse)).
Proof.
  intros Hrun Hok.
  destruct (execute_success _ _ _ _ _ Hrun Hok)
    as ([[[model context] toolResults] modelResponse] & s2 & s3 & Hanswer & Hdeliver & _).
  exists model, context, toolResults, modelResponse, s2. split; [exact Hanswer |].
  destruct (obtainModelAnswer_memory _ _ _ _ _ _ (quiet_cancels requestIds) Hanswer)
    as [ms Hms].
  destruct (deliver_run request (clock (world s) (ticks s)) model context toolResults
              modelResponse ms s2 Hms) as (s1 & s3' & duration & _ & Hdelivered & _).
  rewrite Hdelivered in Hdeliver. injection Hdeliver as <- _.
  cbn [resp_content resp_tools resp_metadata fmap option_fmap option_map md_tokens].
  split; [reflexivity |]. split; [apply prefix_append |].
  split; [intros ->; apply append_empty_r | by split].
Qed.

Lemma response_content_extends_answer_witness :
  exists response s' toolResults answer,
    AgentOrchestrator.execute (AgentOrchestrator.cancels []) sampleRequest
      (sampleState chatAnswers)
    = (Normal response, s')
    /\ resp_tools response = Some toolResults
    /\ resp_content response = answer +:+ toolReport toolResults.
Proof.
  destruct (execute_returns (AgentOrchestrator.cancels []) sampleRequest
              (sampleState chatAnswers)) as (response & s' & Hrun).
  pose proof failing_tool_run as Hsample. rewrite Hrun in Hsample.
  cbn [fst returned fmap option_fmap option_map] in Hsample. injection Hsample as Hok _.
  destruct (response_content_extends_answer [] sampleRequest response
              (sampleState chatAnswers) s' Hrun Hok)
    as (model & context & toolResults & modelResponse & s2 & _ & Hcontent & _ & _ & Htools & _).
  exists response, s', toolResults, (mo_content modelResponse).
  split; [exact Hrun |]. split; [exact Htools | exact Hcontent].
Defined.

(** X26. When [execute] returns a response without an error, the
    exchange is remembered: the history of the request is then the history
    before the call followed by the content of the request as the user and
    the content of the response as the assistant, and the memory holds a
    knowledge entry whose content is made of the request and the response.
    (A response with an error leaves the memory as it was.) *)
Theorem successful_request_is_remembered (requestIds : list string) (request : IAgentRequest)
    (response : IAgentResponse) (s s' : State) :
  AgentOrchestrator.execute (AgentOrchestrator.cancels requestIds) request s
  = (Normal response, s') ->
  resp_error response = None ->
  exists before userTime assistantTime ms' entry,
    fst (MemorySystem.getConversationHistory (req_id request) s) = Normal before
    /\ fst (MemorySystem.getConversationHistory (req_id request) s')
       = Normal (before
                   ++ [ {| msg_role := user; msg_content := req_content request;
                           msg_timestamp := userTime |};
                        {| msg_role := assistant; msg_content := resp_content response;
                           msg_timestamp := assistantTime |} ])%list
    /\ memorySystem s' = Some ms'
    /\ JS.get (entry_id entry) (memory ms') = Some entry
    /\ entry_type entry = me_knowledge
    /\ entry_content entry = exchange request (resp_content response).
Proof.
  intros Hrun Hok.
  destruct (execute_success _ _ _ _ _ Hrun Hok)
    as ([[[model context] toolResults] modelResponse] & s2 & s3 & Hanswer & Hdeliver & ->).
  destruct (obtainModelAnswer_memory _ _ _ _ _ _ (quiet_cancels requestIds) Hanswer)
    as [ms Hms].
  pose proof (quiet_obtainModelAnswer (AgentOrchestrator.cancels requestIds) request
                (length (controllers s)) (quiet_cancels requestIds) (started request s))
    as (_ & _ & Hsame & _).
  rewrite Hanswer in Hsame. cbn [snd] in Hsame.
  change (memorySystem (started request s)) with (memorySystem s) in Hsame.
  rewrite Hms in Hsame. symmetry in Hsame.
  destruct (deliver_run request (clock (world s) (ticks s)) model context toolResults
              modelResponse ms s2 Hms) as (s1 & s3' & duration & Hstore & Hdelivered & Hms3).
  rewrite Hdelivered in Hdeliver. injection Hdeliver as <- <-.
  destruct (storeInteraction_run request
              (mo_content modelResponse +:+ toolReport toolResults) ms s2 Hms)
    as (s1' & ms' & userTime & assistantTime & entry & Hstore' & Hms' & Hhistory & _ & Hmemory
        & _ & Htype & Hcontent & _).
  rewrite Hstore in Hstore'. injection Hstore' as <-.
  exists (default [] (conv_messages <$> conversations ms !! req_id request)),
    userTime, assistantTime, ms', entry.
  assert (memorySystem (finished request s3') = Some ms') as Hfinal.
  { change (memorySystem (finished request s3')) with (memorySystem s3'). by rewrite Hms3. }
  rewrite (getConversationHistory_run _ ms s Hsame).
  rewrite (getConversationHistory_run _ ms' _ Hfinal). cbn [fst resp_content].
  split; [reflexivity |]. split; [by rewrite Hhistory |]. split; [exact Hfinal |].
  rewrite Hmemory. split; [apply get_set_eq |]. by split.
Qed.

Lemma successful_request_is_remembered_witness :
  exists response s' history,
    AgentOrchestrator.execute (AgentOrchestrator.cancels []) sampleRequest
      (sampleState chatAnswers)
    = (Normal response, s')
    /\ fst (MemorySystem.getConversationHistory "r1" s') = Normal history
    /\ msg_content <$> history = ["fix the database error"; resp_content response].
Proof.
  destruct (execute_returns (AgentOrchestrator.cancels []) sampleRequest
              (sampleState chatAnswers)) as (response & s' & Hrun).
  pose proof failing_tool_run as Hsample. rewrite Hrun in Hsample.
  cbn [fst returned fmap option_fmap option_map] in Hsample. injection Hsample as Hok _.
  destruct (successful_request_is_remembered [] sampleRequest response
              (sampleState chatAnswers) s' Hrun Hok)
    as (before & userTime & assistantTime & ms' & entry & Hbefore & Hafter & _).
  eexists response, s', _. split; [exact Hrun |]. split; [exact Hafter |].
  injection Hbefore as <-. reflexivity.
Defined.

(** ** The model call *)

(** One call of [ModelManager.execute] *)
Lemma ModelManager_execute_run (pending : M unit) (request : IModelRequest)
    (signal : nat) (timeout : Z) (mm : ModelManager) (provider : IModelProvider) (s : State) :
  modelManager s = Some mm ->
  JS.get (mr_provider request) (providers mm) = Some provider ->
  let s1 := snd (pending (set_logs (fun l => l ++ [executingLog request])%list s)) in
  let options := {| eo_aborted := default false (controllers s1 !! signal);
                    eo_timeout := timeout |} in
  ModelManager.execute pending request signal timeout s
  = (prov_execute provider request options,
     set_logs (fun l => l ++ [match prov_execute provider request options with
                              | Normal response => completedLog request response
                              | Throw error => failedLog request error
                              end])%list s1).
Proof.
  intros Hmm Hprovider s1 options. unfold ModelManager.execute.
  rewrite (bind_normal (ModelManager.this _) _ s mm s)
    by (unfold ModelManager.this; by rewrite Hmm).
  rewrite Hprovider.
  rewrite (try_catch_bind_normal (log _ _ _) _ _ _ _ _ eq_refl).
  unfold ModelManager.awaitProvider.
  rewrite try_catch_bind.
  rewrite (bind_normal (ModelManager.meanwhile pending) _ _ _ _ eq_refl).
  rewrite (bind_normal (gets _) _ _ _ _ eq_refl). unfold settle at 1.
  fold (executingLog request). fold s1. fold options.
  destruct (prov_execute provider request options) as [response | error]; [| reflexivity].
  by rewrite (try_catch_bind_normal (log _ _ _) _ _ _ _ _ eq_refl).
Qed.

(** X14. [ModelManager.execute] passes on what the provider does.  For a
    provider that is not registered it throws "Provider ... not found"
    without logging or calling anything.  Otherwise it calls the provider
    once, with the request as it is and the timeout given, and completes as
    the provider does: it returns the response of the provider, or throws
    the very error that the provider threw; the call is logged before, and
    after it its completion (with the model, the provider and the token
    count of the response, if it has one) or its failure (with the model,
    the provider and the error). *)
Theorem ModelManager_execute_passes_outcome (pending : M unit) (request : IModelRequest)
    (signal : nat) (timeout : Z) (mm : ModelManager) (s : State) :
  modelManager s = Some mm ->
  match JS.get (mr_provider request) (providers mm) with
  | None =>
      ModelManager.execute pending request signal timeout s
      = (Throw (Error ("Provider " +:+ mr_provider request +:+ " not found")), s)
  | Some provider =>
      exists aborted s1 s',
        snd (pending (set_logs (fun l => l ++ [executingLog request])%list s)) = s1
        /\ aborted = default false (controllers s1 !! signal)
        /\ ModelManager.execute pending request signal timeout s
           = (prov_execute provider request {| eo_aborted := aborted; eo_timeout := timeout |},
              s')
        /\ logs s'
           = (logs s1
                ++ [match prov_execute provider request
                            {| eo_aborted := aborted; eo_timeout := timeout |} with
                    | Normal response => completedLog request response
                    | Throw error => failedLog request error
                    end])%list
  end.
Proof.
  intros Hmm.
  destruct (JS.get (mr_provider request) (providers mm)) as [provider |] eqn:Hprovider.
  - eexists _, _, _. split; [reflexivity |]. split; [reflexivity |].
    split; [exact (ModelManager_execute_run _ _ _ _ mm provider s Hmm Hprovider) |].
    reflexivity.
  - unfold ModelManager.execute.
    rewrite (bind_normal (ModelManager.this _) _ s mm s)
      by (unfold ModelManager.this; by rewrite Hmm).
    by rewrite Hprovider.
Qed.

Lemma ModelManager_execute_passes_outcome_witness :
  fst (ModelManager.execute (ret tt) openaiRequest 0 30000 (sampleState chatFails))
  = Throw (Error "OpenAI API error: Service Unavailable")
  /\ exists response s',
       ModelManager.execute (ret tt) openaiRequest 0 30000 (sampleState chatAnswers)
       = (Normal response, s')
       /\ logs s'
          = [ {| log_level := LInfo;
                 log_message := "Model Manager: Executing request with gpt-4o on openai";
                 log_data := [] |};
              {| log_level := LInfo; log_message := "Model Manager: Request completed";
                 log_data := [("model", JStr "gpt-4o"); ("provider", JStr "openai");
                              ("tokens", JNum 42)] |} ].
Proof.
  split.
  - pose proof (ModelManager_execute_passes_outcome (ret tt) openaiRequest 0 30000
                  (sampleModels chatFails) (sampleState chatFails) eq_refl) as Hrun.
    change (JS.get (mr_provider openaiRequest) (providers (sampleModels chatFails)))
      with (Some (ModelManager.OpenAIProvider true chatFails)) in Hrun.
    destruct Hrun as (aborted & s1 & s' & _ & _ & Hrun & _).
    rewrite Hrun. reflexivity.
  - pose proof (ModelManager_execute_passes_outcome (ret tt) openaiRequest 0 30000
                  (sampleModels chatAnswers) (sampleState chatAnswers) eq_refl) as Hrun.
    change (JS.get (mr_provider openaiRequest) (providers (sampleModels chatAnswers)))
      with (Some (ModelManager.OpenAIProvider true chatAnswers)) in Hrun.
    destruct Hrun as (aborted & s1 & s' & <- & -> & Hrun & Hlogs).
    eexists _, s'. split; [exact Hrun |]. exact Hlogs.
Defined.

(** ** Cancelling *)

(** X19. [cancel] for an id that is not in flight changes nothing and
    logs nothing.  For an id that is in flight it raises the abort signal of
    the request, removes the entry and logs the cancellation; it touches no
    other entry and no other signal, fires no event, and a second [cancel]
    for the same id changes nothing any more. *)
Theorem cancel_once (requestId : string) (s : State) :
  match activeRequests s !! requestId with
  | None => AgentOrchestrator.cancel requestId s = (Normal tt, s)
  | Some controller =>
      exists s',
        AgentOrchestrator.cancel requestId s = (Normal tt, s')
        /\ activeRequests s' = delete requestId (activeRequests s)
        /\ controllers s' = <[controller := true]> (controllers s)
        /\ logs s'
           = (logs s
                ++ [{| log_level := LInfo;
                       log_message := "Agent Orchestrator: Cancelled request " +:+ requestId;
                       log_data := [] |}])%list
        /\ events s' = events s
        /\ (requestId ∉ st_activeRequests (AgentOrchestrator.getStatus s'))
        /\ AgentOrchestrator.cancel requestId s' = (Normal tt, s')
  end.
Proof.
  destruct (activeRequests s !! requestId) as [controller |] eqn:Hactive.
  2: { unfold AgentOrchestrator.cancel. rewrite (bind_normal (gets _) _ _ _ _ eq_refl).
       by rewrite Hactive. }
  unfold AgentOrchestrator.cancel at 1. rewrite (bind_normal (gets _) _ _ _ _ eq_refl).
  rewrite Hactive.
  eexists. split; [reflexivity |]. split; [reflexivity |]. split; [reflexivity |].
  split; [reflexivity |]. split; [reflexivity |]. split.
  - unfold AgentOrchestrator.getStatus.
    cbn [st_activeRequests activeRequests set_logs set_activeRequests set_controllers].
    rewrite elem_of_elements, elem_of_dom, lookup_delete_eq. by intros [? ?].
  - unfold AgentOrchestrator.cancel. rewrite (bind_normal (gets _) _ _ _ _ eq_refl).
    cbn [activeRequests set_logs set_activeRequests set_controllers].
    by rewrite lookup_delete_eq.
Qed.

(** X15. A call of [cancel] made while the model call of a request is
    pending reaches the provider: when the abort controller of the request
    is registered under its id, the provider is called with the abort signal
    raised.  When nothing is cancelled meanwhile and the signal was not
    raised before, the provider is called with the signal not raised. *)
Theorem cancel_reaches_pending_model_call (requestId : string) (request : IModelRequest)
    (signal : nat) (timeout : Z) (mm : ModelManager) (provider : IModelProvider) (s : State) :
  modelManager s = Some mm ->
  JS.get (mr_provider request) (providers mm) = Some provider ->
  activeRequests s !! requestId = Some signal ->
  (signal < length (controllers s))%nat ->
  (exists s',
      ModelManager.execute (AgentOrchestrator.cancel requestId) request signal timeout s
      = (prov_execute provider request {| eo_aborted := true; eo_timeout := timeout |}, s')
      /\ activeRequests s' !! requestId = None)
  /\ (controllers s !! signal = Some false ->
      exists s',
        ModelManager.execute (ret tt) request signal timeout s
        = (prov_execute provider request {| eo_aborted := false; eo_timeout := timeout |}, s')).
Proof.
  intros Hmm Hprovider Hactive Hsignal. split.
  - pose proof (ModelManager_execute_run (AgentOrchestrator.cancel requestId) request signal
                  timeout mm provider s Hmm Hprovider) as Hrun.
    cbv zeta in Hrun.
    assert (snd (AgentOrchestrator.cancel requestId
                   (set_logs (fun l => l ++ [executingLog request])%list s))
            = set_logs (fun l => l ++ [{| log_level := LInfo;
                                          log_message := "Agent Orchestrator: Cancelled request "
                                                           +:+ requestId;
                                          log_data := [] |}])%list
                (set_activeRequests (delete requestId)
                   (set_controllers <[signal := true]>
                      (set_logs (fun l => l ++ [executingLog request])%list s)))) as Hcancel.
    { unfold AgentOrchestrator.cancel. rewrite (bind_normal (gets _) _ _ _ _ eq_refl).
      cbn [activeRequests set_logs]. by rewrite Hactive. }
    rewrite Hcancel in Hrun.
    cbn [controllers set_logs set_activeRequests set_controllers] in Hrun.
    rewrite list_lookup_insert_eq in Hrun by exact Hsignal. cbn [default from_option id] in Hrun.
    eexists. split; [exact Hrun |].
    cbn [activeRequests set_logs set_activeRequests set_controllers].
    apply lookup_delete_eq.
  - intros Hfalse.
    pose proof (ModelManager_execute_run (ret tt) request signal timeout mm provider s
                  Hmm Hprovider) as Hrun.
    cbv zeta in Hrun. cbn [ret snd controllers set_logs] in Hrun. rewrite Hfalse in Hrun.
    eexists. exact Hrun.
Qed.

Lemma cancel_reaches_pending_model_call_witness :
  fst (ModelManager.execute (AgentOrchestrator.cancel "r1") openaiRequest 0 30000
         inFlightState)
  = Throw (Error "This operation was aborted").
Proof.
  assert (0 < length (controllers inFlightState))%nat as Hsignal by (cbn; lia).
  destruct (cancel_reaches_pending_model_call "r1" openaiRequest 0 30000
              (sampleModels chatAnswers) (ModelManager.OpenAIProvider true chatAnswers)
              inFlightState eq_refl eq_refl eq_refl Hsignal) as [(s' & Hrun & _) _].
  rewrite Hrun. reflexivity.
Defined.

Lemma cancel_once_witness :
  exists s',
    AgentOrchestrator.cancel "r1" inFlightState = (Normal tt, s')
    /\ controllers s' = [true]
    /\ logs s'
       = (logs inFlightState
            ++ [{| log_level := LInfo;
                   log_message := "Agent Orchestrator: Cancelled request r1";
                   log_data := [] |}])%list
    /\ AgentOrchestrator.cancel "r1" s' = (Normal tt, s').
Proof.
  pose proof (cancel_once "r1" inFlightState) as Hrun.
  change (activeRequests inFlightState !! "r1") with (Some 0%nat) in Hrun.
  destruct Hrun as (s' & Hrun & _ & Hcontrollers & Hlogs & _ & _ & Hagain).
  exists s'. split; [exact Hrun |]. split; [exact Hcontrollers |].
  split; [exact Hlogs | exact Hagain].
Defined.

(** ** Selection among the providers of the source *)

Lemma tableChoice_sound (ps : list IModelProvider) (names : list string) (model : IModelInfo) :
  tableChoice ps names = Some model ->
  exists modelName, modelName ∈ names /\ listed ps modelName = Some model.
Proof.
  induction names as [| name rest IH]; cbn [tableChoice]; [discriminate |].
  destruct (listed ps name) as [found |] eqn:Hfound.
  - intros [= ->]. exists name. split; [apply list_elem_of_here | exact Hfound].
  - intros Hrest. destruct (IH Hrest) as (modelName & Hin & Hlisted).
    exists modelName. split; [by apply list_elem_of_further | exact Hlisted].
Qed.

Lemma tableChoice_some (ps : list IModelProvider) (names : list string) (modelName : string) :
  modelName ∈ names -> is_Some (listed ps modelName) -> is_Some (tableChoice ps names).
Proof.
  intros Hin Hlisted. induction names as [| name rest IH]; [by apply elem_of_nil in Hin |].
  cbn [tableChoice]. destruct (listed ps name) as [found |] eqn:Hfound; [by eexists |].
  apply elem_of_cons in Hin as [-> | Hin]; [| by apply IH].
  rewrite Hfound in Hlisted. by destruct Hlisted.
Qed.

Section SourceProviders.
Variables (hfKey ollamaUp : bool) (ollamaTags : option (list string)).
Variables (ollamaChat openaiChat : IModelRequest -> ExecuteOptions -> Completion IModelResponse).
Variable openaiKey : bool.

Let pm : list (string * IModelProvider) :=
  ModelManager.initializeProviders hfKey ollamaUp ollamaTags ollamaChat openaiKey openaiChat.

(** A model that a provider of the source lists names that provider. *)
Lemma source_listing (provider : IModelProvider) (models : list IModelInfo)
    (model : IModelInfo) :
  provider ∈ JS.values pm -> prov_listModels provider = Normal models -> model ∈ models ->
  mi_provider model ∈ listingProviders /\ is_Some (JS.get (mi_provider model) pm).
Proof.
  intros Hprovider Hmodels Hmodel.
  change (JS.values pm)
    with [ModelManager.HuggingFaceProvider hfKey;
          ModelManager.OllamaProvider ollamaUp ollamaTags ollamaChat;
          ModelManager.OpenAIProvider openaiKey openaiChat;
          ModelManager.PlaceholderProvider "anthropic" "Anthropic";
          ModelManager.PlaceholderProvider "google" "Google";
          ModelManager.PlaceholderProvider "azure" "Azure";
          ModelManager.PlaceholderProvider "openrouter" "OpenRouter"] in Hprovider.
  repeat (apply elem_of_cons in Hprovider as [-> | Hprovider]);
    try (by apply elem_of_nil in Hprovider);
    cbn [prov_listModels ModelManager.HuggingFaceProvider ModelManager.OllamaProvider
           ModelManager.OpenAIProvider ModelManager.PlaceholderProvider] in Hmodels;
    injection Hmodels as <-.
  - repeat (apply elem_of_cons in Hmodel as [-> | Hmodel]); try (by apply elem_of_nil in Hmodel);
      (split; [by apply includes_true | by eexists]).
  - apply list_elem_of_In, in_map_iff in Hmodel as (name & <- & _).
    split; [by apply includes_true | by eexists].
  - repeat (apply elem_of_cons in Hmodel as [-> | Hmodel]); try (by apply elem_of_nil in Hmodel);
      (split; [by apply includes_true | by eexists]).
  - by apply elem_of_nil in Hmodel.
  - by apply elem_of_nil in Hmodel.
  - by apply elem_of_nil in Hmodel.
  - by apply elem_of_nil in Hmodel.
Qed.

Lemma source_listed (modelName : string) (model : IModelInfo) :
  listed (JS.values pm) modelName = Some model ->
  mi_provider model ∈ listingProviders /\ is_Some (JS.get (mi_provider model) pm).
Proof.
  intros Hlisted. apply listed_sound in Hlisted as (_ & provider & models & Hp & Hms & Hm).
  by apply (source_listing provider models).
Qed.

Lemma source_gpt4o_listed : is_Some (listed (JS.values pm) "gpt-4o").
Proof.
  destruct (listed_complete (JS.values pm) "gpt-4o") as (model & Hmodel); [| by eexists].
  exists (ModelManager.OpenAIProvider openaiKey openaiChat). eexists. exists gpt4o.
  split; [| split; [reflexivity |]].
  - do 2 apply list_elem_of_further. apply list_elem_of_here.
  - split; [apply list_elem_of_here | reflexivity].
Qed.

Lemma source_codellama_listed : listed (JS.values pm) "codellama" = Some codellama.
Proof. reflexivity. Qed.

Lemma source_table (type : RequestType) :
  is_Some (tableChoice (JS.values pm) (ModelManager.preferredModels (taskTypeOf type)))
  /\ (codellamaFirst type = true ->
      tableChoice (JS.values pm) (ModelManager.preferredModels (taskTypeOf type))
      = Some codellama).
Proof.
  split.
  - destruct type;
      first [ apply (tableChoice_some _ _ "codellama");
              [by apply includes_true | rewrite source_codellama_listed; by eexists]
            | apply (tableChoice_some _ _ "gpt-4o");
              [by apply includes_true | apply source_gpt4o_listed] ].
  - by destruct type.
Qed.
End SourceProviders.

(** X16. With the seven providers that [initializeProviders] registers,
    model selection never fails, for no kind of request, no preferred model
    and no state of the environment (API keys configured or not, Ollama
    running or not, whatever models it reports): the table of every kind
    holds [codellama] or [gpt-4o], which the fixed listings of Hugging Face
    and OpenAI always contain, so the error "No models available" cannot
    arise.  The model selected is listed by Hugging Face, Ollama or OpenAI
    and names its provider, so [ModelManager.execute] finds the provider.
    For a command, refactor, debug or test request without a preferred model
    the model is [codellama] of Hugging Face, also when no key for Hugging
    Face is configured. *)
Theorem source_providers_always_select (hfKey ollamaUp : bool)
    (ollamaTags : option (list string))
    (ollamaChat openaiChat : IModelRequest -> ExecuteOptions -> Completion IModelResponse)
    (openaiKey : bool) (current : option IModelInfo) (request : IAgentRequest) (s : State) :
  let pm := ModelManager.initializeProviders hfKey ollamaUp ollamaTags ollamaChat openaiKey
              openaiChat in
  modelManager s = Some {| providers := pm; currentModel := current |} ->
  exists model s',
    AgentOrchestrator.selectModel request s = (Normal model, s')
    /\ mi_provider model ∈ listingProviders
    /\ is_Some (JS.get (mi_provider model) pm)
    /\ (req_options request ≫= opt_model = None -> codellamaFirst (req_type request) = true ->
        model = codellama).
Proof.
  intros pm Hmm. rewrite orchestrator_selectModel.
  destruct (selectModel_result pm (taskTypeOf (req_type request))
              (req_options request ≫= opt_model) s) as (s' & Hrun & _); [by rewrite Hmm |].
  rewrite Hrun. clear Hrun.
  destruct (source_table hfKey ollamaUp ollamaTags ollamaChat openaiChat openaiKey
              (req_type request)) as [[chosen Hchosen] Hfirst].
  fold pm in Hchosen, Hfirst.
  assert (selectionPolicy (JS.values pm) (taskTypeOf (req_type request)) None = Normal chosen)
    as Hdefault.
  { unfold selectionPolicy, defaultPolicy.
    destruct (taskTypeOf_own (req_type request)) as [Hown _].
    apply includes_false in Hown. by rewrite Hown, Hchosen. }
  assert (mi_provider chosen ∈ listingProviders
          /\ is_Some (JS.get (mi_provider chosen) pm)) as Hsource.
  { apply tableChoice_sound in Hchosen as (modelName & _ & Hlisted).
    by apply (source_listed hfKey ollamaUp ollamaTags ollamaChat openaiChat openaiKey
                modelName). }
  destruct (req_options request ≫= opt_model) as [[| c preferred] |] eqn:Hpreferred.
  - exists chosen, s'. split; [by rewrite <- Hdefault |]. split; [apply Hsource |].
    split; [apply Hsource | discriminate].
  - unfold selectionPolicy.
    destruct (listed (JS.values pm) (String c preferred)) as [found |] eqn:Hfound.
    + exists found, s'. split; [reflexivity |].
      destruct (source_listed hfKey ollamaUp ollamaTags ollamaChat openaiChat openaiKey
                  _ _ Hfound) as [Hprovider Hregistered].
      split; [exact Hprovider |]. split; [exact Hregistered | discriminate].
    + exists chosen, s'. fold (selectionPolicy (JS.values pm) (taskTypeOf (req_type request)) None).
      split; [by rewrite Hdefault |]. split; [apply Hsource |].
      split; [apply Hsource | discriminate].
  - exists chosen, s'. split; [by rewrite Hdefault |]. split; [apply Hsource |].
    split; [apply Hsource |]. intros _ Hkind. rewrite (Hfirst Hkind) in Hchosen.
    by injection Hchosen.
Qed.

(** Without any key and without Ollama, a debug request gets [codellama]
    of Hugging Face. *)
Lemma source_providers_always_select_witness :
  exists s',
    AgentOrchestrator.selectModel
      {| req_id := "d1"; req_type := debug; req_content := "why does it crash";
         req_context := None; req_options := None |}
      (set_modelManager
         (fun _ => Some {| providers := ModelManager.initializeProviders false false None chatFails
                                          false chatFails;
                           currentModel := None |})
         (sampleState chatFails))
    = (Normal codellama, s').
Proof.
  destruct (source_providers_always_select false false None chatFails chatFails false None
              {| req_id := "d1"; req_type := debug; req_content := "why does it crash";
                 req_context := None; req_options := None |}
              (set_modelManager
                 (fun _ => Some {| providers := ModelManager.initializeProviders false false None
                                                  chatFails false chatFails;
                                   currentModel := None |})
                 (sampleState chatFails)) eq_refl) as (model & s' & Hrun & _ & _ & Hcodellama).
  exists s'. rewrite Hrun. by rewrite (Hcodellama eq_refl eq_refl).
Defined.

(** ** The current model *)

Lemma keeps_findModel_loop (ps : list IModelProvider) (modelName : string) :
  respects (keeps modelManager) (ModelManager.findModel_loop ps modelName).
Proof.
  induction ps as [| provider rest IH]; cbn [ModelManager.findModel_loop]; keep_auto.
Qed.

Lemma keeps_getAvailableModels_loop (ps : list IModelProvider) (allModels : list IModelInfo) :
  respects (keeps modelManager) (ModelManager.getAvailableModels_loop ps allModels).
Proof.
  revert allModels. induction ps as [| provider rest IH]; intros allModels;
    cbn [ModelManager.getAvailableModels_loop]; keep_auto.
Qed.

Lemma keeps_ModelManager_this (method : string) :
  respects (keeps modelManager) (ModelManager.this method).
Proof.
  intros s. unfold keeps, ModelManager.this. by destruct (modelManager s) eqn:Hmm.
Qed.

Lemma keeps_findModel (modelName : string) :
  respects (keeps modelManager) (ModelManager.findModel modelName).
Proof.
  unfold ModelManager.findModel.
  apply (respects_bind _ (keeps_trans _)); [apply keeps_ModelManager_this |].
  intros mm. apply keeps_findModel_loop.
Qed.

Lemma keeps_firstFound (names : list string) :
  respects (keeps modelManager) (ModelManager.firstFound names).
Proof.
  induction names as [| name rest IH]; cbn [ModelManager.firstFound].
  - apply (respects_ret _ (keeps_refl _)).
  - apply (respects_bind _ (keeps_trans _)); [apply keeps_findModel |].
    intros [model |]; [apply (respects_ret _ (keeps_refl _)) | exact IH].
Qed.

Lemma keeps_selectModelByTaskType (taskType : string) :
  respects (keeps modelManager) (ModelManager.selectModelByTaskType taskType).
Proof.
  unfold ModelManager.selectModelByTaskType, ModelManager.getAvailableModels.
  destruct (JS.includes ModelManager.inheritedNames taskType);
    [apply (respects_throw _ (keeps_refl _)) |].
  apply (respects_bind _ (keeps_trans _)); [apply keeps_firstFound |].
  intros [model |]; [apply (respects_ret _ (keeps_refl _)) |].
  apply (respects_bind _ (keeps_trans _)).
  - apply (respects_bind _ (keeps_trans _)); [apply keeps_ModelManager_this |].
    intros mm. apply keeps_getAvailableModels_loop.
  - intros [| model rest];
      [apply (respects_throw _ (keeps_refl _)) | apply (respects_ret _ (keeps_refl _))].
Qed.

(** A selection that fails leaves the model manager as it was. *)
Lemma selectModel_failure (taskType : string) (preferredModel : option string)
    (error : Exn) (s s' : State) :
  ModelManager.selectModel taskType preferredModel s = (Throw error, s') ->
  modelManager s' = modelManager s.
Proof.
  unfold ModelManager.selectModel. unfold bind at 1.
  pose proof (keeps_ModelManager_this "selectModel" s) as Hthis.
  destruct (ModelManager.this "selectModel" s) as [[mm | e] s0]; cbn [snd] in Hthis;
    [| by intros [= _ <-]].
  unfold bind at 1.
  assert (respects (keeps modelManager)
            (match preferredModel with
             | Some (String c p) => ModelManager.findModel (String c p)
             | _ => ret None
             end)) as Hpreferred.
  { destruct preferredModel as [[| c p] |];
      [apply (respects_ret _ (keeps_refl _)) | apply keeps_findModel
       | apply (respects_ret _ (keeps_refl _))]. }
  specialize (Hpreferred s0).
  destruct (match preferredModel with
            | Some (String c p) => ModelManager.findModel (String c p)
            | _ => ret None
            end s0) as [[[found |] | e] s1]; cbn [snd] in Hpreferred.
  - discriminate.
  - unfold bind at 1. pose proof (keeps_selectModelByTaskType taskType s1) as Hdefault.
    destruct (ModelManager.selectModelByTaskType taskType s1) as [[model | e] s2];
      cbn [snd] in Hdefault; [discriminate |].
    intros [= _ <-]. unfold keeps in *. congruence.
  - intros [= _ <-]. unfold keeps in *. congruence.
Qed.

(** X17. When model selection returns a model, that model is the
    current one from then on: [getStatus] reports its name (or [none] for
    the empty name).  When selection fails, the current model stays what it
    was. *)
Theorem selectModel_records_current_model (request : IAgentRequest) (mm : ModelManager)
    (s : State) :
  modelManager s = Some mm ->
  match AgentOrchestrator.selectModel request s with
  | (Normal model, s') =>
      (currentModel <$> modelManager s') = Some (Some model)
      /\ st_currentModel (AgentOrchestrator.getStatus s') = JS.orElse (Some (mi_name model)) "none"
  | (Throw _, s') =>
      modelManager s' = Some mm
      /\ st_currentModel (AgentOrchestrator.getStatus s')
         = st_currentModel (AgentOrchestrator.getStatus s)
  end.
Proof.
  intros Hmm. rewrite orchestrator_selectModel.
  destruct (selectModel_result (providers mm) (taskTypeOf (req_type request))
              (req_options request ≫= opt_model) s) as (s' & Hrun & Hcurrent);
    [by rewrite Hmm |].
  destruct (ModelManager.selectModel (taskTypeOf (req_type request))
              (req_options request ≫= opt_model) s) as [[model | error] s1] eqn:Hselect.
  - injection Hrun as Hpolicy <-. symmetry in Hpolicy.
    specialize (Hcurrent model Hpolicy). unfold AgentOrchestrator.getStatus.
    cbn [st_currentModel]. rewrite Hcurrent. by split.
  - apply selectModel_failure in Hselect. unfold AgentOrchestrator.getStatus.
    cbn [st_currentModel]. rewrite Hselect, Hmm. by split.
Qed.

Lemma selectModel_records_current_model_witness :
  exists model s',
    AgentOrchestrator.selectModel sampleRequest (sampleState chatAnswers) = (Normal model, s')
    /\ st_currentModel (AgentOrchestrator.getStatus (sampleState chatAnswers)) = "none"
    /\ st_currentModel (AgentOrchestrator.getStatus s') = "gpt-4o".
Proof.
  pose proof (selectModel_records_current_model sampleRequest (sampleModels chatAnswers)
                (sampleState chatAnswers) eq_refl) as Hcurrent.
  assert (fst (AgentOrchestrator.selectModel sampleRequest (sampleState chatAnswers))
          = Normal gpt4o) as Hselected by (vm_compute; reflexivity).
  destruct (AgentOrchestrator.selectModel sampleRequest (sampleState chatAnswers))
    as [[model | error] s']; [| discriminate].
  injection Hselected as ->. destruct Hcurrent as [_ Hstatus].
  exists gpt4o, s'. split; [reflexivity |]. split; [reflexivity | exact Hstatus].
Defined.

(** X18. [setDefaultModel] does not throw.  The default provider is the
    one that the configuration names, or [huggingface] when it names none;
    the first model that this provider lists becomes the current model.
    When no provider has that name, when the provider lists no model or when
    its listing fails, the current model stays what it was, and a failed
    listing is logged as a warning.  The providers are not touched. *)
Theorem setDefaultModel_outcome (configDefault : option string) (mm : ModelManager)
    (s : State) :
  modelManager s = Some mm ->
  exists s',
    ModelManager.setDefaultModel configDefault s = (Normal tt, s')
    /\ modelManager s'
       = Some {| providers := providers mm;
                 currentModel :=
                   match JS.get (JS.orElse configDefault "huggingface") (providers mm) with
                   | Some provider =>
                       match prov_listModels provider with
                       | Normal (model :: _) => Some model
                       | _ => currentModel mm
                       end
                   | None => currentModel mm
                   end |}
    /\ events s' = events s
    /\ (forall provider error,
           JS.get (JS.orElse configDefault "huggingface") (providers mm) = Some provider ->
           prov_listModels provider = Throw error ->
           logs s' = (logs s ++ [{| log_level := LWarn;
                                    log_message := "Model Manager: Failed to set default model";
                                    log_data := [("error", Exn_json error)] |}])%list).
Proof.
  intros Hmm. unfold ModelManager.setDefaultModel.
  rewrite (bind_normal (ModelManager.this _) _ s mm s)
    by (unfold ModelManager.this; by rewrite Hmm).
  cbv zeta. destruct mm as [pm current]. cbn [providers currentModel] in *.
  destruct (JS.get (JS.orElse configDefault "huggingface") pm) as [provider |].
  - rewrite try_catch_bind. unfold settle at 1.
    destruct (prov_listModels provider) as [[| model rest] | error] eqn:Hlisting.
    + exists s. split; [reflexivity |]. split; [exact Hmm |]. split; [reflexivity |].
      intros ? ? [= <-] Hthrow. congruence.
    + eexists. split; [reflexivity |]. cbn. rewrite Hmm. split; [reflexivity |].
      split; [reflexivity |]. intros ? ? [= <-] Hthrow. congruence.
    + eexists. split; [reflexivity |]. cbn. split; [exact Hmm |]. split; [reflexivity |].
      intros ? ? [= <-] Hthrow. rewrite Hlisting in Hthrow. by injection Hthrow as <-.
  - exists s. split; [reflexivity |]. split; [exact Hmm |]. split; [reflexivity |].
    intros ? ? Hsome. discriminate Hsome.
Qed.

(** With the providers of the source and nothing configured, the current
    model after [setDefaultModel] is [codellama], key or no key. *)
Lemma setDefaultModel_outcome_witness :
  exists s',
    ModelManager.setDefaultModel None (sampleState chatAnswers) = (Normal tt, s')
    /\ st_currentModel (AgentOrchestrator.getStatus s') = "codellama".
Proof.
  destruct (setDefaultModel_outcome None (sampleModels chatAnswers) (sampleState chatAnswers)
              eq_refl) as (s' & Hrun & Hmm & _).
  exists s'. split; [exact Hrun |]. unfold AgentOrchestrator.getStatus. cbn [st_currentModel].
  rewrite Hmm. reflexivity.
Defined.

(** ** The knowledge graph *)

Lemma relateTo_elem (entity1 : IKnowledgeNode) (later : list IKnowledgeNode)
    (e : IKnowledgeEdge) :
  e ∈ MemorySystem.relateTo entity1 later
  <-> exists (j : nat) (entity2 : IKnowledgeNode),
        later !! j = Some entity2
        /\ MemorySystem.sameFile entity1 entity2 = true
        /\ e = MemorySystem.relatedEdge entity1 entity2.
Proof.
  induction later as [| entity2 rest IH]; cbn [MemorySystem.relateTo].
  - split; [intros He; by apply elem_of_nil in He | by intros (j & n & Hj & _)].
  - split.
    + intros He.
      assert (e = MemorySystem.relatedEdge entity1 entity2
              /\ MemorySystem.sameFile entity1 entity2 = true
              \/ e ∈ MemorySystem.relateTo entity1 rest) as [[-> Hsame] | Hrest].
      { destruct (MemorySystem.sameFile entity1 entity2); [| by right].
        apply elem_of_cons in He as [-> | He]; [by left | by right]. }
      * by exists 0%nat, entity2.
      * apply IH in Hrest as (j & n & Hj & Hsame & ->). by exists (S j), n.
    + intros ([| j] & n & Hj & Hsame & ->); cbn in Hj.
      * injection Hj as ->. rewrite Hsame. apply list_elem_of_here.
      * assert (MemorySystem.relatedEdge entity1 n ∈ MemorySystem.relateTo entity1 rest)
          as Hrest by (apply IH; by exists j, n).
        destruct (MemorySystem.sameFile entity1 entity2);
          [by apply list_elem_of_further | exact Hrest].
Qed.

Lemma relateTo_length (entity1 : IKnowledgeNode) (later : list IKnowledgeNode) :
  (length (MemorySystem.relateTo entity1 later) <= length later)%nat.
Proof.
  induction later as [| entity2 rest IH]; cbn [MemorySystem.relateTo length]; [lia |].
  destruct (MemorySystem.sameFile entity1 entity2); cbn [length]; lia.
Qed.

Lemma relateAll_elem (entities : list IKnowledgeNode) (e : IKnowledgeEdge) :
  e ∈ MemorySystem.relateAll entities
  <-> exists (i j : nat) (entity1 entity2 : IKnowledgeNode),
        (i < j)%nat
        /\ entities !! i = Some entity1 /\ entities !! j = Some entity2
        /\ MemorySystem.sameFile entity1 entity2 = true
        /\ e = MemorySystem.relatedEdge entity1 entity2.
Proof.
  induction entities as [| entity rest IH]; cbn [MemorySystem.relateAll].
  - split; [intros He; by apply elem_of_nil in He | by intros (i & j & n1 & n2 & _ & Hi & _)].
  - rewrite elem_of_app, relateTo_elem, IH. split.
    + intros [(j & n2 & Hj & Hsame & ->) | (i & j & n1 & n2 & Hij & Hi & Hj & Hsame & ->)].
      * exists 0%nat, (S j), entity, n2. repeat split; [lia | done..].
      * exists (S i), (S j), n1, n2. repeat split; [lia | done..].
    + intros ([| i] & j & n1 & n2 & Hij & Hi & Hj & Hsame & ->).
      * destruct j as [| j]; [lia |]. cbn in Hi, Hj. injection Hi as ->.
        left. by exists j, n2.
      * destruct j as [| j]; [lia |]. cbn in Hi, Hj.
        right. exists i, j, n1, n2. repeat split; [lia | done..].
Qed.

Lemma relateAll_length (entities : list IKnowledgeNode) :
  (2 * length (MemorySystem.relateAll entities)
   <= length entities * (length entities - 1))%nat.
Proof.
  induction entities as [| entity rest IH]; cbn [MemorySystem.relateAll length]; [lia |].
  rewrite length_app. pose proof (relateTo_length entity rest).
  destruct (length rest) as [| k]; cbn [Nat.sub] in *; [lia | nia].
Qed.

(** X20. [buildRelationships] links two entities exactly when the
    [file] property of the one is (strictly) equal to that of the other:
    one edge for each such pair, from the entity that comes first in the list
    to the one that comes later, with weight 0.5; the edges come in the order
    of their sources.  So [n] entities get [n (n - 1) / 2] edges at most, no
    entity is linked to itself by position, and the state is not touched. *)
Theorem buildRelationships_links_pairs (entities : list IKnowledgeNode) (s : State) :
  exists edges,
    MemorySystem.buildRelationships entities s = (Normal edges, s)
    /\ (forall e : IKnowledgeEdge,
           e ∈ edges
           <-> exists (i j : nat) (entity1 entity2 : IKnowledgeNode),
                 (i < j)%nat
                 /\ entities !! i = Some entity1 /\ entities !! j = Some entity2
                 /\ MemorySystem.sameFile entity1 entity2 = true
                 /\ e = {| edge_source := node_id entity1; edge_target := node_id entity2;
                           edge_weight := 5 # 10 |})
    /\ (2 * length edges <= length entities * (length entities - 1))%nat.
Proof.
  exists (MemorySystem.relateAll entities). split; [reflexivity |].
  split; [apply relateAll_elem | apply relateAll_length].
Qed.

(** Of three entities, two of the file [a.ts], one pair is linked. *)
Example buildRelationships_run :
  MemorySystem.relateAll sampleEntities
  = [{| edge_source := "entity_a.ts_parse"; edge_target := "entity_a.ts_print";
        edge_weight := 5 # 10 |}].
Proof. reflexivity. Qed.

(** X21. [buildKnowledgeGraph] leaves the memory system with an empty
    graph, whatever graph it held before, whatever the project path and
    whatever the files of the project hold: the analysis of the project
    lists no file, so no file is read, no entity is found and no edge is
    built.  The call returns the empty graph and does not throw; memory
    entries, conversations and code patterns stay as they are, and a search
    finds no graph node afterwards. *)
Theorem buildKnowledgeGraph_empties_graph
    (extractEntitiesFromFile : string -> M (list IKnowledgeNode)) (projectPath : string)
    (ms : MemorySystem) (s : State) :
  memorySystem s = Some ms ->
  exists s',
    MemorySystem.buildKnowledgeGraph extractEntitiesFromFile projectPath s
    = (Normal MemorySystem.emptyGraph, s')
    /\ memorySystem s'
       = Some {| memory := memory ms; conversations := conversations ms;
                 knowledgeGraph := MemorySystem.emptyGraph; codePatterns := codePatterns ms |}
    /\ events s' = events s
    /\ (forall (query : string) (found : list IKnowledgeEntry),
           fst (MemorySystem.searchRelevantKnowledge query s') = Normal found ->
           forall e, e ∈ found -> ke_type e <> "graph_node").
Proof.
  intros Hms. destruct s as [w active mm ts memorySystem0 cs es ls t d fs].
  cbn [memorySystem] in Hms. subst memorySystem0.
  eexists. split; [reflexivity |]. split; [reflexivity |]. split; [reflexivity |].
  intros query found.
  change (Normal (MemorySystem.relevantKnowledge
            {| memory := memory ms; conversations := conversations ms;
               knowledgeGraph := MemorySystem.emptyGraph; codePatterns := codePatterns ms |}
            query) = Normal found -> forall e, e ∈ found -> ke_type e <> "graph_node").
  intros [= <-] e He.
  apply relevantKnowledge_candidates in He. unfold MemorySystem.candidates in He.
  cbn [knowledgeGraph MemorySystem.searchKnowledgeGraph MemorySystem.emptyGraph nodes omap
       memory] in He.
  rewrite app_nil_r in He. apply list_elem_of_omap in He as (entry & _ & He).
  unfold MemorySystem.candidate in He.
  destruct (entry_type entry); try discriminate;
    (destruct (JS.gt _ _); [| discriminate]); by injection He as <-.
Qed.

Lemma buildKnowledgeGraph_empties_graph_witness :
  exists s',
    MemorySystem.buildKnowledgeGraph (fun _ => throw (Error "ENOENT")) "/home/dev/project"
      (withMemory graphMemory (sampleState chatAnswers))
    = (Normal MemorySystem.emptyGraph, s')
    /\ (MemorySystem.searchKnowledgeGraph (knowledgeGraph graphMemory) "database"
        = [{| ke_content := "Knowledge: database (function)"; ke_relevance := 1 # 1;
              ke_source := "knowledge_graph"; ke_type := "graph_node" |}])
    /\ (knowledgeGraph <$> memorySystem s') = Some {| nodes := []; edges := [] |}.
Proof.
  destruct (buildKnowledgeGraph_empties_graph (fun _ => throw (Error "ENOENT"))
              "/home/dev/project" graphMemory
              (withMemory graphMemory (sampleState chatAnswers)) eq_refl)
    as (s' & Hrun & Hms & _).
  exists s'. split; [exact Hrun |]. split; [vm_compute; reflexivity |].
  rewrite Hms. reflexivity.
Defined.

(** ** Clearing the memory *)

(** The steps of [clearMemory] after the choice of what to clear *)
Lemma clearMemory_rest (f : MemorySystem -> MemorySystem) (data : list (string * json))
    (ms : MemorySystem) (s : State) :
  memorySystem s = Some ms ->
  exists s',
    (MemorySystem.update f ;; MemorySystem.persistMemory ;;
     log LInfo "Memory System: Memory cleared" data) s = (Normal tt, s')
    /\ memorySystem s' = Some (f ms)
    /\ events s' = events s.
Proof.
  intros Hms.
  rewrite (bind_normal (MemorySystem.update f) _ s tt
             (set_memorySystem (fmap f) s) eq_refl).
  assert (memorySystem (set_memorySystem (fmap f) s) = Some (f ms)) as Hms1
    by (cbn; by rewrite Hms).
  destruct (persistMemory_returns (f ms) _ Hms1) as (s2 & Hrun2 & Hms2).
  pose proof (silent_persistMemory (set_memorySystem (fmap f) s)) as Hevents.
  rewrite Hrun2 in Hevents. unfold same_events in Hevents. cbn in Hevents.
  rewrite (bind_normal MemorySystem.persistMemory _ _ tt s2 Hrun2).
  eexists. split; [reflexivity |]. by cbn.
Qed.

Lemma clearMemory_run (type : option string) (ms : MemorySystem) (s : State) :
  memorySystem s = Some ms ->
  exists s',
    MemorySystem.clearMemory type s = (Normal tt, s')
    /\ events s' = events s
    /\ memorySystem s'
       = Some (if MemorySystem.typeIs type "conversations"
               then MemorySystem.with_conversations (fun _ => ∅) ms
               else if MemorySystem.typeIs type "knowledge"
               then MemorySystem.with_memory
                      (List.filter (fun kv => negb (MemorySystem.isKnowledge (snd kv)))) ms
               else if MemorySystem.typeIs type "patterns"
               then MemorySystem.with_codePatterns (fun _ => ∅) ms
               else if MemorySystem.typeIs type "graph"
               then MemorySystem.with_knowledgeGraph (fun _ => MemorySystem.emptyGraph) ms
               else {| memory := []; conversations := ∅;
                       knowledgeGraph := MemorySystem.emptyGraph; codePatterns := ∅ |}).
Proof.
  intros Hms. unfold MemorySystem.clearMemory.
  rewrite (bind_normal (MemorySystem.this "clearMemory") _ s ms s)
    by (unfold MemorySystem.this; by rewrite Hms).
  destruct (MemorySystem.typeIs type "conversations");
    [| destruct (MemorySystem.typeIs type "knowledge");
       [| destruct (MemorySystem.typeIs type "patterns");
          [| destruct (MemorySystem.typeIs type "graph")]]];
    (edestruct clearMemory_rest as (s' & Hrun & Hms' & Hevents); [exact Hms |]);
    exists s'; (split; [exact Hrun |]); (split; [exact Hevents | exact Hms']).
Qed.

(** X22. [clearMemory('knowledge')] removes from the memory the entries
    of type [knowledge] and nothing else: the entries of the other types
    stay, in their order, and so do the conversations, the code patterns and
    the knowledge graph.  The call does not throw, whatever becomes of the
    memory file, and fires no event; a search made afterwards returns no
    result of type [knowledge], and every conversation history reads as
    before. *)
Theorem clearMemory_knowledge_keeps_the_rest (ms : MemorySystem) (s : State) :
  memorySystem s = Some ms ->
  exists s' ms',
    MemorySystem.clearMemory (Some "knowledge") s = (Normal tt, s')
    /\ memorySystem s' = Some ms'
    /\ events s' = events s
    /\ memory ms'
       = List.filter (fun kv => negb (MemorySystem.isKnowledge (snd kv))) (memory ms)
    /\ (forall (key : string) (entry : IMemoryEntry),
           (key, entry) ∈ memory ms'
           <-> (key, entry) ∈ memory ms /\ entry_type entry <> me_knowledge)
    /\ conversations ms' = conversations ms
    /\ codePatterns ms' = codePatterns ms
    /\ knowledgeGraph ms' = knowledgeGraph ms
    /\ (forall (query : string) (e : IKnowledgeEntry),
           e ∈ MemorySystem.relevantKnowledge ms' query -> ke_type e <> "knowledge")
    /\ (forall requestId : string,
           fst (MemorySystem.getConversationHistory requestId s')
           = fst (MemorySystem.getConversationHistory requestId s)).
Proof.
  intros Hms. destruct (clearMemory_run (Some "knowledge") ms s Hms) as (s' & Hrun & Hevents & Hms').
  change (MemorySystem.typeIs (Some "knowledge") "conversations") with false in Hms'.
  change (MemorySystem.typeIs (Some "knowledge") "knowledge") with true in Hms'.
  cbv iota in Hms'.
  assert (forall (key : string) (entry : IMemoryEntry),
             (key, entry) ∈ List.filter (fun kv => negb (MemorySystem.isKnowledge (snd kv)))
                              (memory ms)
             <-> (key, entry) ∈ memory ms /\ entry_type entry <> me_knowledge) as Hkept.
  { intros key entry. rewrite !list_elem_of_In, filter_In, <- !list_elem_of_In.
    cbn [snd]. unfold MemorySystem.isKnowledge.
    destruct (entry_type entry); cbn; split; intros [Hin Htype]; (split; [exact Hin |]);
      done. }
  eexists s', _. split; [exact Hrun |]. split; [exact Hms' |]. split; [exact Hevents |].
  cbn [memory conversations codePatterns knowledgeGraph MemorySystem.with_memory].
  split; [reflexivity |]. split; [exact Hkept |]. do 3 (split; [reflexivity |]). split.
  - intros query e He. apply relevantKnowledge_candidates in He.
    unfold MemorySystem.candidates in He.
    cbn [memory knowledgeGraph MemorySystem.with_memory] in He.
    apply elem_of_app in He as [He | He].
    + apply list_elem_of_omap in He as (entry & Hentry & He).
      unfold JS.values in Hentry. apply list_elem_of_fmap in Hentry as ([key entry'] & -> & Hin).
      apply Hkept in Hin as [_ Htype]. cbn [snd] in He.
      unfold MemorySystem.candidate in He.
      destruct (entry_type entry'); try discriminate; try done;
        (destruct (JS.gt _ _); [| discriminate]); by injection He as <-.
    + unfold MemorySystem.searchKnowledgeGraph in He.
      apply list_elem_of_omap in He as (node & _ & He).
      destruct (JS.gt _ _); [| discriminate]. by injection He as <-.
  - intros requestId.
    rewrite (getConversationHistory_run requestId _ s' Hms'),
      (getConversationHistory_run requestId _ s Hms). reflexivity.
Qed.

Lemma clearMemory_knowledge_keeps_the_rest_witness :
  exists s' ms',
    MemorySystem.clearMemory (Some "knowledge") (withMemory patternMemory (sampleState chatAnswers))
    = (Normal tt, s')
    /\ memorySystem s' = Some ms'
    /\ fst <$> memory patternMemory = ["note_1"]
    /\ memory ms' = []
    /\ conversations ms' = {[ "r1" := talk ]}.
Proof.
  destruct (clearMemory_knowledge_keeps_the_rest patternMemory
              (withMemory patternMemory (sampleState chatAnswers)) eq_refl)
    as (s' & ms' & Hrun & Hms' & _ & Hmemory & _ & Hconversations & _).
  exists s', ms'. split; [exact Hrun |]. split; [exact Hms' |]. split; [reflexivity |].
  split; [exact Hmemory | exact Hconversations].
Defined.

(** X23. [clearMemory] with no type, with the empty string, or with any
    string other than [conversations], [knowledge], [patterns] and [graph]
    (a misspelt type, say) clears everything: memory entries, conversations,
    code patterns and the knowledge graph.  The call does not throw;
    afterwards every conversation history is empty, every search returns
    nothing, and no code pattern is left in any language. *)
Theorem clearMemory_other_type_clears_all (type : option string) (ms : MemorySystem)
    (s : State) :
  memorySystem s = Some ms ->
  type ∉ [Some "conversations"; Some "knowledge"; Some "patterns"; Some "graph"] ->
  exists s',
    MemorySystem.clearMemory type s = (Normal tt, s')
    /\ memorySystem s'
       = Some {| memory := []; conversations := ∅;
                 knowledgeGraph := {| nodes := []; edges := [] |}; codePatterns := ∅ |}
    /\ (forall requestId : string,
           fst (MemorySystem.getConversationHistory requestId s') = Normal [])
    /\ (forall query : string,
           fst (MemorySystem.searchRelevantKnowledge query s') = Normal [])
    /\ (forall language : option string,
           fst (MemorySystem.getCodePatterns language s') = Normal []).
Proof.
  intros Hms Htype. destruct (clearMemory_run type ms s Hms) as (s' & Hrun & _ & Hms').
  assert (forall name : string,
             Some name ∈ [Some "conversations"; Some "knowledge"; Some "patterns"; Some "graph"] ->
             MemorySystem.typeIs type name = false) as Hnot.
  { intros name Hname. unfold MemorySystem.typeIs. destruct type as [t |]; [| reflexivity].
    apply String.eqb_neq. intros ->. by apply Htype. }
  rewrite !Hnot in Hms' by (rewrite !elem_of_cons; tauto).
  exists s'. split; [exact Hrun |]. split; [exact Hms' |]. split; [| split].
  - intros requestId. by rewrite (getConversationHistory_run requestId _ s' Hms').
  - intros query. unfold MemorySystem.searchRelevantKnowledge, MemorySystem.this, bind, ret.
    by rewrite Hms'.
  - intros language. unfold MemorySystem.getCodePatterns, MemorySystem.this, bind, ret.
    rewrite Hms'. cbn [codePatterns].
    destruct language as [[| c l] |]; by rewrite ?map_to_list_empty, ?lookup_empty.
Qed.

Lemma clearMemory_other_type_clears_all_witness :
  exists s',
    MemorySystem.clearMemory (Some "conversation")
      (withMemory patternMemory (sampleState chatAnswers)) = (Normal tt, s')
    /\ fst (MemorySystem.getConversationHistory "r1"
              (withMemory patternMemory (sampleState chatAnswers)))
       = Normal (conv_messages talk)
    /\ fst (MemorySystem.getConversationHistory "r1" s') = Normal []
    /\ fst (MemorySystem.getCodePatterns (Some "rust") s') = Normal [].
Proof.
  assert (Some "conversation"
          ∉ [Some "conversations"; Some "knowledge"; Some "patterns"; Some "graph"]) as Htype.
  { rewrite !not_elem_of_cons. repeat split; [discriminate.. | apply not_elem_of_nil]. }
  destruct (clearMemory_other_type_clears_all (Some "conversation") patternMemory
              (withMemory patternMemory (sampleState chatAnswers)) eq_refl Htype)
    as (s' & Hrun & _ & Hhistory & _ & Hpatterns).
  exists s'. split; [exact Hrun |]. split; [reflexivity |].
  split; [apply Hhistory | apply Hpatterns].
Defined.

(** X24. [getCodePatterns] with a language returns the patterns filed
    under that language, in the order in which they were filed, and the empty
    list for a language under which nothing was filed.  Without a language,
    or with the empty string as language, it returns the patterns of all
    languages: every filed pattern, and nothing else.  The state is as
    before. *)
Theorem getCodePatterns_by_language (language : option string) (ms : MemorySystem)
    (s : State) :
  memorySystem s = Some ms ->
  exists patterns,
    MemorySystem.getCodePatterns language s = (Normal patterns, s)
    /\ match language with
       | Some (String c l) =>
           patterns = match codePatterns ms !! String c l with
                      | Some filed => filed
                      | None => []
                      end
       | _ =>
           length patterns
           = list_sum (length <$> (snd <$> map_to_list (codePatterns ms)))
           /\ forall p : ICodePattern,
                p ∈ patterns
                <-> exists (filedUnder : string) (filed : list ICodePattern),
                      codePatterns ms !! filedUnder = Some filed /\ p ∈ filed
       end.
Proof.
  intros Hms. unfold MemorySystem.getCodePatterns, MemorySystem.this, bind, ret. rewrite Hms.
  assert (length (List.concat (snd <$> map_to_list (codePatterns ms)))
          = list_sum (length <$> (snd <$> map_to_list (codePatterns ms)))
          /\ forall p : ICodePattern,
               p ∈ List.concat (snd <$> map_to_list (codePatterns ms))
               <-> exists (filedUnder : string) (filed : list ICodePattern),
                     codePatterns ms !! filedUnder = Some filed /\ p ∈ filed) as Hall.
  { split.
    - induction (snd <$> map_to_list (codePatterns ms)) as [| filed rest IH]; [reflexivity |].
      cbn. rewrite length_app, IH. reflexivity.
    - intros p. rewrite list_elem_of_In, in_concat. split.
      + intros (filed & Hfiled & Hp). apply list_elem_of_In, list_elem_of_fmap in Hfiled
          as ([filedUnder filed'] & -> & Hin).
        apply elem_of_map_to_list in Hin. exists filedUnder, filed'.
        split; [exact Hin | by apply list_elem_of_In].
      + intros (filedUnder & filed & Hlookup & Hp). exists filed.
        split; [| by apply list_elem_of_In].
        apply list_elem_of_In, list_elem_of_fmap. exists (filedUnder, filed).
        split; [reflexivity | by apply elem_of_map_to_list]. }
  destruct language as [[| c l] |]; eexists; (split; [reflexivity |]);
    [exact Hall | | exact Hall].
  by destruct (codePatterns ms !! String c l).
Qed.

Lemma getCodePatterns_by_language_witness :
  exists patterns,
    MemorySystem.getCodePatterns (Some "rust") (withMemory patternMemory (sampleState chatAnswers))
    = (Normal patterns, withMemory patternMemory (sampleState chatAnswers))
    /\ pat_pattern <$> patterns = ["let x = 1;"].
Proof.
  destruct (getCodePatterns_by_language (Some "rust") patternMemory
              (withMemory patternMemory (sampleState chatAnswers)) eq_refl)
    as (patterns & Hrun & Hpatterns).
  exists patterns. split; [exact Hrun |]. rewrite Hpatterns. vm_compute. reflexivity.
Defined.

(** ** Requests to an orchestrator that lacks a component *)

Lemma selectModel_without_models (request : IAgentRequest) (s : State) :
  modelManager s = None ->
  AgentOrchestrator.selectModel request s = (Throw (TypeError "selectModel"), s).
Proof.
  intros Hmm. unfold AgentOrchestrator.selectModel, ModelManager.selectModel.
  destruct (req_type request); unfold bind at 1, ModelManager.this; by rewrite Hmm.
Qed.

Lemma gatherContext_without_memory (request : IAgentRequest) (s : State) :
  memorySystem s = None ->
  AgentOrchestrator.gatherContext request s = (Throw (TypeError "getConversationHistory"), s).
Proof.
  intros Hms. unfold AgentOrchestrator.gatherContext, MemorySystem.getConversationHistory.
  unfold bind at 1. unfold bind at 1. unfold MemorySystem.this. by rewrite Hms.
Qed.

(** X27. When the model manager could not be created, [execute]
    answers every request with the error response whose error is the message
    of the [TypeError] for reading [selectModel] of [undefined]; it does not
    throw.  The request is announced and ended ([DidStartRequest],
    [DidEndRequest]) and is no longer registered afterwards; the memory
    system is as before. *)
Theorem execute_without_model_manager (pending : M unit) (request : IAgentRequest)
    (s : State) :
  modelManager s = None ->
  exists s',
    AgentOrchestrator.execute pending request s
    = (Normal {| resp_id := req_id request +:+ "_error";
                 resp_requestId := req_id request;
                 resp_content := "";
                 resp_tools := None;
                 resp_error :=
                   Some "Cannot read properties of undefined (reading 'selectModel')";
                 resp_metadata := None |}, s')
    /\ events s' = (events s ++ [DidStartRequest request; DidEndRequest (req_id request)])%list
    /\ activeRequests s' !! req_id request = None
    /\ memorySystem s' = memorySystem s.
Proof.
  intros Hmm. rewrite execute_course. unfold obtainModelAnswer. unfold bind at 1.
  rewrite (selectModel_without_models request (started request s)) by exact Hmm.
  eexists. split; [reflexivity |]. cbn. rewrite <- app_assoc. split; [reflexivity |].
  split; [apply lookup_delete_eq | reflexivity].
Qed.

Lemma execute_without_model_manager_witness :
  exists s',
    fst (AgentOrchestrator.execute (ret tt) chatRequest
           (withoutModels (sampleState chatAnswers)))
    = Normal (errorResponse chatRequest (TypeError "selectModel"))
    /\ AgentOrchestrator.execute (ret tt) chatRequest (withoutModels (sampleState chatAnswers))
       = (Normal (errorResponse chatRequest (TypeError "selectModel")), s')
    /\ events s' = [DidStartRequest chatRequest; DidEndRequest (req_id chatRequest)].
Proof.
  destruct (execute_without_model_manager (ret tt) chatRequest
              (withoutModels (sampleState chatAnswers)) eq_refl)
    as (s' & Hrun & Hevents & _).
  exists s'. split; [by rewrite Hrun |]. split; [exact Hrun | exact Hevents].
Defined.

(** X28. When the memory system could not be created, a request for
    which a model is selected is answered with the error response whose
    error is the message of the [TypeError] for reading
    [getConversationHistory] of [undefined]: the failure comes before the
    tools are chosen and before the model is called, so the response carries
    neither content nor tool results. *)
Theorem execute_without_memory_system (pending : M unit) (request : IAgentRequest)
    (model : IModelInfo) (s : State) :
  memorySystem s = None ->
  fst (AgentOrchestrator.selectModel request (started request s)) = Normal model ->
  exists s',
    AgentOrchestrator.execute pending request s
    = (Normal {| resp_id := req_id request +:+ "_error";
                 resp_requestId := req_id request;
                 resp_content := "";
                 resp_tools := None;
                 resp_error :=
                   Some "Cannot read properties of undefined (reading 'getConversationHistory')";
                 resp_metadata := None |}, s')
    /\ events s' = (events s ++ [DidStartRequest request; DidEndRequest (req_id request)])%list
    /\ activeRequests s' !! req_id request = None
    /\ memorySystem s' = None.
Proof.
  intros Hms Hselect. rewrite execute_course. unfold obtainModelAnswer. unfold bind at 1.
  pose proof (quiet_selectModel request (started request s)) as Hquiet.
  destruct (AgentOrchestrator.selectModel request (started request s))
    as [[selected | error] s1] eqn:Hrun; [| discriminate Hselect].
  cbn [fst] in Hselect. injection Hselect as ->.
  destruct Hquiet as (_ & Hevents & Hmemory & _). cbn [snd] in Hevents, Hmemory.
  assert (memorySystem s1 = None) as Hms1 by (by rewrite Hmemory).
  unfold bind at 1. rewrite (gatherContext_without_memory request s1 Hms1).
  eexists. split; [reflexivity |]. cbn. rewrite Hevents. cbn. rewrite <- app_assoc.
  split; [reflexivity |]. split; [apply lookup_delete_eq | exact Hms1].
Qed.

Lemma execute_without_memory_system_witness :
  exists s',
    AgentOrchestrator.execute (ret tt) chatRequest (withoutMemory (sampleState chatAnswers))
    = (Normal (errorResponse chatRequest (TypeError "getConversationHistory")), s')
    /\ events s' = [DidStartRequest chatRequest; DidEndRequest (req_id chatRequest)].
Proof.
  assert (fst (AgentOrchestrator.selectModel chatRequest
                 (started chatRequest (withoutMemory (sampleState chatAnswers))))
          = Normal gpt4o) as Hselect by (vm_compute; reflexivity).
  destruct (execute_without_memory_system (ret tt) chatRequest gpt4o
              (withoutMemory (sampleState chatAnswers)) eq_refl Hselect)
    as (s' & Hrun & Hevents & _).
  exists s'. split; [exact Hrun | exact Hevents].
Defined.

(** ** Code blocks *)

Lemma substring_all (s : string) (m : nat) :
  (String.length s <= m)%nat -> String.substring 0 m s = s.
Proof.
  revert m. induction s as [| c s IH]; intros m Hm.
  - by destruct m.
  - destruct m as [| m]; cbn in Hm; [lia |]. cbn. rewrite IH; [reflexivity | lia].
Qed.

Lemma substring_length_le (s : string) (n m : nat) :
  (String.length (String.substring n m s) <= String.length s - n)%nat.
Proof.
  revert n m. induction s as [| c s IH]; intros n m.
  - destruct n, m; cbn; lia.
  - destruct n as [| n].
    + destruct m as [| m]; cbn; [lia |]. specialize (IH 0%nat m). lia.
    + cbn. apply IH.
Qed.

Lemma prefix_fence_other (c : ascii) (text : string) :
  c <> "`"%char -> String.prefix MemorySystem.fence (String c text) = false.
Proof.
  intros Hc. unfold MemorySystem.fence. cbn [String.prefix].
  destruct (ascii_dec "`" c) as [Heq | _]; [by destruct Hc | reflexivity].
Qed.

Lemma cut_fresh (before rest : string) :
  noBacktick before = true ->
  JS.cut MemorySystem.fence (before +:+ MemorySystem.fence +:+ rest) = Some (before, rest).
Proof.
  induction before as [| c before IH]; intros Hplain.
  - change (JS.cut MemorySystem.fence (String "`" (String "`" (String "`" rest)))
            = Some ("", rest)).
    cbn [JS.cut].
    change (String.prefix MemorySystem.fence (String "`" (String "`" (String "`" rest))))
      with (String.prefix MemorySystem.fence (MemorySystem.fence +:+ rest)).
    rewrite prefix_append. unfold MemorySystem.fence. cbn [String.length String.substring].
    rewrite substring_all; [reflexivity | lia].
  - cbn in Hplain. apply andb_true_iff in Hplain as [Hc Hplain].
    apply negb_true_iff, Ascii.eqb_neq in Hc.
    change (String c before +:+ MemorySystem.fence +:+ rest)
      with (String c (before +:+ MemorySystem.fence +:+ rest)).
    cbn [JS.cut]. rewrite (IH Hplain).
    by rewrite (prefix_fence_other c _ Hc).
Qed.

Lemma cut_plain (text : string) :
  noBacktick text = true -> JS.cut MemorySystem.fence text = None.
Proof.
  induction text as [| c text IH]; intros Hplain; [reflexivity |].
  cbn in Hplain. apply andb_true_iff in Hplain as [Hc Hplain].
  apply negb_true_iff, Ascii.eqb_neq in Hc. cbn [JS.cut]. rewrite (IH Hplain).
  by rewrite (prefix_fence_other c _ Hc).
Qed.

Lemma cut_fence_shorter (s before after : string) :
  JS.cut MemorySystem.fence s = Some (before, after) ->
  (String.length after < String.length s)%nat.
Proof.
  revert before. induction s as [| c s IH]; intros before; [discriminate |].
  cbn [JS.cut]. destruct (String.prefix MemorySystem.fence (String c s)).
  - intros [= _ <-].
    pose proof (substring_length_le (String c s) (String.length MemorySystem.fence)
                  (String.length (String c s))) as Hle.
    cbn in *. lia.
  - destruct (JS.cut MemorySystem.fence s) as [[b a] |]; [| discriminate].
    intros [= _ <-]. specialize (IH b eq_refl). cbn. lia.
Qed.

Lemma spanW_length (s word rest : string) :
  JS.spanW s = (word, rest) -> (String.length rest <= String.length s)%nat.
Proof.
  revert word rest. induction s as [| c s IH]; intros word rest; cbn [JS.spanW].
  - by intros [= _ <-].
  - destruct (JS.isWordChar c); [| by intros [= _ <-]].
    destruct (JS.spanW s) as [w r]. intros [= _ <-]. specialize (IH w r eq_refl). cbn. lia.
Qed.

Lemma spanW_word (language rest : string) :
  isWord language = true ->
  JS.spanW (language +:+ JS.newline +:+ rest) = (language, JS.newline +:+ rest).
Proof.
  induction language as [| c language IH]; intros Hword.
  - reflexivity.
  - cbn in Hword. apply andb_true_iff in Hword as [Hc Hword].
    change (String c language +:+ JS.newline +:+ rest)
      with (String c (language +:+ JS.newline +:+ rest)).
    cbn [JS.spanW]. by rewrite Hc, (IH Hword).
Qed.

(** The length of the text is fuel enough. *)
Lemma extractCodeBlocks_fuel (fuel1 fuel2 : nat) (content : string) :
  (String.length content <= fuel1)%nat ->
  (String.length content <= fuel2)%nat ->
  MemorySystem.extractCodeBlocks_from fuel1 content
  = MemorySystem.extractCodeBlocks_from fuel2 content.
Proof.
  revert fuel2 content. induction fuel1 as [| fuel1 IH]; intros fuel2 content H1 H2.
  - destruct content; [| cbn in H1; lia]. by destruct fuel2.
  - destruct fuel2 as [| fuel2]; [destruct content; [reflexivity | cbn in H2; lia] |].
    cbn [MemorySystem.extractCodeBlocks_from].
    destruct (JS.cut MemorySystem.fence content) as [[skipped opened] |] eqn:Hopen;
      [| reflexivity].
    apply cut_fence_shorter in Hopen.
    destruct (JS.spanW opened) as [word afterWord] eqn:Hspan.
    apply spanW_length in Hspan.
    set (body := match afterWord with
                 | String c rest => if Ascii.eqb c (ascii_of_nat 10) then rest else afterWord
                 | EmptyString => afterWord
                 end).
    assert (String.length body <= String.length afterWord)%nat as Hbody.
    { subst body. destruct afterWord as [| c rest]; [lia |].
      destruct (Ascii.eqb c (ascii_of_nat 10)); cbn; lia. }
    destruct (JS.cut MemorySystem.fence body) as [[code rest] |] eqn:Hclose; [| reflexivity].
    apply cut_fence_shorter in Hclose. f_equal. apply IH; lia.
Qed.

(** X29. A fenced block is read back.  In a text that goes: some text
    without a backtick, an opening fence, a language of word characters
    (or none), a line break, code without a backtick, a closing fence and
    the rest, [extractCodeBlocks] finds first the block of that code,
    trimmed, tagged with that language (with no language when there is
    none), and then the blocks of the rest.  A text without a backtick has
    no block. *)
Theorem extractCodeBlocks_reads_fenced_block (before language code rest : string) :
  noBacktick before = true ->
  isWord language = true ->
  noBacktick code = true ->
  MemorySystem.extractCodeBlocks (before +:+ codeBlock language code +:+ rest)
  = (JS.trim code, match language with EmptyString => None | _ => Some language end)
      :: MemorySystem.extractCodeBlocks rest
  /\ MemorySystem.extractCodeBlocks before = []
  /\ (noBacktick rest = true ->
      MemorySystem.extractCodeBlocks (before +:+ codeBlock language code +:+ rest)
      = [(JS.trim code, match language with EmptyString => None | _ => Some language end)]).
Proof.
  intros Hbefore Hlanguage Hcode.
  assert (forall text, noBacktick text = true -> MemorySystem.extractCodeBlocks text = [])
    as Hplain.
  { intros text Htext. unfold MemorySystem.extractCodeBlocks.
    destruct (String.length text); [reflexivity |].
    cbn [MemorySystem.extractCodeBlocks_from]. by rewrite cut_plain. }
  assert (MemorySystem.extractCodeBlocks (before +:+ codeBlock language code +:+ rest)
          = (JS.trim code, match language with EmptyString => None | _ => Some language end)
              :: MemorySystem.extractCodeBlocks rest) as Hblock.
  { unfold MemorySystem.extractCodeBlocks, codeBlock. rewrite !append_assoc.
    destruct (String.length _) as [| fuel] eqn:Hlength.
    { exfalso. apply (f_equal (fun n => Nat.eqb n 0)) in Hlength. revert Hlength.
      clear. induction before as [| c before IH]; [| discriminate]. discriminate. }
    cbn [MemorySystem.extractCodeBlocks_from].
    rewrite (cut_fresh before _ Hbefore), (spanW_word language _ Hlanguage).
    change (JS.newline +:+ code +:+ MemorySystem.fence +:+ rest)
      with (String (ascii_of_nat 10) (code +:+ MemorySystem.fence +:+ rest)).
    cbv beta iota zeta. rewrite Ascii.eqb_refl, (cut_fresh code rest Hcode). f_equal.
    apply extractCodeBlocks_fuel; [| lia].
    assert (String.length (before +:+ MemorySystem.fence +:+ language +:+
                             String (ascii_of_nat 10) (code +:+ MemorySystem.fence +:+ rest))
            = S fuel) as Hlength' by exact Hlength.
    pose proof (cut_fence_shorter _ _ _ (cut_fresh before
                  (language +:+ String (ascii_of_nat 10) (code +:+ MemorySystem.fence +:+ rest))
                  Hbefore)) as H1.
    pose proof (spanW_length _ _ _ (spanW_word language (code +:+ MemorySystem.fence +:+ rest)
                                      Hlanguage)) as H2.
    pose proof (cut_fence_shorter _ _ _ (cut_fresh code rest Hcode)) as H3.
    change (JS.newline +:+ code +:+ MemorySystem.fence +:+ rest)
      with (String (ascii_of_nat 10) (code +:+ MemorySystem.fence +:+ rest)) in H2.
    cbn [String.length] in H2. lia. }
  split; [exact Hblock |]. split; [by apply Hplain |].
  intros Hrest. by rewrite Hblock, (Hplain rest Hrest).
Qed.

Lemma extractCodeBlocks_reads_fenced_block_witness :
  MemorySystem.extractCodeBlocks
    ("Use this:" +:+ JS.newline +:+ codeBlock "rust" ("  let x = 1;" +:+ JS.newline)
       +:+ JS.newline +:+ "Done.")
  = [("let x = 1;", Some "rust")].
Proof.
  destruct (extractCodeBlocks_reads_fenced_block ("Use this:" +:+ JS.newline) "rust"
              ("  let x = 1;" +:+ JS.newline) (JS.newline +:+ "Done.")
              eq_refl eq_refl eq_refl) as (_ & _ & Hone).
  exact (Hone eq_refl).
Defined.
